(** * ACTA website: consent manager and contact-form anti-spam logic

    A shallow embedding of [assets/js/consent.js] and [assets/js/contact.js].
    The closed-over module variables of each script become the fields of an
    explicit state record, every function of the script becomes a function
    on that record, [localStorage] is a finite map from keys to strings, and
    the browser built-ins the scripts call ([JSON.parse], [JSON.stringify],
    [String.prototype.includes], [toLowerCase], [trim], [parseInt],
    [Number.prototype.toString]) are written out on byte strings. *)

From Stdlib Require Import ZArith Lia Ascii String List Bool.
From Stdlib Require Import Decimal DecimalZ DecimalPos DecimalFacts.
From stdpp Require Import gmap strings list.

Local Open Scope Z_scope.
Set Warnings "-register-all".
#[global] Arguments String.append !s1 s2 / : simpl nomatch.

(** ** JavaScript values and built-ins *)

Module JS.

(** Strings are sequences of 8-bit code units. The letters the scripts
    inspect are ASCII; other units are carried along unchanged. *)

Definition code (c : ascii) : Z := Z.of_N (N_of_ascii c).
Definition chr (n : Z) : ascii := ascii_of_N (Z.to_N n).

Definition dquote : ascii := "034"%char.
Definition bslash : ascii := "092"%char.

Definition in_range (lo hi : Z) (c : ascii) : bool :=
  (lo <=? code c) && (code c <=? hi).

Definition is_upper (c : ascii) : bool := in_range 65 90 c.
Definition is_digit (c : ascii) : bool := in_range 48 57 c.

(** [String.prototype.length] *)
Definition strlen (s : string) : Z := Z.of_nat (String.length s).

(** [String.prototype.toLowerCase], on ASCII letters. *)
Definition lower_char (c : ascii) : ascii :=
  if is_upper c then chr (code c + 32) else c.

Fixpoint toLowerCase (s : string) : string :=
  match s with
  | EmptyString => EmptyString
  | String c r => String (lower_char c) (toLowerCase r)
  end.

(** [haystack.includes(needle)] *)
Fixpoint includes (haystack needle : string) : bool :=
  String.prefix needle haystack ||
  match haystack with
  | EmptyString => false
  | String _ r => includes r needle
  end.

(** What follows a given first character, when the string starts with it. *)
Definition starts_with (c : ascii) (s : string) : option string :=
  match s with
  | String c' r => if Ascii.eqb c' c then Some r else None
  | EmptyString => None
  end.

(** The string without its first [n] characters. *)
Fixpoint drop (n : nat) (s : string) : string :=
  match n, s with
  | S n', String _ r => drop n' r
  | _, _ => s
  end.

(** White space as [trim] and [parseInt] strip it (the ASCII part of the
    ECMAScript WhiteSpace and LineTerminator classes). *)
Definition is_space (c : ascii) : bool :=
  (code c =? 32) || in_range 9 13 c.

Fixpoint trimStart (s : string) : string :=
  match s with
  | String c r => if is_space c then trimStart r else s
  | EmptyString => EmptyString
  end.

Fixpoint rev_string (s acc : string) : string :=
  match s with
  | EmptyString => acc
  | String c r => rev_string r (String c acc)
  end.

(** [String.prototype.trim] *)
Definition trim (s : string) : string :=
  rev_string (trimStart (rev_string (trimStart s) "")) "".

(** Array.prototype.join over strings. *)
Fixpoint join (sep : string) (l : list string) : string :=
  match l with
  | [] => ""
  | [x] => x
  | x :: r => x +:+ sep +:+ join sep r
  end.

(** *** Decimal numerals *)

Fixpoint show_uint (d : Decimal.uint) : string :=
  match d with
  | Nil => ""
  | D0 r => String "0" (show_uint r)
  | D1 r => String "1" (show_uint r)
  | D2 r => String "2" (show_uint r)
  | D3 r => String "3" (show_uint r)
  | D4 r => String "4" (show_uint r)
  | D5 r => String "5" (show_uint r)
  | D6 r => String "6" (show_uint r)
  | D7 r => String "7" (show_uint r)
  | D8 r => String "8" (show_uint r)
  | D9 r => String "9" (show_uint r)
  end.

(** [Number.prototype.toString] on an integer, which is what
    [Date.now().toString()] and [JSON.stringify] print for a timestamp. *)
Definition Number_toString (z : Z) : string :=
  match Z.to_int z with
  | Decimal.Pos d => show_uint d
  | Decimal.Neg d => String "-" (show_uint d)
  end.

(** The longest prefix of decimal digits, and what follows it. *)
Fixpoint read_uint (s : string) : Decimal.uint * string :=
  match s with
  | EmptyString => (Nil, EmptyString)
  | String c r =>
      let k (f : Decimal.uint -> Decimal.uint) :=
        let '(d, rest) := read_uint r in (f d, rest) in
      if Ascii.eqb c "0" then k D0 else
      if Ascii.eqb c "1" then k D1 else
      if Ascii.eqb c "2" then k D2 else
      if Ascii.eqb c "3" then k D3 else
      if Ascii.eqb c "4" then k D4 else
      if Ascii.eqb c "5" then k D5 else
      if Ascii.eqb c "6" then k D6 else
      if Ascii.eqb c "7" then k D7 else
      if Ascii.eqb c "8" then k D8 else
      if Ascii.eqb c "9" then k D9 else (Nil, s)
  end.

(** The value of one hexadecimal digit. *)
Definition hex_val (c : ascii) : option Z :=
  if is_digit c then Some (code c - 48)
  else if in_range 97 102 c then Some (code c - 87)
  else if in_range 65 70 c then Some (code c - 55)
  else None.

(** The longest prefix of hexadecimal digits as a number, [None] when
    there is no digit. *)
Fixpoint read_hex (s : string) (acc : option Z) : option Z :=
  match s with
  | EmptyString => acc
  | String c r =>
      match hex_val c with
      | Some d => read_hex r (Some (16 * default 0 acc + d))
      | None => acc
      end
  end.

(** [parseInt(string)] without a radix argument; [None] is [NaN]. *)
Definition parseInt_sign (s : string) : bool * string :=
  match starts_with "-" s, starts_with "+" s with
  | Some r, _ => (true, r)
  | None, Some r => (false, r)
  | None, None => (false, s)
  end.

Definition hex_prefix (s : string) : option string :=
  match starts_with "0" s with
  | Some r =>
      match starts_with "x" r with
      | Some r' => Some r'
      | None => starts_with "X" r
      end
  | None => None
  end.

Definition parseInt (s : string) : option Z :=
  let signed := parseInt_sign (trimStart s) in
  let mag :=
    match hex_prefix (snd signed) with
    | Some r => read_hex r None
    | None =>
        match read_uint (snd signed) with
        | (Nil, _) => None
        | (d, _) => Some (Z.of_uint d)
        end
    end in
  (fun m => if fst signed then - m else m) <$> mag.

(** *** JSON *)

(** A value as [JSON.parse] builds it. An object keeps its own properties
    in insertion order (an engine lists integer-like keys first; the
    records of the scripts have none). A numeral with a fraction or an
    exponent keeps its lexeme: the scripts never compute with one, and
    only ask whether it is zero ([truthy]). *)
Inductive json : Type :=
  | JNull
  | JBool (b : bool)
  | JNum (z : Z)
  | JReal (lexeme : string)
  | JStr (s : string)
  | JArr (elems : list json)
  | JObj (props : list (string * json)).

(** Own-property lookup and assignment on an object's property list. *)
Fixpoint get (props : list (string * json)) (k : string) : option json :=
  match props with
  | [] => None
  | (k', v) :: r => if String.eqb k' k then Some v else get r k
  end.

Fixpoint set (props : list (string * json)) (k : string) (v : json)
  : list (string * json) :=
  match props with
  | [] => [(k, v)]
  | (k', v') :: r =>
      if String.eqb k' k then (k', v) :: r else (k', v') :: set r k v
  end.

(** Object spread [{...a, ...b}] of two property lists. *)
Definition spread (a b : list (string * json)) : list (string * json) :=
  fold_left (fun acc kv => set acc (fst kv) (snd kv)) b a.

(** The own enumerable properties a spread copies out of a value: those of
    an object, the indices of an array or of a string, nothing for a
    primitive. *)
Fixpoint indexed {A} (f : A -> json) (i : Z) (l : list A)
  : list (string * json) :=
  match l with
  | [] => []
  | x :: r => (Number_toString i, f x) :: indexed f (i + 1) r
  end.

Definition own_props (v : json) : list (string * json) :=
  match v with
  | JObj props => props
  | JArr elems => indexed (fun x => x) 0 elems
  | JStr s =>
      indexed (fun c : ascii => JStr (String c "")) 0 (list_ascii_of_string s)
  | _ => []
  end.

(** [v === true] *)
Definition is_true (v : option json) : bool :=
  match v with
  | Some (JBool true) => true
  | _ => false
  end.

(** **** JSON.stringify *)

Definition hex_digit (d : Z) : ascii :=
  if d <? 10 then chr (48 + d) else chr (87 + d).

Definition escape_char (c : ascii) : string :=
  if Ascii.eqb c dquote then String bslash (String dquote "")
  else if Ascii.eqb c bslash then String bslash (String bslash "")
  else if code c =? 8 then String bslash "b"
  else if code c =? 9 then String bslash "t"
  else if code c =? 10 then String bslash "n"
  else if code c =? 12 then String bslash "f"
  else if code c =? 13 then String bslash "r"
  else if code c <? 32 then
    String bslash
      (String "u" (String "0" (String "0"
        (String (hex_digit (code c / 16))
          (String (hex_digit (code c mod 16)) "")))))
  else String c "".

Fixpoint escape (s : string) : string :=
  match s with
  | EmptyString => EmptyString
  | String c r => escape_char c +:+ escape r
  end.

Definition quote (s : string) : string :=
  String dquote (escape s +:+ String dquote "").

Fixpoint stringify (v : json) : string :=
  match v with
  | JNull => "null"
  | JBool true => "true"
  | JBool false => "false"
  | JNum z => Number_toString z
  | JReal l => l
  | JStr s => quote s
  | JArr elems =>
      "[" +:+ join "," (map stringify elems) +:+ "]"
  | JObj props =>
      "{" +:+
      join "," (map (fun kv => quote (fst kv) +:+ ":" +:+ stringify (snd kv))
                    props)
      +:+ "}"
  end.

(** **** JSON.parse *)

Definition is_json_ws (c : ascii) : bool :=
  (code c =? 32) || (code c =? 9) || (code c =? 10) || (code c =? 13).

Fixpoint skip_ws (s : string) : string :=
  match s with
  | String c r => if is_json_ws c then skip_ws r else s
  | EmptyString => EmptyString
  end.

(** The bytes that stand for the code unit of a [\uXXXX] escape. *)
Definition utf8 (n : Z) : string :=
  if n <? 128 then String (chr n) ""
  else if n <? 2048 then
    String (chr (192 + n / 64)) (String (chr (128 + n mod 64)) "")
  else
    String (chr (224 + n / 4096))
      (String (chr (128 + (n / 64) mod 64))
        (String (chr (128 + n mod 64)) "")).

Definition unescape (e : ascii) : option string :=
  if Ascii.eqb e dquote then Some (String dquote "")
  else if Ascii.eqb e bslash then Some (String bslash "")
  else if Ascii.eqb e "/" then Some "/"
  else if Ascii.eqb e "b" then Some (String (chr 8) "")
  else if Ascii.eqb e "f" then Some (String (chr 12) "")
  else if Ascii.eqb e "n" then Some (String (chr 10) "")
  else if Ascii.eqb e "r" then Some (String (chr 13) "")
  else if Ascii.eqb e "t" then Some (String (chr 9) "")
  else None.

Definition hex4 (a b c d : ascii) : option Z :=
  match hex_val a, hex_val b, hex_val c, hex_val d with
  | Some x, Some y, Some z, Some w => Some (4096 * x + 256 * y + 16 * z + w)
  | _, _, _, _ => None
  end.

(** The characters of a string literal after its opening quote, up to and
    including the closing quote. *)
Fixpoint parse_chars (s : string) : option (string * string) :=
  match s with
  | EmptyString => None
  | String c r =>
      if Ascii.eqb c dquote then Some (EmptyString, r)
      else if Ascii.eqb c bslash then
        match r with
        | EmptyString => None
        | String e r1 =>
            if Ascii.eqb e "u" then
              match r1 with
              | String h1 (String h2 (String h3 (String h4 r2))) =>
                  match hex4 h1 h2 h3 h4, parse_chars r2 with
                  | Some n, Some (t, rest) => Some (utf8 n +:+ t, rest)
                  | _, _ => None
                  end
              | _ => None
              end
            else
              match unescape e, parse_chars r1 with
              | Some x, Some (t, rest) => Some (x +:+ t, rest)
              | _, _ => None
              end
        end
      else if code c <? 32 then None
      else
        match parse_chars r with
        | Some (t, rest) => Some (String c t, rest)
        | None => None
        end
  end.

(** A digit run that must not be empty. *)
Definition read_digits (s : string) : option (Decimal.uint * string) :=
  match read_uint s with
  | (Nil, _) => None
  | (d, rest) => Some (d, rest)
  end.

(** The optional fraction and exponent of a numeral: their lexeme, empty
    when both are absent. *)
Definition parse_fraction (s : string) : option (string * string) :=
  match starts_with "." s with
  | Some r =>
      match read_digits r with
      | Some (f, rest) => Some (String "." (show_uint f), rest)
      | None => None
      end
  | None => Some (EmptyString, s)
  end.

(** The sign an exponent may start with. *)
Definition exponent_sign (s : string) : string * string :=
  match starts_with "+" s, starts_with "-" s with
  | Some r, _ => ("+", r)
  | None, Some r => ("-", r)
  | None, None => (EmptyString, s)
  end.

Definition parse_exponent (s : string) : option (string * string) :=
  match s with
  | String c r =>
      if Ascii.eqb c "e" || Ascii.eqb c "E" then
        match read_digits (snd (exponent_sign r)) with
        | Some (x, rest) =>
            Some (String c (fst (exponent_sign r) +:+ show_uint x), rest)
        | None => None
        end
      else Some (EmptyString, s)
  | EmptyString => Some (EmptyString, s)
  end.

(** The minus sign a numeral may start with. *)
Definition minus_sign (s : string) : bool * string :=
  match starts_with "-" s with
  | Some r => (true, r)
  | None => (false, s)
  end.

(** An integer part with a superfluous leading zero. *)
Definition padded (d : Decimal.uint) : bool :=
  match d with
  | D0 Nil => false
  | D0 _ => true
  | _ => false
  end.

(** The value of a numeral: an integer when it has neither fraction nor
    exponent. *)
Definition numeral (neg : bool) (d : Decimal.uint) (frac ex : string) : json :=
  if String.eqb frac "" && String.eqb ex "" then
    JNum (if neg then - Z.of_uint d else Z.of_uint d)
  else JReal ((if neg then "-" else "") +:+ show_uint d +:+ frac +:+ ex).

Definition parse_number (s : string) : option (json * string) :=
  match read_digits (snd (minus_sign s)) with
  | None => None
  | Some (d, s2) =>
      if padded d then None
      else
        match parse_fraction s2 with
        | None => None
        | Some (frac, s3) =>
            match parse_exponent s3 with
            | None => None
            | Some (ex, s4) => Some (numeral (fst (minus_sign s)) d frac ex, s4)
            end
        end
  end.

(** The recursive-descent parser for values, array elements and object
    members; [fuel] bounds the nesting of calls. A duplicate key keeps the
    place of its first occurrence and the value of its last. *)
Definition literal (word : string) (v : json) (s : string)
  : option (json * string) :=
  if String.prefix word s then Some (v, drop (String.length word) s)
  else None.

Fixpoint parse_value (fuel : nat) (s : string) : option (json * string) :=
  match fuel with
  | O => None
  | S n =>
      match skip_ws s with
      | EmptyString => None
      | String c r =>
          if Ascii.eqb c "{" then
            match starts_with "}" (skip_ws r) with
            | Some r' => Some (JObj [], r')
            | None =>
                match parse_members n r with
                | Some (kvs, r') => Some (JObj (spread [] kvs), r')
                | None => None
                end
            end
          else if Ascii.eqb c "[" then
            match starts_with "]" (skip_ws r) with
            | Some r' => Some (JArr [], r')
            | None =>
                match parse_elements n r with
                | Some (vs, r') => Some (JArr vs, r')
                | None => None
                end
            end
          else if Ascii.eqb c dquote then
            match parse_chars r with
            | Some (t, r') => Some (JStr t, r')
            | None => None
            end
          else if Ascii.eqb c "-" || is_digit c then
            parse_number (String c r)
          else if Ascii.eqb c "t" then literal "true" (JBool true) (String c r)
          else if Ascii.eqb c "f" then
            literal "false" (JBool false) (String c r)
          else if Ascii.eqb c "n" then literal "null" JNull (String c r)
          else None
      end
  end
with parse_elements (fuel : nat) (s : string)
  : option (list json * string) :=
  match fuel with
  | O => None
  | S n =>
      match parse_value n s with
      | None => None
      | Some (v, r) =>
          match starts_with "," (skip_ws r) with
          | Some r' =>
              match parse_elements n r' with
              | Some (vs, r'') => Some (v :: vs, r'')
              | None => None
              end
          | None =>
              match starts_with "]" (skip_ws r) with
              | Some r' => Some ([v], r')
              | None => None
              end
          end
      end
  end
with parse_members (fuel : nat) (s : string)
  : option (list (string * json) * string) :=
  match fuel with
  | O => None
  | S n =>
      match starts_with dquote (skip_ws s) with
      | None => None
      | Some r =>
          match parse_chars r with
          | None => None
          | Some (k, r1) =>
              match starts_with ":" (skip_ws r1) with
              | None => None
              | Some r2 =>
                  match parse_value n r2 with
                  | None => None
                  | Some (v, r3) =>
                      match starts_with "," (skip_ws r3) with
                      | Some r4 =>
                          match parse_members n r4 with
                          | Some (kvs, r5) => Some ((k, v) :: kvs, r5)
                          | None => None
                          end
                      | None =>
                          match starts_with "}" (skip_ws r3) with
                          | Some r4 => Some ([(k, v)], r4)
                          | None => None
                          end
                      end
                  end
              end
          end
      end
  end.

(** [JSON.parse(text)]; [None] when it throws a [SyntaxError]. Every
    nested call consumes input, so twice the length of the text is fuel
    enough (lemma [parse_value_fuel]). *)
Definition parse_fuel (s : string) : nat := 2 * String.length s + 2.

Definition parse (s : string) : option json :=
  match parse_value (parse_fuel s) s with
  | Some (v, rest) =>
      match skip_ws rest with
      | EmptyString => Some v
      | _ => None
      end
  | None => None
  end.

(** **** ToBoolean *)

(** The number a numeral with a fraction or an exponent denotes is the
    double nearest to [digits * 10 ^ scale], where [digits] are the digits
    of its integer part and of its fraction read as one integer. That
    double is zero exactly when the value is at most [2 ^ -1075], half the
    least positive double: below it zero is the nearest double, and at it
    the tie goes to the even neighbour, which is zero. *)
Definition fraction_digits (s : string) : Decimal.uint * string :=
  match starts_with "." s with
  | Some r => read_uint r
  | None => (Nil, s)
  end.

Definition exponent_value (s : string) : Z :=
  match s with
  | String c r =>
      if Ascii.eqb c "e" || Ascii.eqb c "E" then
        let x := Z.of_uint (fst (read_uint (snd (exponent_sign r)))) in
        if String.eqb (fst (exponent_sign r)) "-" then - x else x
      else 0
  | EmptyString => 0
  end.

Definition rounds_to_zero (lexeme : string) : bool :=
  let int := read_uint (snd (minus_sign lexeme)) in
  let frac := fraction_digits (snd int) in
  let digits := Z.of_uint (Decimal.app (fst int) (fst frac)) in
  let scale :=
    exponent_value (snd frac) - Z.of_nat (Decimal.nb_digits (fst frac)) in
  (digits =? 0)
  || ((scale <? 0) && (digits * 2 ^ 1075 <=? 10 ^ (- scale))).

(** ToBoolean; a missing property reads as [undefined], and [-0] is the
    integer 0. *)
Definition truthy (v : option json) : bool :=
  match v with
  | None | Some JNull => false
  | Some (JBool b) => b
  | Some (JNum z) => negb (z =? 0)
  | Some (JReal l) => negb (rounds_to_zero l)
  | Some (JStr s) => negb (String.eqb s "")
  | Some (JArr _) | Some (JObj _) => true
  end.

(** **** Values that print and read back *)

(** A value is canonical when no numeral in it has a fraction or an
    exponent and no object in it repeats a key. *)
Fixpoint canonical (v : json) : Prop :=
  match v with
  | JReal _ => False
  | JArr elems =>
      (fix all (l : list json) : Prop :=
         match l with
         | [] => True
         | x :: r => canonical x /\ all r
         end) elems
  | JObj props =>
      NoDup (map fst props)
      /\ (fix all (l : list (string * json)) : Prop :=
            match l with
            | [] => True
            | kv :: r => canonical (snd kv) /\ all r
            end) props
  | _ => True
  end.

(** A bound on the nesting of parser calls a printed value needs. *)
Fixpoint weight (v : json) : nat :=
  match v with
  | JArr elems =>
      S ((fix sum (l : list json) : nat :=
            match l with
            | [] => O
            | x :: r => S (weight x + sum r)
            end) elems)
  | JObj props =>
      S ((fix sum (l : list (string * json)) : nat :=
            match l with
            | [] => O
            | kv :: r => S (weight (snd kv) + sum r)
            end) props)
  | _ => 1%nat
  end.

(** What may follow a value in a text: nothing, a comma, or a closing
    bracket or brace. *)
Definition delimited (rest : string) : Prop :=
  match rest with
  | EmptyString => True
  | String c _ => c = ","%char \/ c = "]"%char \/ c = "}"%char
  end.

(** The first character of a printed value. *)
Definition opens_value (c : ascii) : bool :=
  Ascii.eqb c "{" || Ascii.eqb c "[" || Ascii.eqb c dquote || Ascii.eqb c "-"
  || is_digit c || Ascii.eqb c "t" || Ascii.eqb c "f" || Ascii.eqb c "n".

(** The fuel a value needs to be read back. *)
Definition wsum (l : list json) : nat :=
  list_sum (map (fun x => S (weight x)) l).

Definition wsum_props (l : list (string * json)) : nat :=
  list_sum (map (fun kv => S (weight (snd kv))) l).

(** A printed value reads back, whatever delimiter follows it. *)
Definition reads_back (x : json) : Prop :=
  forall f rest,
    (weight x <= f)%nat -> delimited rest ->
    parse_value f (stringify x +:+ rest) = Some (x, rest).

End JS.

(** ** The consent manager, [assets/js/consent.js] *)

Module Consent.
Import JS.

Definition CONSENT_NECESSARY : string := "necessary".
Definition CONSENT_ANALYTICS : string := "analytics".
Definition CONSENT_MARKETING : string := "marketing".

Definition STORAGE_KEY : string := "acta_consent".
Definition COOKIE_NAME : string := "acta_consent".
Definition COOKIE_MAX_AGE : Z := 365 * 24 * 60 * 60.

(** A [<script>] element: its attributes in order and its text. *)
Record script : Type := Script {
  attributes : list (string * string);
  textContent : string
}.

(** The module state: the closed-over variables of the script and the
    parts of the browser it reads and writes. An absent element is
    [None]; a present banner or modal carries whether it is hidden, a
    present checkbox whether it is checked. [inserted] lists the nodes
    handed to [replaceChild], oldest first: each one runs when it enters
    the document. *)
Record state : Type := State {
  currentConsent : list (string * json);
  cookieBanner : option bool;
  cookieModal : option bool;
  cookieSettingsButton : bool;
  analyticsCheckbox : option bool;
  marketingCheckbox : option bool;
  localStorage : gmap string string;
  getItem_throws : bool;
  setItem_throws : bool;
  cookies : gmap string string;
  document : list script;
  inserted : list script
}.

Definition with_consent (c : list (string * json)) (s : state) : state :=
  State c (cookieBanner s) (cookieModal s) (cookieSettingsButton s)
    (analyticsCheckbox s) (marketingCheckbox s) (localStorage s)
    (getItem_throws s) (setItem_throws s) (cookies s) (document s)
    (inserted s).

Definition with_banner (b : option bool) (s : state) : state :=
  State (currentConsent s) b (cookieModal s) (cookieSettingsButton s)
    (analyticsCheckbox s) (marketingCheckbox s) (localStorage s)
    (getItem_throws s) (setItem_throws s) (cookies s) (document s)
    (inserted s).

Definition with_modal (m : option bool) (s : state) : state :=
  State (currentConsent s) (cookieBanner s) m (cookieSettingsButton s)
    (analyticsCheckbox s) (marketingCheckbox s) (localStorage s)
    (getItem_throws s) (setItem_throws s) (cookies s) (document s)
    (inserted s).

Definition with_checkboxes (a m : option bool) (s : state) : state :=
  State (currentConsent s) (cookieBanner s) (cookieModal s)
    (cookieSettingsButton s) a m (localStorage s)
    (getItem_throws s) (setItem_throws s) (cookies s) (document s)
    (inserted s).

Definition with_storage (l c : gmap string string) (s : state) : state :=
  State (currentConsent s) (cookieBanner s) (cookieModal s)
    (cookieSettingsButton s) (analyticsCheckbox s) (marketingCheckbox s)
    l (getItem_throws s) (setItem_throws s) c (document s) (inserted s).

Definition with_document (d i : list script) (s : state) : state :=
  State (currentConsent s) (cookieBanner s) (cookieModal s)
    (cookieSettingsButton s) (analyticsCheckbox s) (marketingCheckbox s)
    (localStorage s) (getItem_throws s) (setItem_throws s) (cookies s) d i.

(** The record the script is compiled with. *)
Definition default_consent : list (string * json) :=
  [ (CONSENT_NECESSARY, JBool true);
    (CONSENT_ANALYTICS, JBool false);
    (CONSENT_MARKETING, JBool false) ].

(** [updateConsentUI]: assigning to [checked] converts with ToBoolean. *)
Definition updateConsentUI (s : state) : state :=
  with_checkboxes
    ((fun _ => truthy (get (currentConsent s) CONSENT_ANALYTICS))
       <$> analyticsCheckbox s)
    ((fun _ => truthy (get (currentConsent s) CONSENT_MARKETING))
       <$> marketingCheckbox s)
    s.

(** [loadConsent]: a throwing [getItem], a missing or empty item and a
    throwing [JSON.parse] all leave the record as it is. *)
Definition loadConsent (s : state) : state :=
  let s1 :=
    if getItem_throws s then s
    else
      match localStorage s !! STORAGE_KEY with
      | None => s
      | Some stored =>
          if String.eqb stored "" then s
          else
            match parse stored with
            | Some v =>
                with_consent (spread (currentConsent s) (own_props v)) s
            | None => s
            end
      end in
  updateConsentUI s1.

(** [encodeURIComponent] on bytes. *)
Definition uri_unreserved (c : ascii) : bool :=
  in_range 65 90 c || in_range 97 122 c || is_digit c ||
  existsb (Ascii.eqb c) (list_ascii_of_string "-_.!~*'()").

Definition upper_hex_digit (d : Z) : ascii :=
  if d <? 10 then chr (48 + d) else chr (55 + d).

Fixpoint encodeURIComponent (s : string) : string :=
  match s with
  | EmptyString => EmptyString
  | String c r =>
      if uri_unreserved c then String c (encodeURIComponent r)
      else
        String "%"
          (String (upper_hex_digit (code c / 16))
            (String (upper_hex_digit (code c mod 16))
              (encodeURIComponent r)))
  end.

(** [saveConsent(consent)], also exported as [ACTAConsent.update]. The
    merge happens before the [try]; a throwing [setItem] skips the cookie
    as well. *)
Definition saveConsent (consent : json) (s : state) : state :=
  let merged := spread (currentConsent s) (own_props consent) in
  let s1 := with_consent merged s in
  if setItem_throws s then s1
  else
    let text := stringify (JObj merged) in
    with_storage
      (<[STORAGE_KEY := text]> (localStorage s))
      (<[COOKIE_NAME := encodeURIComponent text]> (cookies s))
      s1.

(** The selector [script[type="text/plain"][data-cookie-category]]. In an
    HTML document the value of [type] is matched ASCII case-insensitively. *)
Fixpoint getAttribute (attrs : list (string * string)) (name : string)
  : option string :=
  match attrs with
  | [] => None
  | (n, v) :: r => if String.eqb n name then Some v else getAttribute r name
  end.

Fixpoint setAttribute (attrs : list (string * string)) (name value : string)
  : list (string * string) :=
  match attrs with
  | [] => [(name, value)]
  | (n, v) :: r =>
      if String.eqb n name then (n, value) :: r
      else (n, v) :: setAttribute r name value
  end.

Definition type_is (t : string) (x : script) : bool :=
  match getAttribute (attributes x) "type" with
  | Some v => String.eqb (toLowerCase v) t
  | None => false
  end.

Definition is_gated (x : script) : bool :=
  type_is "text/plain" x &&
  bool_decide (is_Some (getAttribute (attributes x) "data-cookie-category")).

Definition category (x : script) : string :=
  default "" (getAttribute (attributes x) "data-cookie-category").

(** [shouldShowBanner] *)
Definition shouldShowBanner (s : state) : bool :=
  if truthy (get (currentConsent s) CONSENT_ANALYTICS)
     || truthy (get (currentConsent s) CONSENT_MARKETING)
  then false
  else
    0 <? Z.of_nat (length (filter (fun x => is_gated x = true) (document s))).

(** [showBanner], [hideBanner], [showModal], [hideModal]; the transitions
    and their timers only delay when the class changes. *)
Definition showBanner (s : state) : state :=
  with_banner ((fun _ => false) <$> cookieBanner s) s.
Definition hideBanner (s : state) : state :=
  with_banner ((fun _ => true) <$> cookieBanner s) s.
Definition showModal (s : state) : state :=
  with_modal ((fun _ => false) <$> cookieModal s) s.
Definition hideModal (s : state) : state :=
  with_modal ((fun _ => true) <$> cookieModal s) s.

(** [isAllowed(category)] *)
Definition isAllowed (s : state) (cat : string) : bool :=
  if String.eqb cat CONSENT_NECESSARY then true
  else is_true (get (currentConsent s) cat).

(** The live script built for a placeholder: [type] is set first, then
    every attribute but [type] and [data-cookie-category] is copied. *)
Definition activate (x : script) : script :=
  Script
    (fold_left
       (fun acc a =>
          if negb (String.eqb (fst a) "type")
             && negb (String.eqb (fst a) "data-cookie-category")
          then setAttribute acc (fst a) (snd a) else acc)
       (attributes x)
       [("type", "text/javascript")])
    (textContent x).

(** What one iteration of the [forEach] in [processGatedScripts] leaves at
    the place of a node of the document. *)
Definition resolve (s : state) (x : script) : script :=
  if is_gated x && isAllowed s (category x) then activate x else x.

(** [processGatedScripts] *)
Definition processGatedScripts (s : state) : state :=
  with_document
    (resolve s <$> document s)
    (inserted s ++
     (activate <$>
        filter (fun x => is_gated x && isAllowed s (category x) = true)
               (document s)))
    s.

Definition consent_of (analytics marketing : bool) : json :=
  JObj [ (CONSENT_NECESSARY, JBool true);
         (CONSENT_ANALYTICS, JBool analytics);
         (CONSENT_MARKETING, JBool marketing) ].

(** [acceptAll], [rejectNonEssential], [savePreferences] *)
Definition acceptAll (s : state) : state :=
  processGatedScripts
    (hideModal (hideBanner (saveConsent (consent_of true true) s))).

Definition rejectNonEssential (s : state) : state :=
  processGatedScripts
    (hideModal (hideBanner (saveConsent (consent_of false false) s))).

Definition savePreferences (s : state) : state :=
  processGatedScripts
    (hideModal (hideBanner
      (saveConsent
         (consent_of (default false (analyticsCheckbox s))
                     (default false (marketingCheckbox s)))
         s))).

(** [init] *)
Definition init (s : state) : state :=
  match cookieBanner s, cookieModal s, cookieSettingsButton s with
  | Some _, Some _, true =>
      let s1 := loadConsent s in
      let s2 := if shouldShowBanner s1 then showBanner s1 else s1 in
      processGatedScripts s2
  | _, _, _ => s
  end.

(** What the markup of a page declares: the banner and the dialog with
    their [hidden] class, the settings button, the two checkboxes, and the
    script elements in document order. *)
Record markup : Type := Markup {
  banner : option bool;
  modal : option bool;
  settings_button : bool;
  analytics_box : option bool;
  marketing_box : option bool;
  scripts : list script
}.

(** The state a page starts in: the record as compiled in, the elements
    as the markup declares them, the storage as the browser hands it
    over. *)
Definition page (m : markup) (storage jar : gmap string string)
    (get_throws set_throws : bool) : state :=
  State default_consent (banner m) (modal m) (settings_button m)
    (analytics_box m) (marketing_box m) storage get_throws set_throws jar
    (scripts m) [].

(** Loading a page of the site in the browser a state was reached in. *)
Definition reload (s : state) (m : markup) : state :=
  page m (localStorage s) (cookies s) (getItem_throws s) (setItem_throws s).

(** The operations on the manager: the handlers of its buttons, the
    functions of [window.ACTAConsent], the user ticking the boxes of the
    preferences dialog, and a write to the stored item from elsewhere
    (another tab of the site). *)
Inductive op : Type :=
  | Load
  | AcceptAll
  | RejectNonEssential
  | SavePreferences
  | Scan
  | Update (consent : json)
  | Tick (analytics marketing : bool)
  | Stored (item : option string).

Definition step (o : op) (s : state) : state :=
  match o with
  | Load => loadConsent s
  | AcceptAll => acceptAll s
  | RejectNonEssential => rejectNonEssential s
  | SavePreferences => savePreferences s
  | Scan => processGatedScripts s
  | Update consent => saveConsent consent s
  | Tick a m =>
      with_checkboxes ((fun _ => a) <$> analyticsCheckbox s)
                      ((fun _ => m) <$> marketingCheckbox s) s
  | Stored item =>
      with_storage
        (match item with
         | Some v => <[STORAGE_KEY := v]> (localStorage s)
         | None => delete STORAGE_KEY (localStorage s)
         end)
        (cookies s) s
  end.

Definition run (ops : list op) (s : state) : state :=
  fold_left (fun acc o => step o acc) ops s.

(** The three-category record of the data model. *)
Record ConsentRecord : Type := {
  necessary : bool;
  analytics : bool;
  marketing : bool
}.

Definition record_props (c : ConsentRecord) : list (string * json) :=
  [ (CONSENT_NECESSARY, JBool (necessary c));
    (CONSENT_ANALYTICS, JBool (analytics c));
    (CONSENT_MARKETING, JBool (marketing c)) ].

(** A placeholder of a category, and a script in the form [activate]
    gives it. *)
Definition placeholder_of (cat : string) (x : script) : bool :=
  is_gated x && String.eqb (category x) cat.

Definition is_active (x : script) : bool := type_is "text/javascript" x.

(** The record does not grant marketing. *)
Definition marketing_withheld (s : state) : Prop :=
  is_true (get (currentConsent s) CONSENT_MARKETING) = false.

(** The record reads [necessary: true]. *)
Definition necessary_on (s : state) : Prop :=
  get (currentConsent s) CONSENT_NECESSARY = Some (JBool true).

(** A value whose every [necessary] property, if it has one, is [true]. *)
Definition asserts_necessary (v : json) : Prop :=
  Forall (fun kv => fst kv = CONSENT_NECESSARY -> snd kv = JBool true)
         (own_props v).

(** An operation that brings no other [necessary] into the record: a
    pushed record, or the stored item read by a load, that asserts it. *)
Definition respects_necessary (o : op) (s : state) : Prop :=
  match o with
  | Update consent => asserts_necessary consent
  | Load =>
      forall text v,
        localStorage s !! STORAGE_KEY = Some text ->
        parse text = Some v -> asserts_necessary v
  | _ => True
  end.

Fixpoint respectful (ops : list op) (s : state) : Prop :=
  match ops with
  | [] => True
  | o :: r => respects_necessary o s /\ respectful r (step o s)
  end.

(** A record that starts with the three categories, in the order of the
    compiled-in record; every record a page reaches does. *)
Definition headed (r : list (string * json)) : Prop :=
  exists n a m rest,
    r = (CONSENT_NECESSARY, n) :: (CONSENT_ANALYTICS, a)
        :: (CONSENT_MARKETING, m) :: rest.

(** A stored item that gives [loadConsent] no record: [getItem] throws
    or returns [null] or the empty string, or [JSON.parse] throws, or the
    text parses to a value without properties of its own ([null], a
    boolean, a number, an empty string, array or object). *)
Definition unusable (get_throws : bool) (item : option string) : Prop :=
  get_throws = true \/ item = None \/ item = Some EmptyString
  \/ exists text,
       item = Some text
       /\ (parse text = None
           \/ exists v, parse text = Some v /\ own_props v = []).

(** *** What a choice grants, and what reaches the cookie *)

(** Whether a category is allowed once a choice with the given analytics
    and marketing answers has been merged into the record. *)
Definition granted_by (a m : bool) (s : state) (cat : string) : bool :=
  if String.eqb cat CONSENT_NECESSARY then true
  else if String.eqb cat CONSENT_ANALYTICS then a
  else if String.eqb cat CONSENT_MARKETING then m
  else is_true (get (currentConsent s) cat).


(** An operation of the manager itself, not a write from elsewhere. *)
Definition own_write (o : op) : bool :=
  match o with
  | Stored _ => false
  | _ => true
  end.


End Consent.

(** ** The contact form controller, [assets/js/contact.js] *)

Module Contact.
Import JS.

Record config : Type := {
  minMessageLength : Z;
  debounceDelay : Z;
  maxSubmissionsPerHour : Z;
  suspiciousKeywords : list string;
  honeypotFieldName : string
}.

Definition FORM_CONFIG : config := {|
  minMessageLength := 20;
  debounceDelay := 300;
  maxSubmissionsPerHour := 3;
  suspiciousKeywords :=
    [ "viagra"; "cialis"; "casino"; "poker"; "lottery"; "winner";
      "congratulations"; "urgent"; "act now"; "limited time"; "free money";
      "click here"; "buy now"; "nigerian prince"; "inheritance";
      "lottery winner"; "bitcoin"; "cryptocurrency" ];
  honeypotFieldName := "website_url"
|}.

Definition HISTORY_KEY : string := "acta_submission_history".

(** [FORM_CONFIG.emailRegex.test]: the pattern [^[^\s@]+@[^\s@]+\.[^\s@]+$]
    holds of a text without white space that has exactly one [@], something
    before it, and after it a dot that is neither first nor last. *)
Fixpoint count_char (p : ascii -> bool) (s : string) : Z :=
  match s with
  | EmptyString => 0
  | String c r => (if p c then 1 else 0) + count_char p r
  end.

Fixpoint after_at (s : string) : string :=
  match s with
  | EmptyString => EmptyString
  | String c r => if Ascii.eqb c "@" then r else after_at r
  end.

Fixpoint inner_dot (s : string) : bool :=
  match s with
  | String _ ((String c (String _ _)) as r) => Ascii.eqb c "." || inner_dot r
  | _ => false
  end.

Definition emailRegex_test (s : string) : bool :=
  (count_char is_space s =? 0) && (count_char (Ascii.eqb "@") s =? 1)
  && negb (String.prefix "@" s) && inner_dot (after_at s).

(** The record handed to the [insert] call, without its two constants
    ([user_agent], the browser's, and [ip], always [null]).
    [submission_timestamp] keeps the clock reading that [toISOString]
    formats. *)
Record formData : Type := {
  full_name : string;
  organisation : option string;
  email_address : string;
  phone_number : option string;
  message_text : string;
  consent_given : bool;
  honeypot_filled : bool;
  form_time_spent : option Z;
  submission_timestamp : Z;
  spam_score : Z
}.

(** What the awaited [insert] does: it resolves without an error, resolves
    with an [error] object, or rejects with an exception. *)
Inductive reply : Type :=
  | Inserted
  | Refused (message : string)
  | Rejected (message : string).

(** A call of [showSuccess] or of [showError]; [showError()] without an
    argument leaves the text of the error element as it is. *)
Inductive notice : Type :=
  | Success
  | Failure (message : option string).

(** [errorElements] as [init] fills it in: under each of its four keys,
    whether [getElementById] found the element. *)
Record error_elements : Type := {
  error_fullName : bool;
  error_email : bool;
  error_message : bool;
  error_consent : bool
}.

(** The four error elements are in the markup. *)
Definition all_errors : error_elements := {|
  error_fullName := true;
  error_email := true;
  error_message := true;
  error_consent := true
|}.

(** The module state. [startTime] is [contactForm.dataset.startTime];
    [honeypot] is [None] when the decoy field is not in the markup, and
    the six controls whose value the handler reads without a test are in
    it; [notices] and [inserts] list the calls made so far, oldest
    first. *)
Record state : Type := State {
  isSubmitting : bool;
  submissionHistory : list Z;
  localStorage : gmap string string;
  setItem_throws : bool;
  startTime : option string;
  fullName : string;
  organisation_field : string;
  email : string;
  phone : string;
  message : string;
  consent : bool;
  honeypot : option string;
  supabaseClient : bool;
  notices : list notice;
  inserts : list formData;
  errorElements : error_elements
}.

Definition with_history (h : list Z) (s : state) : state :=
  State (isSubmitting s) h (localStorage s) (setItem_throws s) (startTime s)
    (fullName s) (organisation_field s) (email s) (phone s) (message s)
    (consent s) (honeypot s) (supabaseClient s) (notices s) (inserts s)
    (errorElements s).

Definition with_localStorage (l : gmap string string) (s : state) : state :=
  State (isSubmitting s) (submissionHistory s) l (setItem_throws s)
    (startTime s) (fullName s) (organisation_field s) (email s) (phone s)
    (message s) (consent s) (honeypot s) (supabaseClient s) (notices s)
    (inserts s) (errorElements s).

Definition with_startTime (t : option string) (s : state) : state :=
  State (isSubmitting s) (submissionHistory s) (localStorage s)
    (setItem_throws s) t (fullName s) (organisation_field s) (email s)
    (phone s) (message s) (consent s) (honeypot s) (supabaseClient s)
    (notices s) (inserts s) (errorElements s).

Definition with_submitting (b : bool) (s : state) : state :=
  State b (submissionHistory s) (localStorage s) (setItem_throws s)
    (startTime s) (fullName s) (organisation_field s) (email s) (phone s)
    (message s) (consent s) (honeypot s) (supabaseClient s) (notices s)
    (inserts s) (errorElements s).

Definition with_notice (n : notice) (s : state) : state :=
  State (isSubmitting s) (submissionHistory s) (localStorage s)
    (setItem_throws s) (startTime s) (fullName s) (organisation_field s)
    (email s) (phone s) (message s) (consent s) (honeypot s)
    (supabaseClient s) (notices s ++ [n]) (inserts s) (errorElements s).

Definition with_insert (d : formData) (s : state) : state :=
  State (isSubmitting s) (submissionHistory s) (localStorage s)
    (setItem_throws s) (startTime s) (fullName s) (organisation_field s)
    (email s) (phone s) (message s) (consent s) (honeypot s)
    (supabaseClient s) (notices s) (inserts s ++ [d]) (errorElements s).

(** The fields after [contactForm.reset()] and the loop that clears what
    is left. *)
Definition with_cleared_fields (s : state) : state :=
  State (isSubmitting s) (submissionHistory s) (localStorage s)
    (setItem_throws s) (startTime s) "" "" "" "" "" false
    ((fun _ => EmptyString) <$> honeypot s) (supabaseClient s) (notices s)
    (inserts s) (errorElements s).

Definition showSuccess (s : state) : state := with_notice Success s.
Definition showError (m : option string) (s : state) : state :=
  with_notice (Failure m) s.

(** [JSON.stringify(submissionHistory)] *)
Definition history_text (h : list Z) : string := stringify (JArr (map JNum h)).

(** [checkRateLimit]; [None] is the exception of a throwing [setItem],
    which nothing catches. *)
Definition checkRateLimit (now : Z) (s : state) : option bool * state :=
  let oneHourAgo := now - 60 * 60 * 1000 in
  let pruned :=
    filter (fun timestamp => oneHourAgo < timestamp) (submissionHistory s) in
  let s1 := with_history pruned s in
  if maxSubmissionsPerHour FORM_CONFIG <=? Z.of_nat (length pruned) then
    (Some false, s1)
  else
    let s2 := with_history (pruned ++ [now]) s in
    if setItem_throws s then (None, s2)
    else
      (Some true,
       with_localStorage
         (<[HISTORY_KEY := history_text (pruned ++ [now])]> (localStorage s2))
         s2).

(** The text both [containsSuspiciousContent] and [calculateSpamScore]
    search. *)
Definition allText (s : state) : string :=
  toLowerCase (message s) +:+ " " +:+ toLowerCase (fullName s) +:+ " "
  +:+ toLowerCase (email s).

(** [containsSuspiciousContent] *)
Definition containsSuspiciousContent (s : state) : bool :=
  existsb (fun keyword => includes (allText s) (toLowerCase keyword))
          (suspiciousKeywords FORM_CONFIG).

(** [checkFormTiming]; a comparison with [NaN] is false. *)
Definition minTime : Z := 2000.

Definition checkFormTiming (now : Z) (s : state) : bool * state :=
  match startTime s with
  | None | Some EmptyString =>
      (false, with_startTime (Some (Number_toString now)) s)
  | Some formStartTime =>
      match parseInt formStartTime with
      | Some start => (minTime <? now - start, s)
      | None => (false, s)
      end
  end.

(** [passAntiSpamChecks]; the two clock readings are those of
    [checkRateLimit] and of [checkFormTiming]. *)
Definition passAntiSpamChecks (t_rate t_timing : Z) (s : state)
  : option bool * state :=
  if match honeypot s with
     | Some v => negb (String.eqb (trim v) "")
     | None => false
     end
  then
    (Some false,
     showError (Some "Submission blocked due to suspicious activity.") s)
  else
    match checkRateLimit t_rate s with
    | (None, s1) => (None, s1)
    | (Some false, s1) =>
        (Some false,
         showError
           (Some "Too many submissions. Please wait before submitting again.")
           s1)
    | (Some true, s1) =>
        if containsSuspiciousContent s1 then
          (Some false,
           showError
             (Some "Your message contains content that appears to be spam.")
             s1)
        else
          match checkFormTiming t_timing s1 with
          | (false, s2) =>
              (Some false,
               showError
                 (Some "Please take your time to fill out the form properly.")
                 s2)
          | (true, s2) => (Some true, s2)
          end
    end.

(** [count / length > num / den] as JavaScript evaluates it: [0 / 0] is
    [NaN], and no comparison with [NaN] holds. Between integers below
    2^50 the rounded quotient compares with the rounded constant as the
    exact fractions do. *)
Definition ratio_exceeds (count len num den : Z) : bool :=
  if len =? 0 then false else num * len <? den * count.

Definition special_chars : list ascii :=
  dquote :: list_ascii_of_string "!@#$%^&*()_+=[]{}|;':,./<>?".

Definition is_special (c : ascii) : bool := existsb (Ascii.eqb c) special_chars.

(** [/(.)\1{4,}/.test]: some character other than a line terminator
    followed by four more of itself. *)
Definition is_line_terminator (c : ascii) : bool :=
  (code c =? 10) || (code c =? 13).

Fixpoint has_run (s : string) : bool :=
  match s with
  | EmptyString => false
  | String c r =>
      (negb (is_line_terminator c)
       && String.prefix (String c (String c (String c (String c "")))) r)
      || has_run r
  end.

(** [Date.now() - parseInt(contactForm.dataset.startTime || Date.now())],
    with the two readings of the clock in the order they are taken. *)
Definition timeSpent (t1 t2 : Z) (s : state) : option Z :=
  match startTime s with
  | None | Some EmptyString => Some (t1 - t2)
  | Some t => (fun start => t1 - start) <$> parseInt t
  end.

(** The points [calculateSpamScore] adds up before it caps them. *)
Definition keyword_points (keywords : list string) (text : string) : Z :=
  fold_left
    (fun score keyword =>
       if includes text (toLowerCase keyword) then score + 20 else score)
    keywords 0.

Definition heuristic_points (t1 t2 : Z) (s : state) : Z :=
  let message := toLowerCase (message s) in
  let score := 0 in
  let score :=
    if ratio_exceeds (count_char is_upper message) (strlen message) 3 10
    then score + 15 else score in
  let score :=
    if ratio_exceeds (count_char is_digit message) (strlen message) 2 10
    then score + 10 else score in
  let score :=
    if ratio_exceeds (count_char is_special message) (strlen message) 1 10
    then score + 10 else score in
  let score := if strlen message <? 30 then score + 10 else score in
  let score := if 1000 <? strlen message then score + 15 else score in
  let score := if has_run message then score + 20 else score in
  let score :=
    match timeSpent t1 t2 s with
    | Some t => if t <? 3000 then score + 25 else score
    | None => score
    end in
  let score :=
    match timeSpent t1 t2 s with
    | Some t => if 300000 <? t then score + 10 else score
    | None => score
    end in
  score.

Definition raw_score (keywords : list string) (t1 t2 : Z) (s : state) : Z :=
  keyword_points keywords (allText s) + heuristic_points t1 t2 s.

(** [calculateSpamScore] *)
Definition calculateSpamScore (t1 t2 : Z) (s : state) : Z :=
  Z.min (raw_score (suspiciousKeywords FORM_CONFIG) t1 t2 s) 100.

(** The validators; the inline error texts they write are left out. *)
Definition validateRequired (value : string) : bool :=
  0 <? strlen (trim value).

Definition validateEmail (value : string) : bool :=
  (0 <? strlen (trim value)) && emailRegex_test (trim value).

Definition validateMessage (value : string) : bool :=
  minMessageLength FORM_CONFIG <=? strlen (trim value).

Definition validateConsent (checked : bool) : bool := checked.

(** [validateAllFields] as [handleSubmit] calls it: an entry of
    [requiredFields] is checked when its field and its error element are
    both in the markup. The four fields are, their values being in the
    state, so that the error element decides; an entry here is the error
    element and the validator applied to its field. The function on the
    elements themselves, any of which may be missing, is
    [FormFields.validateAllFields]. *)
Definition required_field : Type :=
  ((error_elements -> bool) * (state -> bool))%type.

Definition requiredFields : list required_field :=
  [ (error_fullName, fun s => validateRequired (fullName s));
    (error_email, fun s => validateEmail (email s));
    (error_message, fun s => validateMessage (message s));
    (error_consent, fun s => validateConsent (consent s)) ].

Definition validateAllFields (s : state) : bool :=
  fold_left
    (fun (isValid : bool) (entry : required_field) =>
       if fst entry (errorElements s) then
         if negb (snd entry s) then false else isValid
       else isValid)
    requiredFields true.

(** [resetFormSafely] *)
Definition resetFormSafely (now : Z) (s : state) : state :=
  with_startTime (Some (Number_toString now)) (with_cleared_fields s).

(** The readings of the clock and the reply of the data store during one
    run of [handleSubmit]. *)
Record turn : Type := {
  t_rate : Z;
  t_timing : Z;
  t_spent1 : Z;
  t_spent2 : Z;
  t_stamp : Z;
  t_score1 : Z;
  t_score2 : Z;
  t_reset : Z;
  answer : reply
}.

Definition or_null (v : string) : option string :=
  if String.eqb (trim v) "" then None else Some (trim v).

Definition snapshot (e : turn) (s : state) : formData := {|
  full_name := trim (fullName s);
  organisation := or_null (organisation_field s);
  email_address := trim (email s);
  phone_number := or_null (phone s);
  message_text := trim (message s);
  consent_given := consent s;
  honeypot_filled :=
    match honeypot s with
    | Some v => negb (String.eqb (trim v) "")
    | None => false
    end;
  form_time_spent := timeSpent (t_spent1 e) (t_spent2 e) s;
  submission_timestamp := t_stamp e;
  spam_score := calculateSpamScore (t_score1 e) (t_score2 e) s
|}.

(** The test of the inner [catch] around the [insert] call. *)
Definition shown_as_success (m : string) : bool :=
  includes m "Database error" || includes m "Failed to fetch"
  || includes m "NetworkError" || includes m "TypeError".

(** The outer [catch]. *)
Definition report (now : Z) (m : string) (s : state) : state :=
  if includes m "Database error" then resetFormSafely now (showSuccess s)
  else if includes m "Request timeout" then
    showError
      (Some "Request timed out. Please check your connection and try again.") s
  else if includes m "Failed to fetch" || includes m "NetworkError" then
    showError
      (Some "Network error. Please check your connection and try again.") s
  else if includes m "CORS" then
    showError
      (Some "Connection error. Please try again or contact us directly.") s
  else if includes m "TypeError" || includes m "ReferenceError" then
    showError
      (Some ("Browser compatibility issue. Please try refreshing the page "
             +:+ "or using a different browser.")) s
  else showError None s.

(** The inner [try] and [catch]: the awaited call and what follows it. *)
Definition submit (e : turn) (s : state) : state :=
  let s1 := with_insert (snapshot e s) s in
  match answer e with
  | Inserted => resetFormSafely (t_reset e) (showSuccess s1)
  | Refused m =>
      let thrown := "Database error: " +:+ m in
      if shown_as_success thrown
      then resetFormSafely (t_reset e) (showSuccess s1)
      else report (t_reset e) thrown s1
  | Rejected m =>
      if shown_as_success m
      then resetFormSafely (t_reset e) (showSuccess s1)
      else report (t_reset e) m s1
  end.

(** [handleSubmit]. An exception out of [passAntiSpamChecks] ends the
    handler where it is. *)
Definition handleSubmit (e : turn) (s : state) : state :=
  if isSubmitting s then s
  else
    match passAntiSpamChecks (t_rate e) (t_timing e) s with
    | (None, s1) => s1
    | (Some false, s1) => s1
    | (Some true, s1) =>
        if negb (validateAllFields s1) then s1
        else
          let s2 := with_submitting true s1 in
          let s3 :=
            if supabaseClient s2 then submit e s2
            else resetFormSafely (t_reset e) (showSuccess s2) in
          with_submitting false s3
    end.

(** The history the script starts with,
    [JSON.parse(localStorage.getItem(...) || '[]')], when the item holds a
    list of integer timestamps. *)
Definition timestamps (v : json) : option (list Z) :=
  match v with
  | JArr elems =>
      mapM (fun x => match x with JNum z => Some z | _ => None end) elems
  | _ => None
  end.

Definition stored_history (storage : gmap string string) : option (list Z) :=
  let text :=
    match storage !! HISTORY_KEY with
    | Some v => if String.eqb v "" then "[]" else v
    | None => "[]"
    end in
  parse text ≫= timestamps.

(** [init]: the form is rendered and the clock is read. *)
Definition init (now : Z) (s : state) : state :=
  with_startTime (Some (Number_toString now)) s.

(** The message with every occurrence of a lower-case token taken out,
    whatever the case it is written in. *)
Fixpoint without_token (fuel : nat) (token : string) (s : string) : string :=
  match fuel with
  | O => s
  | S n =>
      match s with
      | EmptyString => EmptyString
      | String c r =>
          if String.prefix token (toLowerCase s)
          then without_token n token (drop (String.length token) s)
          else String c (without_token n token r)
      end
  end.

Definition with_message (m : string) (s : state) : state :=
  State (isSubmitting s) (submissionHistory s) (localStorage s)
    (setItem_throws s) (startTime s) (fullName s) (organisation_field s)
    (email s) (phone s) m (consent s) (honeypot s) (supabaseClient s)
    (notices s) (inserts s) (errorElements s).

(** What happens to a rendered form: the user fills in the fields, or
    submits. *)
Record entries : Type := {
  typed_fullName : string;
  typed_organisation : string;
  typed_email : string;
  typed_phone : string;
  typed_message : string;
  ticked_consent : bool;
  typed_honeypot : string
}.

Definition with_entries (f : entries) (s : state) : state :=
  State (isSubmitting s) (submissionHistory s) (localStorage s)
    (setItem_throws s) (startTime s) (typed_fullName f)
    (typed_organisation f) (typed_email f) (typed_phone f) (typed_message f)
    (ticked_consent f) ((fun _ => typed_honeypot f) <$> honeypot s)
    (supabaseClient s) (notices s) (inserts s) (errorElements s).

Inductive event : Type :=
  | Fill (f : entries)
  | Submit (e : turn).

Definition react (v : event) (s : state) : state :=
  match v with
  | Fill f => with_entries f s
  | Submit e => handleSubmit e s
  end.

Definition play (vs : list event) (s : state) : state :=
  fold_left (fun acc v => react v acc) vs s.

(** The clock does not run backwards: a reading taken after the form was
    rendered at [t0] is not before [t0]. *)
Definition not_before (t0 : Z) (v : event) : Prop :=
  match v with
  | Fill _ => True
  | Submit e => t0 <= t_timing e /\ t0 <= t_reset e
  end.

(** The honeypot is absent or blank. *)
Definition honeypot_blank (s : state) : bool :=
  match honeypot s with
  | Some v => String.eqb (trim v) ""
  | None => true
  end.

(** The texts of the four anti-spam rejections. *)
Definition MSG_HONEYPOT : string :=
  "Submission blocked due to suspicious activity.".
Definition MSG_RATE : string :=
  "Too many submissions. Please wait before submitting again.".
Definition MSG_CONTENT : string :=
  "Your message contains content that appears to be spam.".
Definition MSG_TIMING : string :=
  "Please take your time to fill out the form properly.".

(** The texts of the classified failures of the outbound write. *)
Definition MSG_TIMEOUT : string :=
  "Request timed out. Please check your connection and try again.".
Definition MSG_NETWORK : string :=
  "Network error. Please check your connection and try again.".
Definition MSG_CORS : string :=
  "Connection error. Please try again or contact us directly.".
Definition MSG_BROWSER : string :=
  "Browser compatibility issue. Please try refreshing the page "
  +:+ "or using a different browser.".

(** The notice a failed write ends with, as the two [catch] blocks
    together decide it: the inner one turns the four development
    substrings into a success before the outer one classifies what is
    left. *)
Definition failure_notice (m : string) : notice :=
  if includes m "Database error" || includes m "Failed to fetch"
     || includes m "NetworkError" || includes m "TypeError"
  then Success
  else if includes m "Request timeout" then Failure (Some MSG_TIMEOUT)
  else if includes m "CORS" then Failure (Some MSG_CORS)
  else if includes m "ReferenceError" then Failure (Some MSG_BROWSER)
  else Failure None.

Definition reply_notice (r : reply) : notice :=
  match r with
  | Inserted => Success
  | Refused m => Success
  | Rejected m => failure_notice m
  end.

(** The keywords other than a given one. *)
Definition keywords_without (k : string) : list string :=
  filter (fun x => x <> k) (suspiciousKeywords FORM_CONFIG).

Definition ONE_HOUR : Z := 60 * 60 * 1000.

(** The form has been rendered: its start time holds a reading of the
    clock taken at [t0] or later. *)
Definition started (t0 : Z) (s : state) : Prop :=
  exists t, startTime s = Some (Number_toString t) /\ t0 <= t.

(** What the rate limiter keeps: the history in memory, the storage and
    whether writing to it fails. *)
Definition ledger (s : state) : list Z * gmap string string * bool :=
  (submissionHistory s, localStorage s, setItem_throws s).

(** [submissionHistory.filter(timestamp => timestamp > oneHourAgo)] *)
Definition prune (now : Z) (h : list Z) : list Z :=
  filter (fun timestamp => now - 60 * 60 * 1000 < timestamp) h.

(** *** Sessions, the client and the records sent *)

(** A reading of the rate limiter's clock that lies in the hour after
    [a]. *)
Definition in_hour_after (a : Z) (v : event) : Prop :=
  match v with
  | Fill _ => True
  | Submit e => a < t_rate e /\ t_rate e <= a + ONE_HOUR
  end.

(** The rate limiter's clock has not passed [now]. *)
Definition by_then (now : Z) (v : event) : Prop :=
  match v with
  | Fill _ => True
  | Submit e => t_rate e <= now
  end.

(** What [initSupabase] finds: the configuration element, absent or with
    what [getAttribute] returns for [data-supabase-url] and
    [data-supabase-key]; whether the [supabase] global of the library is
    defined; whether [createClient] throws. *)
Record environment : Type := {
  supabaseScript : option (option string * option string);
  library_loaded : bool;
  createClient_throws : bool
}.

Definition with_client (c : bool) (s : state) : state :=
  State (isSubmitting s) (submissionHistory s) (localStorage s)
    (setItem_throws s) (startTime s) (fullName s) (organisation_field s)
    (email s) (phone s) (message s) (consent s) (honeypot s) c (notices s)
    (inserts s) (errorElements s).

(** [!value] of an attribute value: [null] and the empty string. *)
Definition falsy (v : option string) : bool :=
  match v with
  | None => true
  | Some x => String.eqb x ""
  end.

Definition is_text (v : option string) (t : string) : bool :=
  match v with
  | Some x => String.eqb x t
  | None => false
  end.

Definition incomplete (supabaseUrl supabaseKey : option string) : bool :=
  falsy supabaseUrl || falsy supabaseKey
  || is_text supabaseUrl "YOUR_SUPABASE_URL"
  || is_text supabaseKey "YOUR_SUPABASE_ANON_KEY".

(** [initClient] and [initSupabase]. The second component tells whether
    [initClient] has asked to be run again 500 ms later.
    [testSupabaseConnection] awaits one [select] and logs the outcome;
    nothing else depends on it. *)
Definition initClient (env : environment) (s : state) : state * bool :=
  if library_loaded env then
    ((if createClient_throws env then s else with_client true s), false)
  else (s, true).

Definition initSupabase (env : environment) (s : state) : state * bool :=
  match supabaseScript env with
  | None => (s, false)
  | Some (supabaseUrl, supabaseKey) =>
      if incomplete supabaseUrl supabaseKey then (s, false)
      else initClient env s
  end.

(** What every record handed to the data store satisfies, on a page with
    the given error elements: it has passed the check of each field whose
    error element is there, and the gates. *)
Definition well_formed (errors : error_elements) (d : formData) : Prop :=
  (error_fullName errors = true -> 0 < strlen (full_name d))
  /\ (error_email errors = true -> emailRegex_test (email_address d) = true)
  /\ (error_message errors = true ->
      minMessageLength FORM_CONFIG <= strlen (message_text d))
  /\ (error_consent errors = true -> consent_given d = true)
  /\ honeypot_filled d = false
  /\ 0 <= spam_score d <= 80
  /\ Forall
       (fun keyword =>
          includes (toLowerCase (message_text d)) (toLowerCase keyword)
          = false
          /\ includes (toLowerCase (full_name d)) (toLowerCase keyword)
             = false
          /\ includes (toLowerCase (email_address d)) (toLowerCase keyword)
             = false)
       (suspiciousKeywords FORM_CONFIG).

(** The pattern of [FORM_CONFIG.emailRegex] read as a regular expression:
    [[^\s@]] is a character that is neither white space (the ASCII part
    of the class, as for [trim]) nor [@], and the whole text is one or
    more of them, an [@], one or more of them, a dot, and one or more of
    them. *)
Definition local_char (c : ascii) : bool :=
  negb (is_space c) && negb (Ascii.eqb "@" c).

Definition local_part (s : string) : Prop :=
  s <> EmptyString /\ forallb local_char (list_ascii_of_string s) = true.

Definition matches_emailRegex (s : string) : Prop :=
  exists l d t,
    s = l +:+ "@" +:+ d +:+ "." +:+ t
    /\ local_part l /\ local_part d /\ local_part t.

(** Some required field has its error element, so that it is checked. *)
Definition checks_a_field (s : state) : bool :=
  existsb (fun entry : required_field => fst entry (errorElements s))
          requiredFields.

(** A notice of the honeypot or of the rate limiter. *)
Definition early_rejection (n : notice) : Prop :=
  n = Failure (Some MSG_HONEYPOT) \/ n = Failure (Some MSG_RATE).

End Contact.

(** ** The fields of the contact form and their inline errors,
    [assets/js/contact.js] *)

Module FormFields.
Import JS.

(** An element of the form, with what the validators read and write:
    [name], [id], [value] and [checked] of a control, [textContent] and
    the [hidden] class of an error element, and the two ARIA attributes. *)
Record element : Type := Element {
  name : string;
  id : string;
  value : string;
  checked : bool;
  textContent : string;
  hidden : bool;
  aria_invalid : option string;
  aria_describedby : option string
}.

(** The keys of [formFields] and of [errorElements]. *)
Inductive field_key : Type :=
  | fullName | organisation | email | phone | message | consent | honeypot.

Inductive error_key : Type :=
  | fullName_error | email_error | message_error | consent_error.

(** [formFields] and [errorElements] as [init] fills them in: the value
    under a key is the element found, or [null]. *)
Record elements : Type := Elements {
  f_fullName : option element;
  f_organisation : option element;
  f_email : option element;
  f_phone : option element;
  f_message : option element;
  f_consent : option element;
  f_honeypot : option element;
  e_fullName : option element;
  e_email : option element;
  e_message : option element;
  e_consent : option element
}.

Definition formFields (d : elements) (k : field_key) : option element :=
  match k with
  | fullName => f_fullName d
  | organisation => f_organisation d
  | email => f_email d
  | phone => f_phone d
  | message => f_message d
  | consent => f_consent d
  | honeypot => f_honeypot d
  end.

Definition errorElements (d : elements) (k : error_key) : option element :=
  match k with
  | fullName_error => e_fullName d
  | email_error => e_email d
  | message_error => e_message d
  | consent_error => e_consent d
  end.

Definition with_field (k : field_key) (f : option element) (d : elements)
  : elements :=
  Elements
    (match k with fullName => f | _ => f_fullName d end)
    (match k with organisation => f | _ => f_organisation d end)
    (match k with email => f | _ => f_email d end)
    (match k with phone => f | _ => f_phone d end)
    (match k with message => f | _ => f_message d end)
    (match k with consent => f | _ => f_consent d end)
    (match k with honeypot => f | _ => f_honeypot d end)
    (e_fullName d) (e_email d) (e_message d) (e_consent d).

Definition with_error (k : error_key) (e : option element) (d : elements)
  : elements :=
  Elements
    (f_fullName d) (f_organisation d) (f_email d) (f_phone d) (f_message d)
    (f_consent d) (f_honeypot d)
    (match k with fullName_error => e | _ => e_fullName d end)
    (match k with email_error => e | _ => e_email d end)
    (match k with message_error => e | _ => e_message d end)
    (match k with consent_error => e | _ => e_consent d end).

(** [errorElements[fieldName]]: under one of the four keys of the object,
    the element [init] has put there or [null]; under any other name,
    what [Object.prototype] has, a function or, for [__proto__], the
    prototype itself, and [undefined] when it has nothing. *)
Definition own_key (fieldName : string) : option error_key :=
  if String.eqb fieldName "fullName" then Some fullName_error
  else if String.eqb fieldName "email" then Some email_error
  else if String.eqb fieldName "message" then Some message_error
  else if String.eqb fieldName "consent" then Some consent_error
  else None.

Definition Object_prototype : list string :=
  [ "constructor"; "__defineGetter__"; "__defineSetter__"; "hasOwnProperty";
    "__lookupGetter__"; "__lookupSetter__"; "isPrototypeOf";
    "propertyIsEnumerable"; "toString"; "valueOf"; "__proto__";
    "toLocaleString" ].

Definition inherited (fieldName : string) : bool :=
  existsb (String.eqb fieldName) Object_prototype.

(** [field.name || field.id] *)
Definition fieldName (field : element) : string :=
  if String.eqb (name field) "" then id field else name field.

Definition with_text (errorMessage : string) (e : element) : element :=
  Element (name e) (id e) (value e) (checked e) errorMessage
    (String.eqb errorMessage "") (aria_invalid e) (aria_describedby e).

Definition with_aria (invalid describedby : option string) (f : element)
  : element :=
  Element (name f) (id f) (value f) (checked f) (textContent f) (hidden f)
    invalid describedby.

(** [setFieldError(field, errorMessage)], the field given by its key in
    [formFields]. [None] is a [TypeError]: the field is [null], or what
    was found under its name has no [classList]. *)
Definition setFieldError (k : field_key) (errorMessage : string)
    (d : elements) : option elements :=
  field ← formFields d k;
  match own_key (fieldName field) with
  | Some ek =>
      match errorElements d ek with
      | Some errorElement =>
          if negb (String.eqb errorMessage "") then
            Some (with_field k
                    (Some (with_aria (Some "true") (Some (id errorElement))
                                     field))
                    (with_error ek
                       (Some (with_text errorMessage errorElement)) d))
          else
            Some (with_field k (Some (with_aria None None field))
                    (with_error ek (Some (with_text "" errorElement)) d))
      | None => Some d
      end
  | None => if inherited (fieldName field) then None else Some d
  end.

(** The four validators: each returns its verdict and writes or clears
    the inline error. *)
Definition validateRequired (k : field_key) (d : elements)
  : option (bool * elements) :=
  field ← formFields d k;
  let isValid := Contact.validateRequired (value field) in
  d' ← setFieldError k (if isValid then "" else "This field is required") d;
  Some (isValid, d').

Definition validateEmail (k : field_key) (d : elements)
  : option (bool * elements) :=
  field ← formFields d k;
  let isValid := Contact.validateEmail (value field) in
  let errorMessage :=
    if strlen (trim (value field)) =? 0 then "Email is required"
    else if negb (Contact.emailRegex_test (trim (value field)))
    then "Please enter a valid email address"
    else "" in
  d' ← setFieldError k errorMessage d;
  Some (isValid, d').

Definition validateMessage (k : field_key) (d : elements)
  : option (bool * elements) :=
  field ← formFields d k;
  let isValid := Contact.validateMessage (value field) in
  let errorMessage :=
    if strlen (trim (value field)) =? 0 then "Message is required"
    else if strlen (trim (value field))
            <? Contact.minMessageLength Contact.FORM_CONFIG
    then "Message must be at least "
         +:+ Number_toString (Contact.minMessageLength Contact.FORM_CONFIG)
         +:+ " characters long"
    else "" in
  d' ← setFieldError k errorMessage d;
  Some (isValid, d').

Definition validateConsent (k : field_key) (d : elements)
  : option (bool * elements) :=
  field ← formFields d k;
  let isValid := Contact.validateConsent (checked field) in
  d' ← setFieldError k
         (if isValid then ""
          else "You must agree to the processing of your personal data") d;
  Some (isValid, d').

(** [validateAllFields], also exported as [ACTAContact.validateForm]: the
    entries of [requiredFields] are built before the loop runs. *)
Definition requiredFields
  : list (field_key * error_key
          * (field_key -> elements -> option (bool * elements))) :=
  [ (fullName, fullName_error, validateRequired);
    (email, email_error, validateEmail);
    (message, message_error, validateMessage);
    (consent, consent_error, validateConsent) ].

Definition validateAllFields (d : elements) : option (bool * elements) :=
  fold_left
    (fun acc entry =>
       '(isValid, form1) ← acc;
       let '(k, ek, validator) := entry in
       match formFields d k, errorElements d ek with
       | Some _, Some _ =>
           '(fieldValid, form2) ← validator k form1;
           Some (if negb fieldValid then false else isValid, form2)
       | _, _ => Some (isValid, form1)
       end)
    requiredFields (Some (true, d)).

(** [validateField(field)] *)
Definition validateField (k : field_key) (d : elements)
  : option (bool * elements) :=
  match formFields d k with
  | None => Some (true, d)
  | Some _ =>
      match k with
      | fullName => validateRequired k d
      | email => validateEmail k d
      | message => validateMessage k d
      | consent => validateConsent k d
      | _ => Some (true, d)
      end
  end.

(** The values [handleSubmit] reads from the form are those of the
    state of the controller. *)
Definition shows (d : elements) (s : Contact.state) : Prop :=
  value <$> f_fullName d = Some (Contact.fullName s)
  /\ value <$> f_email d = Some (Contact.email s)
  /\ value <$> f_message d = Some (Contact.message s)
  /\ checked <$> f_consent d = Some (Contact.consent s).

(** The error elements [init] has found are those of the state of the
    controller. *)
Definition found (e : option element) : bool :=
  match e with
  | Some _ => true
  | None => false
  end.

Definition finds (d : elements) (s : Contact.state) : Prop :=
  Contact.errorElements s
  = {| Contact.error_fullName := found (e_fullName d);
       Contact.error_email := found (e_email d);
       Contact.error_message := found (e_message d);
       Contact.error_consent := found (e_consent d) |}.

(** The four error elements are in the markup. *)
Definition errors_present (d : elements) : Prop :=
  forall ek, is_Some (errorElements d ek).

(** No required field is named after a property of [Object.prototype]. *)
Definition plainly_named (d : elements) : Prop :=
  forall k f, formFields d k = Some f -> inherited (fieldName f) = false.

(** Each required field is named after its key. *)
Definition named_by_key (d : elements) : Prop :=
  (forall f, f_fullName d = Some f -> fieldName f = "fullName")
  /\ (forall f, f_email d = Some f -> fieldName f = "email")
  /\ (forall f, f_message d = Some f -> fieldName f = "message")
  /\ (forall f, f_consent d = Some f -> fieldName f = "consent").


(** A control as the validators read it. *)
Definition control (f : element) : string * string * string * bool :=
  (name f, id f, value f, checked f).

(** Two states of the form with the same controls and the same error
    elements in the markup. *)
Definition same_controls (d d' : elements) : Prop :=
  (forall k, control <$> formFields d' k = control <$> formFields d k)
  /\ (forall ek, id <$> errorElements d' ek = id <$> errorElements d ek).

(** A field and its error element after a validation with the given
    verdict. *)
Definition marked (valid : bool) (field error : option element) : Prop :=
  exists f e,
    field = Some f /\ error = Some e
    /\ aria_invalid f = (if valid then None else Some "true")
    /\ aria_describedby f = (if valid then None else Some (id e))
    /\ hidden e = valid
    /\ (textContent e = EmptyString <-> valid = true).

(** What a validator of [requiredFields] decides for a control. *)
Definition verdict (k : field_key) (f : element) : bool :=
  match k with
  | fullName => Contact.validateRequired (value f)
  | email => Contact.validateEmail (value f)
  | message => Contact.validateMessage (value f)
  | consent => Contact.validateConsent (checked f)
  | _ => true
  end.

(** What [validateAllFields] counts for an entry of [requiredFields]: a
    field or an error element that is not in the markup is not checked. *)
Definition counted (k : field_key) (ek : error_key) (d : elements) : bool :=
  match formFields d k, errorElements d ek with
  | Some f, Some _ => verdict k f
  | _, _ => true
  end.

(** *** The panels under the form *)

(** The two panels under the form: [successElement], [errorElement], and
    the first [span] inside the error panel, which holds its text. *)
Record panels : Type := Panels {
  successElement : option element;
  errorElement : option element;
  errorText : option element
}.

Definition with_hidden (h : bool) (e : element) : element :=
  Element (name e) (id e) (value e) (checked e) (textContent e) h
    (aria_invalid e) (aria_describedby e).

Definition with_textContent (t : string) (e : element) : element :=
  Element (name e) (id e) (value e) (checked e) t (hidden e)
    (aria_invalid e) (aria_describedby e).

(** [showSuccess] *)
Definition showSuccess (p : panels) : panels :=
  Panels (with_hidden false <$> successElement p)
         (with_hidden true <$> errorElement p)
         (errorText p).

(** [showError(customMessage)]: the text is written only when there is a
    message, and the [span] is looked for only when the panel is there. *)
Definition showError (customMessage : option string) (p : panels) : panels :=
  Panels (with_hidden true <$> successElement p)
         (with_hidden false <$> errorElement p)
         (match errorElement p, customMessage with
          | Some _, Some m =>
              if String.eqb m "" then errorText p
              else with_textContent m <$> errorText p
          | _, _ => errorText p
          end).

(** The panels after the calls a session has made, oldest first. *)
Definition display (n : Contact.notice) (p : panels) : panels :=
  match n with
  | Contact.Success => showSuccess p
  | Contact.Failure m => showError m p
  end.

Definition displayed (ns : list Contact.notice) (p : panels) : panels :=
  fold_left (fun acc n => display n acc) ns p.

End FormFields.

(** * Properties *)

(** ** The built-ins *)

Module JSFacts.
Import JS.

Lemma prefix_app (k a b : string) :
  String.prefix k a = true -> String.prefix k (a +:+ b) = true.
Proof.
  revert a; induction k as [|c k IH]; intros a H;
    [destruct (a +:+ b); reflexivity|].
  destruct a as [|c' a]; simpl in *; [discriminate|].
  destruct (ascii_dec c c'); [auto | discriminate].
Qed.

Lemma includes_app_l (a b k : string) :
  includes a k = true -> includes (a +:+ b) k = true.
Proof.
  induction a as [|c a IH]; simpl; intros H.
  - rewrite orb_false_r in H. destruct k; [|discriminate].
    destruct b; reflexivity.
  - apply orb_true_iff in H as [H|H].
    + apply (prefix_app k (String c a) b) in H. simpl in H.
      rewrite H. reflexivity.
    + rewrite (IH H). apply orb_true_r.
Qed.

Lemma get_set_eq props k v : get (set props k v) k = Some v.
Proof.
  induction props as [|[k' v'] r IH]; simpl.
  - rewrite String.eqb_refl. reflexivity.
  - destruct (String.eqb k' k) eqn:E; simpl; rewrite E; auto.
Qed.

Lemma get_set_ne props k k' v :
  k <> k' -> get (set props k v) k' = get props k'.
Proof.
  intros Hne. induction props as [|[k0 v0] r IH]; simpl.
  - destruct (String.eqb_spec k k'); [contradiction | reflexivity].
  - destruct (String.eqb_spec k0 k) as [->|]; simpl.
    + destruct (String.eqb_spec k k'); [contradiction | reflexivity].
    + destruct (String.eqb k0 k'); auto.
Qed.

Lemma get_spread_all a b k v :
  get a k = Some v ->
  Forall (fun kv => fst kv = k -> snd kv = v) b ->
  get (spread a b) k = Some v.
Proof.
  revert a; induction b as [|[k0 v0] b IH]; intros a Ha H; [exact Ha|].
  inversion H as [|? ? H1 H2]; subst. unfold spread in *. simpl in *.
  apply IH; [|assumption].
  destruct (String.eqb_spec k0 k) as [->|Hne].
  - rewrite (H1 eq_refl). apply get_set_eq.
  - rewrite get_set_ne by assumption. exact Ha.
Qed.

(** *** Printing and reading a number *)

Lemma read_show_uint d rest :
  match rest with
  | String c _ => is_digit c = false
  | EmptyString => True
  end ->
  read_uint (show_uint d +:+ rest) = (d, rest).
Proof.
  intros Hrest. induction d; simpl; try (rewrite IHd; reflexivity).
  destruct rest as [|c r]; [reflexivity|].
  cbn [show_uint String.append read_uint].
  assert (forall x, is_digit x = true -> Ascii.eqb c x = false) as Hc.
  { intros x Hx. destruct (Ascii.eqb_spec c x); [congruence | reflexivity]. }
  rewrite !Hc by reflexivity. reflexivity.
Qed.

Lemma show_uint_plain d :
  d <> Nil ->
  trimStart (show_uint d) = show_uint d
  /\ parseInt_sign (show_uint d) = (false, show_uint d)
  /\ hex_prefix (show_uint d) = None.
Proof.
  intros Hd. destruct d as [|d|d|d|d|d|d|d|d|d|d]; try congruence;
    try (repeat split; reflexivity).
  destruct d; repeat split; reflexivity.
Qed.

Lemma read_show_uint_all d : read_uint (show_uint d) = (d, EmptyString).
Proof.
  pose proof (read_show_uint d "" I) as Hr.
  replace (show_uint d +:+ "") with (show_uint d) in Hr
    by (clear; induction (show_uint d); simpl; congruence).
  exact Hr.
Qed.

Lemma parseInt_digits d :
  d <> Nil -> parseInt (show_uint d) = Some (Z.of_uint d).
Proof.
  intros Hd. destruct (show_uint_plain d Hd) as (H1 & H2 & H3).
  unfold parseInt. rewrite H1, H2. cbn [fst snd].
  rewrite H3, read_show_uint_all.
  destruct d; [congruence | reflexivity ..].
Qed.

Lemma parseInt_neg_digits d :
  d <> Nil -> parseInt (String "-" (show_uint d)) = Some (- Z.of_uint d).
Proof.
  intros Hd. destruct (show_uint_plain d Hd) as (H1 & H2 & H3).
  unfold parseInt.
  change (parseInt_sign (trimStart (String "-" (show_uint d))))
    with (true, show_uint d).
  cbn [fst snd]. rewrite H3, read_show_uint_all.
  destruct d; [congruence | reflexivity ..].
Qed.

(** [parseInt] reads back what [toString] printed. *)
Lemma parseInt_toString z : parseInt (Number_toString z) = Some z.
Proof.
  unfold Number_toString. destruct z as [|p|p]; simpl.
  - reflexivity.
  - rewrite parseInt_digits by apply Unsigned.to_uint_nonnil.
    unfold Z.of_uint. rewrite Unsigned.of_to. reflexivity.
  - rewrite parseInt_neg_digits by apply Unsigned.to_uint_nonnil.
    unfold Z.of_uint. rewrite Unsigned.of_to. reflexivity.
Qed.

(** *** The parser *)

Lemma skip_ws_length s : (String.length (skip_ws s) <= String.length s)%nat.
Proof.
  induction s as [|c s IH]; simpl; [lia|].
  destruct (is_json_ws c); simpl; lia.
Qed.

Lemma read_uint_length s d r :
  read_uint s = (d, r) ->
  (String.length r <= String.length s)%nat
  /\ (d <> Nil -> (String.length r < String.length s)%nat).
Proof.
  revert d r. induction s as [|c s IH]; intros d r; simpl.
  - intros [= <- <-]. simpl. split; [lia | congruence].
  - destruct (read_uint s) as [d' r'] eqn:E.
    destruct (IH d' r' eq_refl) as [IH1 _].
    repeat match goal with
           | |- context [if ?b then _ else _] => destruct b
           end;
      intros [= <- <-]; simpl; split; try lia; congruence.
Qed.

Lemma starts_with_Some c s r : starts_with c s = Some r -> s = String c r.
Proof.
  destruct s as [|c' s]; [discriminate|]. simpl.
  destruct (Ascii.eqb_spec c' c); [intros [= ->]; congruence | discriminate].
Qed.

Lemma starts_with_length c s r :
  starts_with c s = Some r -> String.length s = S (String.length r).
Proof. intros H. apply starts_with_Some in H. subst. reflexivity. Qed.

Lemma parse_chars_length s t r :
  parse_chars s = Some (t, r) -> (String.length r < String.length s)%nat.
Proof.
  remember (String.length s) as n eqn:Hn.
  revert s t r Hn. induction n as [n IH] using lt_wf_ind.
  intros s t r -> H. destruct s as [|c s]; [discriminate|].
  simpl in H. destruct (Ascii.eqb c dquote).
  { injection H as _ <-. simpl. lia. }
  destruct (Ascii.eqb c bslash).
  - destruct s as [|e r1]; [discriminate|].
    destruct (Ascii.eqb e "u").
    + destruct r1 as [|h1 [|h2 [|h3 [|h4 r2]]]]; try discriminate.
      destruct (hex4 h1 h2 h3 h4); [|discriminate].
      destruct (parse_chars r2) as [[t' r']|] eqn:E; [|discriminate].
      injection H as _ <-.
      pose proof (IH (String.length r2) ltac:(simpl; lia) r2 t' r' eq_refl E).
      simpl. lia.
    + destruct (unescape e); [|discriminate].
      destruct (parse_chars r1) as [[t' r']|] eqn:E; [|discriminate].
      injection H as _ <-.
      pose proof (IH (String.length r1) ltac:(simpl; lia) r1 t' r' eq_refl E).
      simpl. lia.
  - destruct (code c <? 32); [discriminate|].
    destruct (parse_chars s) as [[t' r']|] eqn:E; [|discriminate].
    injection H as _ <-.
    pose proof (IH (String.length s) ltac:(simpl; lia) s t' r' eq_refl E).
    simpl. lia.
Qed.

Lemma read_digits_length s d r :
  read_digits s = Some (d, r) -> (String.length r < String.length s)%nat.
Proof.
  unfold read_digits. destruct (read_uint s) as [d' r'] eqn:E.
  destruct (read_uint_length s d' r' E) as [_ H].
  destruct d'; [discriminate| ..]; intros [= <- <-]; apply H; discriminate.
Qed.

Lemma parse_fraction_length s t r :
  parse_fraction s = Some (t, r) -> (String.length r <= String.length s)%nat.
Proof.
  unfold parse_fraction. destruct (starts_with "." s) as [r0|] eqn:E0.
  - apply starts_with_length in E0.
    destruct (read_digits r0) as [[f rest]|] eqn:E; [|discriminate].
    intros [= <- <-]. apply read_digits_length in E. lia.
  - intros [= <- <-]. lia.
Qed.

Lemma exponent_sign_length s :
  (String.length (snd (exponent_sign s)) <= String.length s)%nat.
Proof.
  unfold exponent_sign.
  destruct (starts_with "+" s) eqn:E1; [apply starts_with_length in E1|];
    [simpl; lia|].
  destruct (starts_with "-" s) eqn:E2; [apply starts_with_length in E2|];
    simpl; lia.
Qed.

Lemma minus_sign_length s :
  (String.length (snd (minus_sign s)) <= String.length s)%nat.
Proof.
  unfold minus_sign.
  destruct (starts_with "-" s) eqn:E1; [apply starts_with_length in E1|];
    simpl; lia.
Qed.

Lemma parse_exponent_length s t r :
  parse_exponent s = Some (t, r) -> (String.length r <= String.length s)%nat.
Proof.
  unfold parse_exponent. destruct s as [|c s]; [intros [= <- <-]; lia|].
  destruct (Ascii.eqb c "e" || Ascii.eqb c "E"); [|intros [= <- <-]; lia].
  pose proof (exponent_sign_length s).
  destruct (read_digits _) as [[x rest]|] eqn:E; [|discriminate].
  intros [= <- <-]. apply read_digits_length in E. simpl. lia.
Qed.

Lemma parse_number_length s v r :
  parse_number s = Some (v, r) -> (String.length r < String.length s)%nat.
Proof.
  unfold parse_number. pose proof (minus_sign_length s).
  destruct (read_digits _) as [[d s2]|] eqn:E; [|discriminate].
  apply read_digits_length in E.
  destruct (padded d); [discriminate|].
  destruct (parse_fraction s2) as [[frac s3]|] eqn:E2; [|discriminate].
  apply parse_fraction_length in E2.
  destruct (parse_exponent s3) as [[ex s4]|] eqn:E3; [|discriminate].
  apply parse_exponent_length in E3.
  intros [= _ <-]. lia.
Qed.

Lemma drop_length n s :
  (n <= String.length s)%nat ->
  String.length (drop n s) = (String.length s - n)%nat.
Proof.
  revert s. induction n as [|n IH]; intros s H; simpl.
  - destruct s; simpl; lia.
  - destruct s as [|c s]; simpl in *; [lia|]. apply IH. lia.
Qed.

Lemma prefix_length a s :
  String.prefix a s = true -> (String.length a <= String.length s)%nat.
Proof.
  revert s. induction a as [|c a IH]; intros s; [simpl; lia|].
  destruct s as [|c' s]; simpl; [discriminate|].
  destruct (ascii_dec c c'); [|discriminate].
  intros H. apply IH in H. lia.
Qed.

Lemma literal_length word v s x r :
  word <> EmptyString ->
  literal word v s = Some (x, r) -> (String.length r < String.length s)%nat.
Proof.
  unfold literal. intros Hw.
  destruct (String.prefix word s) eqn:E; [|discriminate].
  apply prefix_length in E. intros [= _ <-].
  rewrite drop_length by exact E.
  destruct word; [congruence|]. simpl in *. lia.
Qed.

(** Every parser consumes input. *)
Lemma parse_progress f :
  (forall s v r, parse_value f s = Some (v, r) ->
                 (String.length r < String.length s)%nat)
  /\ (forall s v r, parse_elements f s = Some (v, r) ->
                    (String.length r < String.length s)%nat)
  /\ (forall s v r, parse_members f s = Some (v, r) ->
                    (String.length r < String.length s)%nat).
Proof.
  induction f as [|f (IHv & IHe & IHm)];
    [repeat split; intros; discriminate|].
  repeat split; intros s v r.
  - cbn [parse_value]. pose proof (skip_ws_length s) as Hw.
    destruct (skip_ws s) as [|c s1]; [discriminate|]. simpl in Hw.
    pose proof (skip_ws_length s1) as Hw1.
    destruct (Ascii.eqb c "{").
    { destruct (starts_with "}" (skip_ws s1)) as [r'|] eqn:E0.
      - apply starts_with_length in E0. intros [= _ <-]. lia.
      - destruct (parse_members f s1) as [[kvs r']|] eqn:E; [|discriminate].
        apply IHm in E. intros [= _ <-]. lia. }
    destruct (Ascii.eqb c "[").
    { destruct (starts_with "]" (skip_ws s1)) as [r'|] eqn:E0.
      - apply starts_with_length in E0. intros [= _ <-]. lia.
      - destruct (parse_elements f s1) as [[vs r']|] eqn:E; [|discriminate].
        apply IHe in E. intros [= _ <-]. lia. }
    destruct (Ascii.eqb c dquote).
    { destruct (parse_chars s1) as [[t r']|] eqn:E; [|discriminate].
      apply parse_chars_length in E. intros [= _ <-]. lia. }
    destruct (Ascii.eqb c "-" || is_digit c).
    { intros E. apply parse_number_length in E. simpl in E. lia. }
    destruct (Ascii.eqb c "t").
    { intros E. apply literal_length in E; [simpl in E; lia | discriminate]. }
    destruct (Ascii.eqb c "f").
    { intros E. apply literal_length in E; [simpl in E; lia | discriminate]. }
    destruct (Ascii.eqb c "n"); [|discriminate].
    intros E. apply literal_length in E; [simpl in E; lia | discriminate].
  - cbn [parse_elements].
    destruct (parse_value f s) as [[x r1]|] eqn:E; [|discriminate].
    apply IHv in E. pose proof (skip_ws_length r1) as Hw.
    destruct (starts_with "," (skip_ws r1)) as [r2|] eqn:E1.
    { apply starts_with_length in E1.
      destruct (parse_elements f r2) as [[vs r3]|] eqn:E2; [|discriminate].
      apply IHe in E2. intros [= _ <-]. lia. }
    destruct (starts_with "]" (skip_ws r1)) as [r2|] eqn:E2; [|discriminate].
    apply starts_with_length in E2. intros [= _ <-]. lia.
  - cbn [parse_members]. pose proof (skip_ws_length s) as Hw.
    destruct (starts_with dquote (skip_ws s)) as [s1|] eqn:E0; [|discriminate].
    apply starts_with_length in E0.
    destruct (parse_chars s1) as [[k r1]|] eqn:E; [|discriminate].
    apply parse_chars_length in E. pose proof (skip_ws_length r1) as Hw1.
    destruct (starts_with ":" (skip_ws r1)) as [r2|] eqn:E1; [|discriminate].
    apply starts_with_length in E1.
    destruct (parse_value f r2) as [[x r3]|] eqn:E2; [|discriminate].
    apply IHv in E2. pose proof (skip_ws_length r3) as Hw3.
    destruct (starts_with "," (skip_ws r3)) as [r4|] eqn:E3.
    { apply starts_with_length in E3.
      destruct (parse_members f r4) as [[kvs r5]|] eqn:E4; [|discriminate].
      apply IHm in E4. intros [= _ <-]. lia. }
    destruct (starts_with "}" (skip_ws r3)) as [r4|] eqn:E4; [|discriminate].
    apply starts_with_length in E4. intros [= _ <-]. lia.
Qed.

Lemma parse_elements_S n s :
  parse_elements (S n) s
  = match parse_value n s with
    | None => None
    | Some (v, r) =>
        match starts_with "," (skip_ws r) with
        | Some r' =>
            match parse_elements n r' with
            | Some (vs, r'') => Some (v :: vs, r'')
            | None => None
            end
        | None =>
            match starts_with "]" (skip_ws r) with
            | Some r' => Some ([v], r')
            | None => None
            end
        end
    end.
Proof. reflexivity. Qed.

Lemma parse_members_S n s :
  parse_members (S n) s
  = match starts_with dquote (skip_ws s) with
    | None => None
    | Some r =>
        match parse_chars r with
        | None => None
        | Some (k, r1) =>
            match starts_with ":" (skip_ws r1) with
            | None => None
            | Some r2 =>
                match parse_value n r2 with
                | None => None
                | Some (v, r3) =>
                    match starts_with "," (skip_ws r3) with
                    | Some r4 =>
                        match parse_members n r4 with
                        | Some (kvs, r5) => Some ((k, v) :: kvs, r5)
                        | None => None
                        end
                    | None =>
                        match starts_with "}" (skip_ws r3) with
                        | Some r4 => Some ([(k, v)], r4)
                        | None => None
                        end
                    end
                end
            end
        end
    end.
Proof. reflexivity. Qed.

(** Beyond twice the length of the text, more fuel changes nothing. *)
Lemma parse_fuel_stable f :
  (forall s, (2 * String.length s + 1 <= f)%nat ->
             parse_value (S f) s = parse_value f s)
  /\ (forall s, (2 * String.length s + 2 <= f)%nat ->
                parse_elements (S f) s = parse_elements f s)
  /\ (forall s, (2 * String.length s + 2 <= f)%nat ->
                parse_members (S f) s = parse_members f s).
Proof.
  induction f as [|f (IHv & IHe & IHm)];
    [repeat split; intros; lia|].
  pose proof (parse_progress f) as (Pv & Pe & Pm).
  repeat split; intros s Hf.
  - cbn [parse_value]. pose proof (skip_ws_length s) as Hw.
    destruct (skip_ws s) as [|c s1]; [reflexivity|]. simpl in Hw.
    rewrite IHe, IHm by lia. reflexivity.
  - rewrite (parse_elements_S (S f) s), (parse_elements_S f s).
    rewrite IHv by lia.
    destruct (parse_value f s) as [[x r1]|] eqn:E; [|reflexivity].
    apply Pv in E. pose proof (skip_ws_length r1) as Hw.
    destruct (starts_with "," (skip_ws r1)) as [r2|] eqn:E1; [|reflexivity].
    apply starts_with_length in E1. rewrite IHe by lia. reflexivity.
  - rewrite (parse_members_S (S f) s), (parse_members_S f s).
    pose proof (skip_ws_length s) as Hw.
    destruct (starts_with dquote (skip_ws s)) as [s1|] eqn:E0; [|reflexivity].
    apply starts_with_length in E0.
    destruct (parse_chars s1) as [[k r1]|] eqn:E; [|reflexivity].
    apply parse_chars_length in E. pose proof (skip_ws_length r1) as Hw1.
    destruct (starts_with ":" (skip_ws r1)) as [r2|] eqn:E1; [|reflexivity].
    apply starts_with_length in E1. rewrite IHv by lia.
    destruct (parse_value f r2) as [[x r3]|] eqn:E2; [|reflexivity].
    apply Pv in E2. pose proof (skip_ws_length r3) as Hw3.
    destruct (starts_with "," (skip_ws r3)) as [r4|] eqn:E3; [|reflexivity].
    apply starts_with_length in E3. rewrite IHm by lia. reflexivity.
Qed.

(** [JSON.parse] has all the fuel it can use: with more, the parser gives
    the same result. *)
Lemma parse_value_fuel s f :
  (parse_fuel s <= f)%nat -> parse_value f s = parse_value (parse_fuel s) s.
Proof.
  induction 1 as [|f Hle IH]; [reflexivity|].
  rewrite <- IH. apply parse_fuel_stable. unfold parse_fuel in *. lia.
Qed.

(** More fuel never loses a result. *)
Lemma parse_fuel_mono f :
  (forall s x, parse_value f s = Some x -> parse_value (S f) s = Some x)
  /\ (forall s x, parse_elements f s = Some x ->
                  parse_elements (S f) s = Some x)
  /\ (forall s x, parse_members f s = Some x ->
                  parse_members (S f) s = Some x).
Proof.
  induction f as [|f (IHv & IHe & IHm)];
    [repeat split; intros; discriminate|].
  repeat split; intros s x.
  - cbn [parse_value].
    destruct (skip_ws s) as [|c s1]; [discriminate|].
    destruct (Ascii.eqb c "{").
    { destruct (starts_with "}" (skip_ws s1)); [auto|].
      destruct (parse_members f s1) as [y|] eqn:E; [|discriminate].
      rewrite (IHm _ _ E). auto. }
    destruct (Ascii.eqb c "[").
    { destruct (starts_with "]" (skip_ws s1)); [auto|].
      destruct (parse_elements f s1) as [y|] eqn:E; [|discriminate].
      rewrite (IHe _ _ E). auto. }
    auto.
  - rewrite (parse_elements_S (S f) s), (parse_elements_S f s).
    destruct (parse_value f s) as [[v r]|] eqn:E; [|discriminate].
    rewrite (IHv _ _ E).
    destruct (starts_with "," (skip_ws r)); [|auto].
    destruct (parse_elements f s0) as [y|] eqn:E2; [|discriminate].
    rewrite (IHe _ _ E2). auto.
  - rewrite (parse_members_S (S f) s), (parse_members_S f s).
    destruct (starts_with dquote (skip_ws s)) as [s1|]; [|discriminate].
    destruct (parse_chars s1) as [[k r1]|]; [|discriminate].
    destruct (starts_with ":" (skip_ws r1)) as [r2|]; [|discriminate].
    destruct (parse_value f r2) as [[v r3]|] eqn:E; [|discriminate].
    rewrite (IHv _ _ E).
    destruct (starts_with "," (skip_ws r3)) as [r4|]; [|auto].
    destruct (parse_members f r4) as [y|] eqn:E2; [|discriminate].
    rewrite (IHm _ _ E2). auto.
Qed.

Lemma parse_value_more f g s x :
  (f <= g)%nat -> parse_value f s = Some x -> parse_value g s = Some x.
Proof.
  induction 1 as [|g Hle IH]; [auto|].
  intros H. apply parse_fuel_mono. auto.
Qed.

(** A result found with any fuel is the result of [JSON.parse]. *)
Lemma parse_with_fuel f s v rest :
  parse_value f s = Some (v, rest) -> skip_ws rest = EmptyString ->
  parse s = Some v.
Proof.
  intros H Hr. unfold parse.
  destruct (Nat.le_ge_cases f (parse_fuel s)) as [Hle|Hge].
  - rewrite (parse_value_more _ _ _ _ Hle H), Hr. reflexivity.
  - rewrite <- (parse_value_fuel s f Hge), H, Hr. reflexivity.
Qed.

(** *** Printing and reading back *)

Lemma append_assoc (a b c : string) : (a +:+ b) +:+ c = a +:+ (b +:+ c).
Proof.
  induction a as [|x a IH]; simpl; [reflexivity | rewrite IH; reflexivity].
Qed.

Lemma append_nil_r (a : string) : a +:+ "" = a.
Proof.
  induction a as [|x a IH]; simpl; [reflexivity | rewrite IH; reflexivity].
Qed.

Lemma canonical_arr l : canonical (JArr l) <-> Forall canonical l.
Proof.
  induction l as [|x l IH]; simpl.
  - split; [constructor | trivial].
  - split.
    + intros [H1 H2]. constructor; [exact H1 | apply IH; exact H2].
    + intros H. inversion H; subst. split; [assumption | apply IH; assumption].
Qed.

Lemma canonical_obj l :
  canonical (JObj l)
  <-> NoDup (map fst l) /\ Forall (fun kv => canonical (snd kv)) l.
Proof.
  simpl. apply and_iff_compat_l.
  induction l as [|x l IH].
  - split; [constructor | trivial].
  - split.
    + intros [H1 H2]. constructor; [exact H1 | apply IH; exact H2].
    + intros H. inversion H; subst. split; [assumption | apply IH; assumption].
Qed.

(** Strings *)
Lemma parse_escaped_char c tail :
  parse_chars (escape_char c +:+ tail)
  = match parse_chars tail with
    | Some (t, r) => Some (String c t, r)
    | None => None
    end.
Proof.
  destruct c as [[] [] [] [] [] [] [] []];
    cbv [escape_char]; simpl; destruct (parse_chars tail) as [[t r]|];
    reflexivity.
Qed.

Lemma parse_escaped s rest :
  parse_chars (escape s +:+ String dquote rest) = Some (s, rest).
Proof.
  induction s as [|c s IH]; [reflexivity|].
  cbn [escape]. rewrite append_assoc, parse_escaped_char, IH. reflexivity.
Qed.

(** Numbers *)
Lemma delimited_not_digit rest :
  delimited rest ->
  match rest with
  | String c _ => is_digit c = false
  | EmptyString => True
  end.
Proof.
  destruct rest as [|c r]; [trivial|].
  intros [->|[->| ->]]; reflexivity.
Qed.

Lemma delimited_plain rest :
  delimited rest ->
  parse_fraction rest = Some (EmptyString, rest)
  /\ parse_exponent rest = Some (EmptyString, rest).
Proof.
  destruct rest as [|c r]; [split; reflexivity|].
  intros [->|[->| ->]]; split; reflexivity.
Qed.

Lemma unorm_fixed_not_padded d : unorm d = d -> padded d = false.
Proof.
  destruct d as [|d|d|d|d|d|d|d|d|d|d]; try reflexivity.
  destruct d as [|d|d|d|d|d|d|d|d|d|d]; try reflexivity;
    rewrite unorm_D0; unfold unorm;
    match goal with
    | |- context [nzhead ?x] =>
        pose proof (nzhead_nonzero x) as Hn; destruct (nzhead x) eqn:E
    end; intros H; try discriminate; exfalso; eapply Hn; eauto.
Qed.

Lemma to_uint_not_padded p : padded (Pos.to_uint p) = false.
Proof.
  apply unorm_fixed_not_padded.
  rewrite <- (Unsigned.to_of (Pos.to_uint p)), Unsigned.of_to. reflexivity.
Qed.

Lemma show_uint_digit d rest :
  d <> Nil ->
  exists c t, show_uint d +:+ rest = String c t /\ is_digit c = true.
Proof.
  destruct d; [congruence | ..]; intros _; simpl; eauto.
Qed.

Lemma minus_sign_digits d rest :
  d <> Nil ->
  minus_sign (show_uint d +:+ rest) = (false, show_uint d +:+ rest).
Proof.
  destruct d; [congruence | ..]; intros _; reflexivity.
Qed.

Lemma read_digits_show d rest :
  d <> Nil -> delimited rest ->
  read_digits (show_uint d +:+ rest) = Some (d, rest).
Proof.
  intros Hd Hr. unfold read_digits.
  rewrite read_show_uint by (apply delimited_not_digit; exact Hr).
  destruct d; [congruence | reflexivity ..].
Qed.

Lemma parse_number_uint neg d rest :
  d <> Nil -> padded d = false -> delimited rest ->
  parse_number ((if neg : bool then "-" else "") +:+ show_uint d +:+ rest)
  = Some (JNum (if neg then - Z.of_uint d else Z.of_uint d), rest).
Proof.
  intros Hd Hp Hr. unfold parse_number.
  assert (minus_sign ((if neg then "-" else "") +:+ show_uint d +:+ rest)
          = (neg, show_uint d +:+ rest)) as ->.
  { destruct neg; [reflexivity|]. apply minus_sign_digits. exact Hd. }
  cbn [fst snd]. rewrite read_digits_show, Hp by assumption.
  destruct (delimited_plain rest Hr) as [-> ->]. reflexivity.
Qed.

Lemma parse_number_toString z rest :
  delimited rest ->
  parse_number (Number_toString z +:+ rest) = Some (JNum z, rest).
Proof.
  intros Hr. unfold Number_toString. destruct z as [|p|p]; simpl Z.to_int.
  - apply (parse_number_uint false (D0 Nil) rest);
      [discriminate | reflexivity | exact Hr].
  - pose proof (parse_number_uint false (Pos.to_uint p) rest
                  (Unsigned.to_uint_nonnil p) (to_uint_not_padded p) Hr) as H.
    unfold Z.of_uint in H. rewrite Unsigned.of_to in H. exact H.
  - pose proof (parse_number_uint true (Pos.to_uint p) rest
                  (Unsigned.to_uint_nonnil p) (to_uint_not_padded p) Hr) as H.
    unfold Z.of_uint in H. rewrite Unsigned.of_to in H. exact H.
Qed.

Lemma stringify_opens v rest :
  canonical v ->
  exists c t, stringify v +:+ rest = String c t /\ opens_value c = true.
Proof.
  destruct v as [|[]|z|l|s|l|l]; simpl; try (intros _; eauto; fail).
  - intros _. unfold Number_toString. destruct z as [|p|p]; simpl; eauto.
    + destruct (show_uint_digit (Pos.to_uint p) rest
                  (Unsigned.to_uint_nonnil p)) as (c & t & -> & Hc).
      exists c, t. split; [reflexivity|]. unfold opens_value. rewrite Hc.
      rewrite !orb_true_r. reflexivity.
  - intros [].
Qed.

Lemma opens_not_ws c : opens_value c = true -> is_json_ws c = false.
Proof. destruct c as [[] [] [] [] [] [] [] []]; vm_compute; congruence. Qed.

Lemma opens_not_close c r :
  opens_value c = true ->
  starts_with "]" (String c r) = None /\ starts_with "}" (String c r) = None.
Proof.
  destruct c as [[] [] [] [] [] [] [] []]; vm_compute; intros; split;
    congruence.
Qed.

(** Objects without duplicate keys *)
Lemma set_fresh a k v :
  k ∉ map fst a -> JS.set a k v = a ++ [(k, v)].
Proof.
  induction a as [|[k' v'] a IH]; intros H; [reflexivity|]. simpl in *.
  apply not_elem_of_cons in H as [H1 H2].
  destruct (String.eqb_spec k' k); [congruence|]. rewrite IH by exact H2.
  reflexivity.
Qed.

Lemma spread_append a l :
  NoDup (map fst (a ++ l)) -> spread a l = a ++ l.
Proof.
  revert a. induction l as [|[k v] l IH]; intros a H.
  - rewrite app_nil_r. reflexivity.
  - unfold spread in *. simpl.
    assert (k ∉ map fst a) as Hk.
    { rewrite map_app in H. apply NoDup_app in H as (_ & H & _).
      intros Hin. apply (H k Hin). simpl. left. }
    rewrite set_fresh by exact Hk. rewrite IH.
    + rewrite <- app_assoc. reflexivity.
    + rewrite <- app_assoc. exact H.
Qed.

(** Literals *)
Lemma prefix_self w rest : String.prefix w (w +:+ rest) = true.
Proof.
  induction w as [|c w IH]; simpl; [destruct rest; reflexivity|].
  destruct (ascii_dec c c); [exact IH | congruence].
Qed.

Lemma drop_self w rest : drop (String.length w) (w +:+ rest) = rest.
Proof.
  induction w as [|c w IH]; simpl; [destruct rest; reflexivity | exact IH].
Qed.

Lemma literal_word w v rest : literal w v (w +:+ rest) = Some (v, rest).
Proof. unfold literal. rewrite prefix_self, drop_self. reflexivity. Qed.

Lemma skip_ws_opens c t :
  opens_value c = true -> skip_ws (String c t) = String c t.
Proof. intros H. simpl. rewrite (opens_not_ws c H). reflexivity. Qed.

Lemma parse_value_number g c t :
  Ascii.eqb c "-" || is_digit c = true ->
  parse_value (S g) (String c t) = parse_number (String c t).
Proof.
  intros H. cbn [parse_value].
  assert (is_json_ws c = false /\ Ascii.eqb c "{" = false
          /\ Ascii.eqb c "[" = false /\ Ascii.eqb c dquote = false)
    as (H1 & H2 & H3 & H4).
  { clear -H. destruct c as [[] [] [] [] [] [] [] []]; vm_compute in H |- *;
      repeat split; congruence. }
  simpl skip_ws. rewrite H1, H2, H3, H4, H. reflexivity.
Qed.

Lemma number_opens z rest :
  exists c t, Number_toString z +:+ rest = String c t
              /\ Ascii.eqb c "-" || is_digit c = true.
Proof.
  unfold Number_toString. destruct z as [|p|p]; simpl; eauto.
  destruct (show_uint_digit (Pos.to_uint p) rest (Unsigned.to_uint_nonnil p))
    as (c & t & -> & Hc).
  exists c, t. rewrite Hc, orb_true_r. auto.
Qed.

Lemma weight_arr l : weight (JArr l) = S (wsum l).
Proof.
  simpl. f_equal. unfold wsum.
  induction l as [|x l IH]; simpl; [reflexivity | rewrite IH; reflexivity].
Qed.

Lemma weight_obj l : weight (JObj l) = S (wsum_props l).
Proof.
  simpl. f_equal. unfold wsum_props.
  induction l as [|x l IH]; simpl; [reflexivity | rewrite IH; reflexivity].
Qed.

Lemma weight_pos v : (1 <= weight v)%nat.
Proof. destruct v; simpl; lia. Qed.

Lemma at_comma X : starts_with "," (skip_ws (String "," X)) = Some X.
Proof. reflexivity. Qed.

Lemma at_colon X : starts_with ":" (skip_ws (String ":" X)) = Some X.
Proof. reflexivity. Qed.

Lemma at_quote X : starts_with dquote (skip_ws (String dquote X)) = Some X.
Proof. reflexivity. Qed.

Lemma at_bracket X :
  starts_with "," (skip_ws (String "]" X)) = None
  /\ starts_with "]" (skip_ws (String "]" X)) = Some X.
Proof. split; reflexivity. Qed.

Lemma at_brace X :
  starts_with "," (skip_ws (String "}" X)) = None
  /\ starts_with "}" (skip_ws (String "}" X)) = Some X.
Proof. split; reflexivity. Qed.

Lemma elements_read_back l :
  l <> [] -> Forall canonical l -> Forall reads_back l ->
  forall g rest,
    (wsum l <= g)%nat ->
    parse_elements g (join "," (map stringify l) +:+ String "]" rest)
    = Some (l, rest).
Proof.
  induction l as [|x l IH]; [congruence|]. intros _ Hc Hr g rest Hg.
  inversion Hc as [|? ? Hcx Hcl]; subst. inversion Hr as [|? ? Hrx Hrl]; subst.
  unfold wsum in Hg. simpl in Hg. fold (wsum l) in Hg.
  destruct g as [|g]; [lia|]. rewrite parse_elements_S.
  destruct l as [|y l].
  - cbn [map join]. rewrite (Hrx g (String "]" rest)) by (simpl; auto; lia).
    destruct (at_bracket rest) as [-> ->]. reflexivity.
  - assert (join "," (map stringify (x :: y :: l)) +:+ String "]" rest
            = stringify x
              +:+ String "," (join "," (map stringify (y :: l))
                              +:+ String "]" rest)) as ->.
    { cbn [map join]. rewrite !append_assoc. reflexivity. }
    rewrite (Hrx g) by (simpl; auto; lia).
    rewrite at_comma.
    rewrite (IH ltac:(discriminate) Hcl Hrl g rest) by lia.
    reflexivity.
Qed.

Lemma members_read_back l :
  l <> [] ->
  Forall (fun kv => canonical (snd kv)) l ->
  Forall (fun kv => reads_back (snd kv)) l ->
  forall g rest,
    (wsum_props l <= g)%nat ->
    parse_members g
      (join "," (map (fun kv => quote (fst kv) +:+ ":" +:+ stringify (snd kv))
                     l) +:+ String "}" rest)
    = Some (l, rest).
Proof.
  induction l as [|[k x] l IH]; [congruence|]. intros _ Hc Hr g rest Hg.
  inversion Hc as [|? ? Hcx Hcl]; subst. inversion Hr as [|? ? Hrx Hrl]; subst.
  unfold wsum_props in Hg. simpl in Hg. fold (wsum_props l) in Hg.
  simpl in Hrx.
  destruct g as [|g]; [lia|]. rewrite parse_members_S.
  assert (forall tail,
            (quote k +:+ ":" +:+ stringify x) +:+ tail
            = String dquote
                (escape k +:+ String dquote
                   (String ":" (stringify x +:+ tail)))) as Hshape.
  { intros tail. unfold quote. simpl. rewrite !append_assoc. reflexivity. }
  destruct l as [|y l].
  - cbn [map join fst snd]. rewrite Hshape, at_quote, parse_escaped, at_colon.
    rewrite (Hrx g (String "}" rest)) by (simpl; auto; lia).
    destruct (at_brace rest) as [-> ->]. reflexivity.
  - assert (join ","
              (map (fun kv => quote (fst kv) +:+ ":" +:+ stringify (snd kv))
                   ((k, x) :: y :: l)) +:+ String "}" rest
            = (quote k +:+ ":" +:+ stringify x)
              +:+ String ","
                    (join ","
                       (map (fun kv =>
                               quote (fst kv) +:+ ":" +:+ stringify (snd kv))
                            (y :: l)) +:+ String "}" rest)) as ->.
    { cbn [map join fst snd]. rewrite !append_assoc. reflexivity. }
    rewrite Hshape, at_quote, parse_escaped, at_colon.
    rewrite (Hrx g) by (simpl; auto; lia).
    rewrite at_comma.
    rewrite (IH ltac:(discriminate) Hcl Hrl g rest) by lia.
    reflexivity.
Qed.

Lemma wsum_elem x l : x ∈ l -> (weight x < S (wsum l))%nat.
Proof.
  unfold wsum. induction 1 as [x l|x y l _ IH]; simpl; lia.
Qed.

Lemma wsum_props_elem kv l :
  kv ∈ l -> (weight (snd kv) < S (wsum_props l))%nat.
Proof.
  unfold wsum_props. induction 1 as [x l|x y l _ IH]; simpl; lia.
Qed.

(** A printed canonical value reads back, whatever delimiter follows. *)
Lemma value_reads_back v : canonical v -> reads_back v.
Proof.
  remember (weight v) as n eqn:Hn. revert v Hn.
  induction n as [n IH] using lt_wf_ind. intros v -> Hc f rest Hf Hd.
  pose proof (weight_pos v) as Hpos.
  destruct f as [|g]; [lia|].
  destruct v as [|b|z|l|s|l|l].
  - exact (literal_word "null" JNull rest).
  - destruct b;
      [exact (literal_word "true" (JBool true) rest)
      |exact (literal_word "false" (JBool false) rest)].
  - cbn [stringify].
    destruct (number_opens z rest) as (c & t & E & Hcd).
    rewrite E, (parse_value_number g c t Hcd), <- E.
    apply parse_number_toString. exact Hd.
  - destruct Hc.
  - cbn [stringify]. unfold quote.
    change (parse_value (S g)
              (String dquote (escape s +:+ String dquote "") +:+ rest))
      with (match parse_chars ((escape s +:+ String dquote "") +:+ rest) with
            | Some (t, r') => Some (JStr t, r')
            | None => None
            end).
    rewrite append_assoc. cbn [String.append]. rewrite parse_escaped.
    reflexivity.
  - apply canonical_arr in Hc. rewrite weight_arr in Hf.
    assert (Forall reads_back l) as Hr.
    { apply Forall_forall. intros x Hx.
      apply (IH (weight x)); [|reflexivity|].
      - rewrite weight_arr. apply wsum_elem. exact Hx.
      - rewrite Forall_forall in Hc. apply Hc. exact Hx. }
    cbn [stringify].
    assert (("[" +:+ join "," (map stringify l) +:+ "]") +:+ rest
            = String "[" (join "," (map stringify l) +:+ String "]" rest))
      as -> by (simpl; rewrite append_assoc; reflexivity).
    destruct l as [|x l]; [reflexivity|].
    change (parse_value (S g)
              (String "["
                 (join "," (map stringify (x :: l)) +:+ String "]" rest)))
      with (match starts_with "]"
                    (skip_ws (join "," (map stringify (x :: l))
                              +:+ String "]" rest)) with
            | Some r' => Some (JArr [], r')
            | None =>
                match parse_elements g
                        (join "," (map stringify (x :: l))
                         +:+ String "]" rest) with
                | Some (vs, r') => Some (JArr vs, r')
                | None => None
                end
            end).
    rewrite (elements_read_back (x :: l) ltac:(discriminate) Hc Hr g rest)
      by lia.
    assert (exists c t,
              join "," (map stringify (x :: l)) +:+ String "]" rest
              = String c t /\ opens_value c = true) as (c & t & -> & Hop).
    { inversion Hc as [|? ? Hcx _]; subst.
      destruct l as [|y l]; cbn [map join].
      - apply stringify_opens. exact Hcx.
      - rewrite append_assoc. apply stringify_opens. exact Hcx. }
    rewrite (skip_ws_opens c t Hop).
    destruct (opens_not_close c t Hop) as [-> _]. reflexivity.
  - apply canonical_obj in Hc as [Hnd Hc]. rewrite weight_obj in Hf.
    assert (Forall (fun kv => reads_back (snd kv)) l) as Hr.
    { apply Forall_forall. intros x Hx.
      apply (IH (weight (snd x))); [|reflexivity|].
      - rewrite weight_obj. apply wsum_props_elem. exact Hx.
      - rewrite Forall_forall in Hc. apply Hc. exact Hx. }
    cbn [stringify].
    set (J := join ","
                (map (fun kv => quote (fst kv) +:+ ":" +:+ stringify (snd kv))
                     l)).
    assert (("{" +:+ J +:+ "}") +:+ rest = String "{" (J +:+ String "}" rest))
      as -> by (simpl; rewrite append_assoc; reflexivity).
    destruct l as [|x l]; [reflexivity|].
    change (parse_value (S g) (String "{" (J +:+ String "}" rest)))
      with (match starts_with "}" (skip_ws (J +:+ String "}" rest)) with
            | Some r' => Some (JObj [], r')
            | None =>
                match parse_members g (J +:+ String "}" rest) with
                | Some (kvs, r') => Some (JObj (spread [] kvs), r')
                | None => None
                end
            end).
    unfold J.
    rewrite (members_read_back (x :: l) ltac:(discriminate) Hc Hr g rest)
      by lia.
    rewrite (spread_append [] (x :: l)) by exact Hnd.
    assert (exists t,
              join ","
                (map (fun kv => quote (fst kv) +:+ ":" +:+ stringify (snd kv))
                     (x :: l)) +:+ String "}" rest
              = String dquote t) as (t & ->).
    { destruct l as [|y l]; cbn [map join]; unfold quote; simpl; eauto. }
    reflexivity.
Qed.

(** [JSON.parse(JSON.stringify(v))] is [v]. *)
Lemma parse_stringify v : canonical v -> parse (stringify v) = Some v.
Proof.
  intros Hc. apply (parse_with_fuel (weight v) (stringify v) v "").
  - pose proof (value_reads_back v Hc (weight v) "" (le_n _) I) as H.
    rewrite append_nil_r in H. exact H.
  - reflexivity.
Qed.

(** *** Numerals read as zero *)

(** The least positive double is [2 ^ -1074], about 4.94e-324: a numeral
    is read as zero, and is falsy, up to half of it. *)
Lemma numerals_read_as_zero :
  List.map (fun text => truthy (parse text))
    [ "0.0"; "-0.0"; "0e5"; "1e-400"; "2e-324"; "2.4703282292062327e-324";
      "2.4703282292062328e-324"; "3e-324"; "5e-324"; "0.5"; "1E-5";
      "1e400" ]
  = [ false; false; false; false; false; false;
      true; true; true; true; true; true ].
Proof. vm_compute. reflexivity. Qed.

End JSFacts.

(** ** The consent manager *)

Module ConsentFacts.
Import JS JSFacts Consent.

Lemma getAttribute_set_ne attrs n n' v :
  n <> n' -> getAttribute (setAttribute attrs n v) n' = getAttribute attrs n'.
Proof.
  intros Hne. induction attrs as [|[k0 v0] r IH]; simpl.
  - destruct (String.eqb_spec n n'); [contradiction | reflexivity].
  - destruct (String.eqb_spec k0 n) as [->|]; simpl.
    + destruct (String.eqb_spec n n'); [contradiction | reflexivity].
    + destruct (String.eqb k0 n'); auto.
Qed.

(** Copying the attributes of a placeholder never writes [type] nor
    [data-cookie-category]. *)
Lemma copy_keeps attrs acc n :
  n = "type" \/ n = "data-cookie-category" ->
  getAttribute
    (fold_left
       (fun acc a =>
          if negb (String.eqb (fst a) "type")
             && negb (String.eqb (fst a) "data-cookie-category")
          then setAttribute acc (fst a) (snd a) else acc)
       attrs acc) n
  = getAttribute acc n.
Proof.
  intros Hn. revert acc. induction attrs as [|[k v] r IH]; intros acc;
    [reflexivity|].
  simpl. rewrite IH.
  destruct (String.eqb_spec k "type") as [->|H1]; [reflexivity|].
  destruct (String.eqb_spec k "data-cookie-category") as [->|H2];
    [reflexivity|].
  simpl. apply getAttribute_set_ne. destruct Hn; congruence.
Qed.

Lemma activate_type x :
  getAttribute (attributes (activate x)) "type" = Some "text/javascript".
Proof. unfold activate; simpl. rewrite copy_keeps by auto. reflexivity. Qed.

(** A converted script is live and no longer matches the selector. *)
Lemma activate_active x : is_active (activate x) = true.
Proof. unfold is_active, type_is. rewrite activate_type. reflexivity. Qed.

Lemma activate_not_gated x : is_gated (activate x) = false.
Proof. unfold is_gated, type_is. rewrite activate_type. reflexivity. Qed.

Lemma resolve_idem s x : resolve s (resolve s x) = resolve s x.
Proof.
  unfold resolve at 2 3.
  destruct (is_gated x && isAllowed s (category x)) eqn:E.
  - unfold resolve. rewrite activate_not_gated. reflexivity.
  - unfold resolve. rewrite E. reflexivity.
Qed.

Lemma resolved_not_pending s x :
  is_gated (resolve s x) && isAllowed s (category (resolve s x)) = false.
Proof.
  unfold resolve.
  destruct (is_gated x && isAllowed s (category x)) eqn:E; [|exact E].
  rewrite activate_not_gated. reflexivity.
Qed.

Lemma no_pending_after s (d : list script) :
  filter (fun x => is_gated x && isAllowed s (category x) = true)
         (resolve s <$> d) = [].
Proof.
  induction d as [|x d IH]; [reflexivity|].
  rewrite fmap_cons, filter_cons, IH.
  destruct (decide _) as [H|H]; [|reflexivity].
  rewrite resolved_not_pending in H. discriminate.
Qed.

Lemma isAllowed_same_consent s s' c :
  currentConsent s = currentConsent s' -> isAllowed s c = isAllowed s' c.
Proof. unfold isAllowed. intros ->. reflexivity. Qed.

Lemma resolve_same_consent s s' x :
  currentConsent s = currentConsent s' -> resolve s x = resolve s' x.
Proof.
  intros H. unfold resolve. rewrite (isAllowed_same_consent s s' _ H).
  reflexivity.
Qed.

(** Scanning twice is scanning once: the second scan finds no permitted
    placeholder, replaces nothing and runs nothing. *)
Lemma processGatedScripts_idem s :
  processGatedScripts (processGatedScripts s) = processGatedScripts s.
Proof.
  unfold processGatedScripts at 1. unfold with_document.
  set (s1 := processGatedScripts s).
  assert (currentConsent s1 = currentConsent s) as Hc by reflexivity.
  assert (document s1 = resolve s <$> document s) as Hd by reflexivity.
  assert (forall x, resolve s1 x = resolve s x) as Hr
    by (intros x; apply resolve_same_consent; exact Hc).
  assert (filter (fun x => is_gated x && isAllowed s1 (category x) = true)
                 (document s1) = []) as Hf.
  { rewrite Hd. rewrite <- (no_pending_after s (document s)).
    apply list_filter_iff. intros x.
    rewrite (isAllowed_same_consent s1 s _ Hc). reflexivity. }
  rewrite Hf, fmap_nil, app_nil_r.
  rewrite (list_fmap_ext _ _ _ (fun _ x _ => Hr x)).
  rewrite Hd, <- list_fmap_compose.
  rewrite (list_fmap_ext (resolve s ∘ resolve s) (resolve s))
    by (intros; apply resolve_idem).
  reflexivity.
Qed.

Lemma scan_lookup s i x :
  document s !! i = Some x ->
  document (processGatedScripts s) !! i = Some (resolve s x).
Proof. intros H. simpl. rewrite list_lookup_fmap, H. reflexivity. Qed.

Lemma resolve_withheld s p :
  marketing_withheld s -> placeholder_of CONSENT_MARKETING p = true ->
  resolve s p = p.
Proof.
  unfold marketing_withheld, placeholder_of, resolve, isAllowed.
  intros Hw Hp. apply andb_true_iff in Hp as [Hg Hc].
  apply String.eqb_eq in Hc. rewrite Hc, Hg. simpl. rewrite Hw. reflexivity.
Qed.

Lemma resolve_granted s p :
  is_true (get (currentConsent s) CONSENT_MARKETING) = true ->
  placeholder_of CONSENT_MARKETING p = true ->
  resolve s p = activate p.
Proof.
  unfold placeholder_of, resolve, isAllowed.
  intros Hw Hp. apply andb_true_iff in Hp as [Hg Hc].
  apply String.eqb_eq in Hc. rewrite Hc, Hg. simpl. rewrite Hw. reflexivity.
Qed.

Lemma saved_document c s :
  document (hideModal (hideBanner (saveConsent c s))) = document s.
Proof. unfold saveConsent. destruct (setItem_throws s); reflexivity. Qed.

Lemma loaded_document s : document (loadConsent s) = document s.
Proof.
  unfold loadConsent. destruct (getItem_throws s); [reflexivity|].
  destruct (localStorage s !! STORAGE_KEY) as [t|]; [|reflexivity].
  destruct (String.eqb t ""); [reflexivity|].
  destruct (parse t); reflexivity.
Qed.

(** One operation leaves a marketing placeholder alone when the record it
    ends with withholds marketing. *)
Lemma step_keeps_placeholder o s i p :
  document s !! i = Some p ->
  placeholder_of CONSENT_MARKETING p = true ->
  marketing_withheld (step o s) ->
  document (step o s) !! i = Some p.
Proof.
  intros Hi Hp Hw.
  assert (forall s0, document s0 !! i = Some p ->
            marketing_withheld (processGatedScripts s0) ->
            document (processGatedScripts s0) !! i = Some p) as Hscan.
  { intros s0 H0 Hw0. rewrite (scan_lookup s0 i p H0).
    f_equal. apply resolve_withheld; assumption. }
  assert (forall c, document (hideModal (hideBanner (saveConsent c s))) !! i
                    = Some p) as Hsave.
  { intros c. rewrite saved_document. exact Hi. }
  destruct o; cbn [step] in *.
  - rewrite loaded_document. exact Hi.
  - apply Hscan; [apply Hsave | exact Hw].
  - apply Hscan; [apply Hsave | exact Hw].
  - apply Hscan; [apply Hsave | exact Hw].
  - apply Hscan; assumption.
  - unfold saveConsent. destruct (setItem_throws s); exact Hi.
  - exact Hi.
  - exact Hi.
Qed.

Lemma run_cons o ops s : run (o :: ops) s = run ops (step o s).
Proof. reflexivity. Qed.

Lemma step_document_length o s :
  length (document (step o s)) = length (document s).
Proof.
  assert (forall c, length (document
                      (processGatedScripts
                         (hideModal (hideBanner (saveConsent c s)))))
                    = length (document s)) as Hb.
  { intros c. simpl. rewrite length_fmap.
    change (length (document (hideModal (hideBanner (saveConsent c s))))
            = length (document s)).
    rewrite saved_document. reflexivity. }
  destruct o; cbn [step]; try apply Hb; try reflexivity.
  - rewrite loaded_document. reflexivity.
  - simpl. apply length_fmap.
  - unfold saveConsent. destruct (setItem_throws s); reflexivity.
Qed.

Lemma run_document_length ops s :
  length (document (run ops s)) = length (document s).
Proof.
  revert s. induction ops as [|o ops IH]; intros s; [reflexivity|].
  rewrite run_cons, IH. apply step_document_length.
Qed.

(** While marketing is withheld, the placeholder stays. *)
Lemma run_keeps_placeholder ops s i p :
  document s !! i = Some p ->
  placeholder_of CONSENT_MARKETING p = true ->
  (forall k, (0 < k <= length ops)%nat ->
             marketing_withheld (run (take k ops) s)) ->
  document (run ops s) !! i = Some p.
Proof.
  intros Hi Hp. revert s Hi.
  induction ops as [|o ops IH]; intros s Hi Hk; [exact Hi|].
  rewrite run_cons. apply IH.
  - apply step_keeps_placeholder; [exact Hi | exact Hp |].
    apply (Hk 1%nat). simpl. lia.
  - intros k Hlen. apply (Hk (S k)). simpl. lia.
Qed.

(** C1. A script placeholder of category [marketing] stays as it is
    through every sequence of operations (load, accept-all,
    reject-non-essential, save-custom, re-scan, pushed update, ticking,
    outside write) during which the consent record never grants marketing;
    and once a record is saved that sets [marketing: true] and the
    document is scanned, the placeholder has become one live script at its
    own place, the document has as many nodes as before, no marketing
    placeholder is left, and a further scan changes nothing: no node is
    replaced and none is run again. *)
Theorem marketing_placeholder_gated :
  forall (s : state) (i : nat) (p : script) (ops : list op),
    document s !! i = Some p ->
    placeholder_of CONSENT_MARKETING p = true ->
    (forall k, (0 < k <= length ops)%nat ->
               marketing_withheld (run (take k ops) s)) ->
    document (run ops s) !! i = Some p
    /\ (forall consent,
          let s0 := saveConsent consent (run ops s) in
          let s1 := processGatedScripts s0 in
          is_true (get (currentConsent s0) CONSENT_MARKETING) = true ->
          document s1 !! i = Some (activate p)
          /\ is_active (activate p) = true
          /\ is_gated (activate p) = false
          /\ length (document s1) = length (document s)
          /\ (forall x, x ∈ document s1 ->
                        placeholder_of CONSENT_MARKETING x = false)
          /\ processGatedScripts s1 = s1).
Proof.
  intros s i p ops Hi Hp Hk.
  pose proof (run_keeps_placeholder ops s i p Hi Hp Hk) as Hrun.
  split; [exact Hrun|].
  intros consent s0 s1 Hm.
  assert (document s0 = document (run ops s)) as Hd
    by (unfold s0, saveConsent; destruct (setItem_throws _); reflexivity).
  repeat split.
  - unfold s1. rewrite (scan_lookup s0 i p) by (rewrite Hd; exact Hrun).
    f_equal. apply resolve_granted; assumption.
  - apply activate_active.
  - apply activate_not_gated.
  - unfold s1. simpl. rewrite length_fmap, Hd. apply run_document_length.
  - intros x Hx. unfold s1 in Hx. simpl in Hx.
    apply list_elem_of_fmap in Hx as (y & -> & Hy).
    unfold placeholder_of.
    destruct (is_gated (resolve s0 y)) eqn:Hg; [|reflexivity].
    pose proof (resolved_not_pending s0 y) as Hn. rewrite Hg in Hn.
    simpl in *. unfold isAllowed in Hn.
    destruct (String.eqb_spec (category (resolve s0 y)) CONSENT_MARKETING)
      as [Hc|]; [|reflexivity].
    rewrite Hc in Hn. simpl in Hn. congruence.
  - apply processGatedScripts_idem.
Qed.

(** A page that carries one marketing script: refused, then accepted. *)
Lemma marketing_placeholder_gated_witness :
  let p := Script [("type", "text/plain");
                   ("data-cookie-category", "marketing");
                   ("async", "")] "track()" in
  let s := page (Markup (Some true) (Some true) true (Some false) (Some false)
                        [p]) ∅ ∅ false false in
  let ops := [Load; Scan; RejectNonEssential; Tick true false;
              SavePreferences] in
  let s1 := processGatedScripts
              (saveConsent (consent_of true true) (run ops s)) in
  document (run ops s) = [p]
  /\ document s1 = [activate p]
  /\ inserted s1 = [activate p]
  /\ processGatedScripts s1 = s1.
Proof.
  intros p s ops s1.
  assert (forall k, (0 < k <= length ops)%nat ->
                    marketing_withheld (run (take k ops) s)) as Hk.
  { intros k Hk.
    do 6 (destruct k as [|k];
          [first [vm_compute; reflexivity | simpl in Hk; lia]|]).
    simpl in Hk. lia. }
  destruct (marketing_placeholder_gated s 0%nat p ops eq_refl eq_refl Hk)
    as [H1 H2].
  assert (is_true
            (get (currentConsent
                    (saveConsent (consent_of true true) (run ops s)))
                 CONSENT_MARKETING) = true) as Hm
    by (vm_compute; reflexivity).
  destruct (H2 (consent_of true true) Hm) as (H3 & _ & _ & _ & _ & H4).
  split; [vm_compute; reflexivity|].
  split; [vm_compute; reflexivity|].
  split; [vm_compute; reflexivity | exact H4].
Defined.

(** *** Loading *)

Lemma loadConsent_unusable s :
  unusable (getItem_throws s) (localStorage s !! STORAGE_KEY) ->
  currentConsent (loadConsent s) = currentConsent s.
Proof.
  unfold loadConsent. intros [H|[H|[H|(text & H & [Hp|(v & Hp & Hv)])]]].
  - rewrite H. reflexivity.
  - rewrite H. destruct (getItem_throws s); reflexivity.
  - rewrite H. destruct (getItem_throws s); reflexivity.
  - rewrite H, Hp.
    destruct (getItem_throws s); [reflexivity|].
    destruct (String.eqb text ""); reflexivity.
  - rewrite H, Hp, Hv.
    destruct (getItem_throws s); [reflexivity|].
    destruct (String.eqb text ""); reflexivity.
Qed.

(** What [loadConsent] does with a text that parses: it merges the own
    properties of the value into the record, whatever they are. *)
Lemma loadConsent_merges s text v :
  getItem_throws s = false ->
  localStorage s !! STORAGE_KEY = Some text ->
  parse text = Some v ->
  currentConsent (loadConsent s) = spread (currentConsent s) (own_props v).
Proof.
  intros Hg Ht Hp. unfold loadConsent. rewrite Hg, Ht, Hp.
  destruct (String.eqb_spec text "") as [->|_]; [discriminate|].
  reflexivity.
Qed.

(** C8, as the script has it. When [getItem] throws or returns nothing
    or the empty string, when [JSON.parse] throws, and when the text is
    that of a value without properties of its own ([null], a boolean, a
    number, an empty string, array or object), the record a page has
    after [loadConsent] is the compiled-in default [{necessary: true,
    analytics: false, marketing: false}]. Any other text that parses is
    merged into the default property by property, whatever the keys and
    the values. *)
Theorem load_unusable_gives_default :
  forall (m : markup) (storage jar : gmap string string)
         (get_throws set_throws : bool),
    let s := page m storage jar get_throws set_throws in
    (unusable get_throws (storage !! STORAGE_KEY) ->
     currentConsent (loadConsent s)
     = [ ("necessary", JBool true); ("analytics", JBool false);
         ("marketing", JBool false) ])
    /\ (forall text v,
          get_throws = false ->
          storage !! STORAGE_KEY = Some text ->
          parse text = Some v ->
          currentConsent (loadConsent s)
          = spread [ ("necessary", JBool true); ("analytics", JBool false);
                     ("marketing", JBool false) ]
                   (own_props v)).
Proof.
  intros m storage jar get_throws set_throws s. split.
  - intros H. unfold s. rewrite loadConsent_unusable by assumption.
    reflexivity.
  - intros text v Hg Ht Hp.
    apply (loadConsent_merges s text v Hg Ht Hp).
Qed.

Lemma load_unusable_gives_default_witness :
  unusable false (({[ STORAGE_KEY := "{necessary:true" ]} : gmap string string)
                    !! STORAGE_KEY)
  /\ currentConsent
       (loadConsent
          (page (Markup (Some true) (Some true) true (Some false)
                        (Some false) [])
                {[ STORAGE_KEY := "{necessary:true" ]} ∅ false false))
     = default_consent.
Proof.
  assert (unusable false
            (({[ STORAGE_KEY := "{necessary:true" ]} : gmap string string)
               !! STORAGE_KEY)) as H.
  { right; right; right. exists "{necessary:true".
    split; [reflexivity | left; reflexivity]. }
  split; [exact H|].
  apply (proj1 (load_unusable_gives_default
                  (Markup (Some true) (Some true) true (Some false)
                          (Some false) [])
                  {[ STORAGE_KEY := "{necessary:true" ]} ∅ false false) H).
Defined.

(** C8 as stated fails: a stored text that parses, but not to a record
    of the three categories, is merged all the same. The text of an
    array leaves its index in the record as a fourth key, and that of an
    object with a string under [analytics] leaves the string there. *)
Lemma stored_value_merged_unchecked :
  let page_with text :=
    page (Markup (Some true) (Some true) true (Some false) (Some false) [])
         {[ STORAGE_KEY := text ]} ∅ false false in
  let wrong := JObj [ ("analytics", JStr "yes") ] in
  let from_array := currentConsent (loadConsent (page_with "[true]")) in
  let from_wrong :=
    currentConsent (loadConsent (page_with (stringify wrong))) in
  parse "[true]" = Some (JArr [JBool true])
  /\ get from_array "0" = Some (JBool true)
  /\ length from_array = 4%nat
  /\ from_array <> default_consent
  /\ parse (stringify wrong) = Some wrong
  /\ get from_wrong CONSENT_ANALYTICS = Some (JStr "yes")
  /\ from_wrong <> default_consent
  /\ (forall c : ConsentRecord,
        own_props (JArr [JBool true]) <> record_props c
        /\ own_props wrong <> record_props c).
Proof.
  vm_compute. repeat split; try reflexivity; discriminate.
Qed.

(** *** Saving and loading again *)

Lemma saveConsent_consent c s :
  currentConsent (saveConsent c s)
  = spread (currentConsent s) (own_props c).
Proof. unfold saveConsent. destruct (setItem_throws s); reflexivity. Qed.

Lemma button_consent c s :
  currentConsent
    (processGatedScripts (hideModal (hideBanner (saveConsent c s))))
  = spread (currentConsent s) (own_props c).
Proof. apply saveConsent_consent. Qed.

Lemma saveConsent_storage c s :
  setItem_throws s = false ->
  localStorage (saveConsent c s)
  = <[STORAGE_KEY :=
        stringify (JObj (spread (currentConsent s) (own_props c)))]>
      (localStorage s).
Proof. unfold saveConsent. intros ->. reflexivity. Qed.

Lemma set_keys a k v x :
  x ∈ map fst (JS.set a k v) <-> x ∈ map fst a \/ x = k.
Proof.
  induction a as [|[k' v'] a IH]; simpl.
  - rewrite list_elem_of_singleton. split; [auto|]. intros [H|H]; [|auto].
    inversion H.
  - destruct (String.eqb_spec k' k) as [->|Hne]; simpl.
    + rewrite elem_of_cons. split; [auto|]. intros [H|H]; auto.
    + rewrite !elem_of_cons, IH. tauto.
Qed.

Lemma set_nodup a k v :
  NoDup (map fst a) -> NoDup (map fst (JS.set a k v)).
Proof.
  induction a as [|[k' v'] a IH]; simpl; intros H.
  - repeat constructor. inversion 1.
  - apply NoDup_cons in H as [H1 H2].
    destruct (String.eqb_spec k' k) as [->|Hne]; simpl.
    + apply NoDup_cons. auto.
    + apply NoDup_cons. split; [|auto].
      rewrite set_keys. intros [H|H]; congruence.
Qed.

Lemma set_values (P : json -> Prop) a k v :
  P v -> Forall (fun kv => P (snd kv)) a ->
  Forall (fun kv => P (snd kv)) (JS.set a k v).
Proof.
  intros Hv. induction 1 as [|[k' v'] a Hx Ha IH]; simpl.
  - repeat constructor. exact Hv.
  - destruct (String.eqb k' k); constructor; auto.
Qed.

Lemma spread_canonical a b :
  canonical (JObj a) -> Forall (fun kv => canonical (snd kv)) b ->
  canonical (JObj (spread a b)).
Proof.
  revert a. induction b as [|[k v] b IH]; intros a Ha Hb; [exact Ha|].
  inversion Hb as [|? ? Hv Hb']; subst. unfold spread in *. simpl.
  apply IH; [|exact Hb'].
  apply canonical_obj in Ha as [H1 H2]. apply canonical_obj. split.
  - apply set_nodup. exact H1.
  - apply set_values; assumption.
Qed.

Lemma set_same a k v : get a k = Some v -> JS.set a k v = a.
Proof.
  induction a as [|[k' v'] a IH]; simpl; [discriminate|].
  destruct (String.eqb_spec k' k) as [->|Hne].
  - intros [= ->]. reflexivity.
  - intros H. rewrite IH by exact H. reflexivity.
Qed.

Lemma spread_same a b :
  Forall (fun kv => get a (fst kv) = Some (snd kv)) b -> spread a b = a.
Proof.
  induction 1 as [|[k v] b Hx Hb IH]; [reflexivity|].
  unfold spread in *. simpl in *. rewrite set_same by exact Hx. exact IH.
Qed.

Lemma get_own a :
  NoDup (map fst a) -> Forall (fun kv => get a (fst kv) = Some (snd kv)) a.
Proof.
  induction a as [|[k v] a IH]; intros H; constructor; simpl.
  - rewrite String.eqb_refl. reflexivity.
  - apply NoDup_cons in H as [H1 H2]. specialize (IH H2).
    rewrite Forall_forall in *. intros [k' v'] Hin. simpl.
    destruct (String.eqb_spec k k') as [->|Hne]; [|apply (IH _ Hin)].
    exfalso. apply H1. apply list_elem_of_fmap. exists (k', v'). auto.
Qed.

(** Merging a record into itself changes nothing. *)
Lemma spread_self a : NoDup (map fst a) -> spread a a = a.
Proof. intros H. apply spread_same, get_own, H. Qed.

(** Merging a record that starts with the three categories into the
    compiled-in one gives that record. *)
Lemma spread_default r :
  headed r -> NoDup (map fst r) -> spread default_consent r = r.
Proof.
  intros (n & a & m & rest & ->) H.
  change (spread default_consent
            ((CONSENT_NECESSARY, n) :: (CONSENT_ANALYTICS, a)
             :: (CONSENT_MARKETING, m) :: rest))
    with (spread [(CONSENT_NECESSARY, n); (CONSENT_ANALYTICS, a);
                  (CONSENT_MARKETING, m)] rest).
  apply (spread_append [(CONSENT_NECESSARY, n); (CONSENT_ANALYTICS, a);
                        (CONSENT_MARKETING, m)] rest).
  exact H.
Qed.

Lemma set_headed r k v : headed r -> headed (JS.set r k v).
Proof.
  intros (n & a & m & rest & ->). unfold headed. cbn [JS.set].
  destruct (String.eqb CONSENT_NECESSARY k); [eauto 10|].
  destruct (String.eqb CONSENT_ANALYTICS k); [eauto 10|].
  destruct (String.eqb CONSENT_MARKETING k); eauto 10.
Qed.

Lemma spread_headed a b : headed a -> headed (spread a b).
Proof.
  revert a. induction b as [|[k v] b IH]; intros a H; [exact H|].
  unfold spread in *. simpl. apply IH, set_headed, H.
Qed.

(** In every state a page can reach, the record starts with the three
    categories. *)
Lemma step_headed o s :
  headed (currentConsent s) -> headed (currentConsent (step o s)).
Proof.
  intros H. destruct o; cbn [step]; try exact H;
    try (unfold acceptAll, rejectNonEssential, savePreferences;
         rewrite button_consent; apply spread_headed, H).
  - unfold loadConsent. destruct (getItem_throws s); [exact H|].
    destruct (localStorage s !! STORAGE_KEY) as [t|]; [|exact H].
    destruct (String.eqb t ""); [exact H|].
    destruct (parse t); [|exact H]. apply spread_headed, H.
  - rewrite saveConsent_consent. apply spread_headed, H.
Qed.

Lemma run_headed ops s :
  headed (currentConsent s) -> headed (currentConsent (run ops s)).
Proof.
  revert s. induction ops as [|o ops IH]; intros s H; [exact H|].
  rewrite run_cons. apply IH, step_headed, H.
Qed.

(** C9. Saving a ConsentRecord and loading it back yields the record that
    was saved. With a working [localStorage], in a session whose record
    starts with the three categories, as every record a page reaches
    does, and is canonical, [saveConsent] leaves the three categories of
    the ConsentRecord in the record and keeps what else the record held; the
    text it writes under the storage key is read back by [JSON.parse] as
    that very record; and [loadConsent] ends with that very record, on
    the next page load as well as in the same session. *)
Theorem consent_round_trip :
  forall (c : ConsentRecord) (s : state) (next : markup),
    getItem_throws s = false ->
    setItem_throws s = false ->
    headed (currentConsent s) ->
    canonical (JObj (currentConsent s)) ->
    let saved := saveConsent (JObj (record_props c)) s in
    let r := currentConsent saved in
    r = record_props c ++ skipn 3 (currentConsent s)
    /\ (localStorage saved !! STORAGE_KEY) ≫= parse = Some (JObj r)
    /\ currentConsent (loadConsent (reload saved next)) = r
    /\ currentConsent (loadConsent saved) = r.
Proof.
  intros c s next Hg Hs Hh Hc saved r.
  assert (r = spread (currentConsent s) (record_props c)) as Hr
    by (unfold r, saved; apply saveConsent_consent).
  assert (canonical (JObj r)) as Hcr.
  { rewrite Hr. apply spread_canonical; [exact Hc|].
    repeat constructor. }
  assert (headed r) as Hhr by (rewrite Hr; apply spread_headed, Hh).
  assert (localStorage saved !! STORAGE_KEY = Some (stringify (JObj r)))
    as Hst.
  { unfold saved. rewrite saveConsent_storage by exact Hs.
    rewrite lookup_insert_eq. rewrite Hr. reflexivity. }
  assert (getItem_throws saved = false) as Hg'.
  { unfold saved, saveConsent. rewrite Hs. exact Hg. }
  assert (String.eqb (stringify (JObj r)) "" = false) as Hne by reflexivity.
  pose proof (parse_stringify (JObj r) Hcr) as Hp.
  pose proof (proj1 (proj1 (canonical_obj r) Hcr)) as Hnd.
  repeat split.
  - rewrite Hr. destruct Hh as (n & a & m & rest & ->). reflexivity.
  - rewrite Hst. exact Hp.
  - unfold loadConsent, reload, page. cbn [getItem_throws localStorage].
    rewrite Hg', Hst, Hne, Hp. apply spread_default; assumption.
  - unfold loadConsent. rewrite Hg', Hst, Hne, Hp.
    apply spread_self. exact Hnd.
Qed.

(** On a fresh page the record saved is the ConsentRecord itself. *)
Lemma consent_round_trip_witness :
  let c := Build_ConsentRecord true true false in
  let s := page (Markup (Some true) (Some true) true (Some false) (Some false)
                        []) ∅ ∅ false false in
  let saved := saveConsent (JObj (record_props c)) s in
  currentConsent saved = record_props c
  /\ (localStorage saved !! STORAGE_KEY) ≫= parse
     = Some (JObj (record_props c))
  /\ currentConsent
       (loadConsent (reload saved (Markup None None false None None [])))
     = record_props c
  /\ currentConsent (loadConsent saved) = record_props c.
Proof.
  intros c s.
  assert (headed (currentConsent s)) as Hh
    by (do 4 eexists; reflexivity).
  assert (canonical (JObj (currentConsent s))) as Hc.
  { apply canonical_obj. split; [|repeat constructor].
    apply (bool_decide_unpack _). reflexivity. }
  exact (consent_round_trip c s (Markup None None false None None [])
           eq_refl eq_refl Hh Hc).
Defined.

(** *** The necessary category *)

Lemma button_sets_necessary a m s :
  necessary_on
    (processGatedScripts
       (hideModal (hideBanner (saveConsent (consent_of a m) s)))).
Proof.
  unfold necessary_on. rewrite button_consent.
  unfold spread; simpl. rewrite !get_set_ne by discriminate.
  apply get_set_eq.
Qed.

Lemma step_keeps_necessary o s :
  necessary_on s -> respects_necessary o s -> necessary_on (step o s).
Proof.
  unfold necessary_on. intros Hn Hr. destruct o; cbn [step].
  - unfold loadConsent, respects_necessary in *.
    destruct (getItem_throws s); [exact Hn|].
    destruct (localStorage s !! STORAGE_KEY) as [t|] eqn:Ht; [|exact Hn].
    destruct (String.eqb t ""); [exact Hn|].
    destruct (parse t) as [v|] eqn:Hv; [|exact Hn].
    simpl. apply get_spread_all; [exact Hn|]. exact (Hr t v eq_refl Hv).
  - apply button_sets_necessary.
  - apply button_sets_necessary.
  - apply button_sets_necessary.
  - exact Hn.
  - rewrite saveConsent_consent. apply get_spread_all; assumption.
  - exact Hn.
  - exact Hn.
Qed.

(** C4, as the script has it. The category query answers [true] for
    [necessary] whatever the record holds; each of accept-all,
    reject-non-essential and save-custom leaves [necessary: true] in the
    record, whatever it held before; and the record keeps
    [necessary: true] through every sequence of operations in which no
    pushed record and no loaded item carries another value for it. *)
Theorem necessary_kept :
  forall (s : state),
    isAllowed s CONSENT_NECESSARY = true
    /\ necessary_on (acceptAll s)
    /\ necessary_on (rejectNonEssential s)
    /\ necessary_on (savePreferences s)
    /\ (forall ops,
          necessary_on s -> respectful ops s -> necessary_on (run ops s)).
Proof.
  intros s. repeat split; try apply button_sets_necessary.
  intros ops. revert s. induction ops as [|o ops IH]; intros s Hn Hr;
    [exact Hn|].
  destruct Hr as [Ho Hr]. rewrite run_cons. apply IH; [|exact Hr].
  apply step_keeps_necessary; assumption.
Qed.

Lemma necessary_kept_witness :
  let s := page (Markup (Some true) (Some true) true (Some false) (Some false)
                        []) ∅ ∅ false false in
  let ops := [Load; Update (JObj [("analytics", JBool true)]);
              SavePreferences; Scan] in
  necessary_on (run ops s).
Proof.
  intros s ops.
  refine (proj2 (proj2 (proj2 (proj2 (necessary_kept s)))) ops _ _).
  - reflexivity.
  - repeat split; try exact I.
    + intros text v H. vm_compute in H. discriminate.
    + repeat constructor; simpl; discriminate.
Defined.

(** C4 as stated fails: a record pushed through [ACTAConsent.update], or
    an item found in the storage, with [necessary: false] ends up in the
    record as it is. *)
Lemma necessary_overwritten :
  let s := page (Markup (Some true) (Some true) true (Some false) (Some false)
                        []) ∅ ∅ false false in
  get (currentConsent (run [Update (JObj [("necessary", JBool false)])] s))
      CONSENT_NECESSARY = Some (JBool false)
  /\ get (currentConsent
            (run [Stored (Some ("{" +:+ String dquote "necessary"
                                +:+ String dquote ":false}"));
                  Load] s))
         CONSENT_NECESSARY = Some (JBool false).
Proof. split; vm_compute; reflexivity. Qed.

(** *** The attributes of a live script *)

Lemma getAttribute_set_eq attrs n v :
  getAttribute (setAttribute attrs n v) n = Some v.
Proof.
  induction attrs as [|[k0 v0] r IH]; simpl.
  - rewrite String.eqb_refl. reflexivity.
  - destruct (String.eqb_spec k0 n) as [->|Hne]; simpl.
    + rewrite String.eqb_refl. reflexivity.
    + destruct (String.eqb_spec k0 n); [contradiction | exact IH].
Qed.

Lemma getAttribute_None attrs n :
  n ∉ map fst attrs -> getAttribute attrs n = None.
Proof.
  induction attrs as [|[k v] r IH]; intros H; [reflexivity|]. simpl in *.
  apply not_elem_of_cons in H as [H1 H2].
  destruct (String.eqb_spec k n); [congruence | auto].
Qed.

(** Copying the attributes of a placeholder writes every other attribute
    with its value. *)
Lemma copy_lookup attrs acc n :
  NoDup (map fst attrs) -> n <> "type" -> n <> "data-cookie-category" ->
  getAttribute
    (fold_left
       (fun acc a =>
          if negb (String.eqb (fst a) "type")
             && negb (String.eqb (fst a) "data-cookie-category")
          then setAttribute acc (fst a) (snd a) else acc)
       attrs acc) n
  = match getAttribute attrs n with
    | Some v => Some v
    | None => getAttribute acc n
    end.
Proof.
  intros Hnd Ht Hc. revert acc.
  induction attrs as [|[k v] r IH]; intros acc; [reflexivity|].
  simpl in Hnd. apply NoDup_cons in Hnd as [Hk Hnd].
  simpl. rewrite (IH Hnd).
  destruct (String.eqb_spec k n) as [->|Hne].
  - rewrite (getAttribute_None r n Hk).
    destruct (String.eqb_spec n "type"); [contradiction|].
    destruct (String.eqb_spec n "data-cookie-category"); [contradiction|].
    simpl. apply getAttribute_set_eq.
  - destruct (getAttribute r n); [reflexivity|].
    destruct (negb (String.eqb k "type")
              && negb (String.eqb k "data-cookie-category"));
      [apply getAttribute_set_ne; exact Hne | reflexivity].
Qed.

(** X1. The live script built for a placeholder carries the text of the
    placeholder and, when no attribute name repeats, every attribute of
    the placeholder with its value, except [type], which reads
    [text/javascript], and [data-cookie-category], which is gone. *)
Theorem activate_carries_over :
  forall (x : script) (n : string),
    NoDup (map fst (attributes x)) ->
    textContent (activate x) = textContent x
    /\ getAttribute (attributes (activate x)) n
       = if String.eqb n "type" then Some "text/javascript"
         else if String.eqb n "data-cookie-category" then None
         else getAttribute (attributes x) n.
Proof.
  intros x n Hnd. split; [reflexivity|].
  destruct (String.eqb_spec n "type") as [->|Ht]; [apply activate_type|].
  destruct (String.eqb_spec n "data-cookie-category") as [->|Hc].
  - unfold activate. cbn [attributes].
    rewrite copy_keeps by (right; reflexivity). reflexivity.
  - unfold activate. cbn [attributes].
    rewrite copy_lookup by assumption.
    destruct (getAttribute (attributes x) n); [reflexivity|].
    cbn [getAttribute].
    destruct (String.eqb_spec "type" n) as [E|E];
      [symmetry in E; contradiction | reflexivity].
Qed.

Lemma activate_carries_over_witness :
  let x := Script [("type", "text/plain");
                   ("data-cookie-category", "analytics");
                   ("src", "/assets/js/stats.js"); ("defer", "")]
                  "" in
  NoDup (map fst (attributes x))
  /\ getAttribute (attributes (activate x)) "src"
     = Some "/assets/js/stats.js".
Proof.
  intros x.
  assert (NoDup (map fst (attributes x))) as H
    by (apply (bool_decide_unpack _); reflexivity).
  split; [exact H|].
  exact (proj2 (activate_carries_over x "src" H)).
Defined.

(** *** What the manager does to the scripts of a page *)

Lemma resolve_cases s x :
  resolve s x = x \/ (is_gated x = true /\ resolve s x = activate x).
Proof.
  unfold resolve. destruct (is_gated x); simpl; [|left; reflexivity].
  destruct (isAllowed s (category x)); auto.
Qed.

Lemma step_lookup o s i x :
  document s !! i = Some x ->
  document (step o s) !! i = Some x
  \/ (is_gated x = true /\ document (step o s) !! i = Some (activate x)).
Proof.
  intros Hi.
  assert (forall s', document s' = document s ->
            document (processGatedScripts s') !! i = Some x
            \/ (is_gated x = true
                /\ document (processGatedScripts s') !! i
                   = Some (activate x))) as Hscan.
  { intros s' Hd. rewrite <- Hd in Hi.
    rewrite (scan_lookup s' i x Hi).
    destruct (resolve_cases s' x) as [->|[Hg ->]]; auto. }
  destruct o; cbn [step].
  - left. rewrite loaded_document. exact Hi.
  - apply Hscan, saved_document.
  - apply Hscan, saved_document.
  - apply Hscan, saved_document.
  - apply Hscan. reflexivity.
  - left. unfold saveConsent. destruct (setItem_throws s); exact Hi.
  - left. exact Hi.
  - left. exact Hi.
Qed.

Lemma step_keeps_ungated o s i x :
  document s !! i = Some x -> is_gated x = false ->
  document (step o s) !! i = Some x.
Proof.
  intros Hi Hg. destruct (step_lookup o s i x Hi) as [H|[H _]];
    [exact H | congruence].
Qed.

Lemma run_keeps_ungated ops s i x :
  document s !! i = Some x -> is_gated x = false ->
  document (run ops s) !! i = Some x.
Proof.
  revert s. induction ops as [|o ops IH]; intros s Hi Hg; [exact Hi|].
  rewrite run_cons. apply IH; [|exact Hg].
  apply step_keeps_ungated; assumption.
Qed.

Lemma run_app ops more s : run (ops ++ more) s = run more (run ops s).
Proof. unfold run. apply fold_left_app. Qed.

Lemma run_lookup ops s i x :
  document s !! i = Some x ->
  document (run ops s) !! i = Some x
  \/ (is_gated x = true /\ document (run ops s) !! i = Some (activate x)).
Proof.
  revert s. induction ops as [|o ops IH]; intros s Hi; [left; exact Hi|].
  rewrite run_cons.
  destruct (step_lookup o s i x Hi) as [H|[Hg H]].
  - apply IH, H.
  - right. split; [exact Hg|].
    apply run_keeps_ungated; [exact H | apply activate_not_gated].
Qed.

(** X2. Whatever operations run, a script of the page is either as it
    was or, if it was a placeholder, the live script built from it: a node
    the selector does not match is never touched, and a node that has
    been activated stays activated under every further operation. *)
Theorem scripts_only_activated :
  forall (ops : list op) (s : state) (i : nat) (x : script),
    document s !! i = Some x ->
    (document (run ops s) !! i = Some x
     \/ (is_gated x = true
         /\ document (run ops s) !! i = Some (activate x)))
    /\ (is_gated x = false -> document (run ops s) !! i = Some x)
    /\ (forall more,
          document (run ops s) !! i = Some (activate x) ->
          document (run (ops ++ more) s) !! i = Some (activate x)).
Proof.
  intros ops s i x Hi. split; [apply run_lookup, Hi|]. split.
  - intros Hg. apply run_keeps_ungated; assumption.
  - intros more H. rewrite run_app.
    apply run_keeps_ungated; [exact H | apply activate_not_gated].
Qed.

Lemma scripts_only_activated_witness :
  let p := Script [("type", "text/plain");
                   ("data-cookie-category", "analytics")] "count()" in
  let q := Script [("type", "module")] "menu()" in
  let s := page (Markup (Some true) (Some true) true (Some false) (Some false)
                        [p; q]) ∅ ∅ false false in
  let ops := [AcceptAll; RejectNonEssential; Load; Scan] in
  document s !! 1%nat = Some q
  /\ document (run ops s) !! 1%nat = Some q.
Proof.
  intros p q s ops.
  assert (document s !! 1%nat = Some q) as H by reflexivity.
  split; [exact H|].
  exact (proj1 (proj2 (scripts_only_activated ops s 1%nat q H)) eq_refl).
Defined.

Lemma resolved_not_necessary s x :
  placeholder_of CONSENT_NECESSARY (resolve s x) = false.
Proof.
  pose proof (resolved_not_pending s x) as H. unfold placeholder_of.
  destruct (is_gated (resolve s x)); [|reflexivity]. simpl in *.
  unfold isAllowed in H.
  destruct (String.eqb (category (resolve s x)) CONSENT_NECESSARY);
    [discriminate | reflexivity].
Qed.

Lemma resolve_necessary s p :
  placeholder_of CONSENT_NECESSARY p = true ->
  (is_gated p && isAllowed s (category p)) = true
  /\ resolve s p = activate p.
Proof.
  unfold placeholder_of, resolve, isAllowed. intros H.
  apply andb_true_iff in H as [-> ->]. split; reflexivity.
Qed.

Lemma scan_necessary s :
  (forall x, x ∈ document (processGatedScripts s) ->
             placeholder_of CONSENT_NECESSARY x = false)
  /\ (forall i p,
        document s !! i = Some p ->
        placeholder_of CONSENT_NECESSARY p = true ->
        document (processGatedScripts s) !! i = Some (activate p)
        /\ activate p ∈ inserted (processGatedScripts s)).
Proof.
  split.
  - intros x Hx. cbn [processGatedScripts with_document document] in Hx.
    apply list_elem_of_fmap in Hx as (y & -> & _).
    apply resolved_not_necessary.
  - intros i p Hi Hp. destruct (resolve_necessary s p Hp) as [Hg Hr]. split.
    + rewrite (scan_lookup s i p Hi), Hr. reflexivity.
    + cbn [processGatedScripts with_document inserted].
      apply elem_of_app. right. apply list_elem_of_fmap. exists p.
      split; [reflexivity|]. apply list_elem_of_filter. split; [exact Hg|].
      apply list_elem_of_lookup. exists i. exact Hi.
Qed.

(** X3. A scan, and each of the three choices, leaves no placeholder of
    category [necessary] in the document: every one is replaced by its
    live script and handed to [replaceChild], whatever the record holds,
    [necessary: false] included. *)
Theorem necessary_scripts_always_run :
  forall (o : op) (s : state),
    o = Scan \/ o = AcceptAll \/ o = RejectNonEssential
    \/ o = SavePreferences ->
    (forall x, x ∈ document (step o s) ->
               placeholder_of CONSENT_NECESSARY x = false)
    /\ (forall i p,
          document s !! i = Some p ->
          placeholder_of CONSENT_NECESSARY p = true ->
          document (step o s) !! i = Some (activate p)
          /\ activate p ∈ inserted (step o s)).
Proof.
  intros o s Ho.
  assert (forall s', document s' = document s ->
            (forall x, x ∈ document (processGatedScripts s') ->
                       placeholder_of CONSENT_NECESSARY x = false)
            /\ (forall i p,
                  document s !! i = Some p ->
                  placeholder_of CONSENT_NECESSARY p = true ->
                  document (processGatedScripts s') !! i = Some (activate p)
                  /\ activate p ∈ inserted (processGatedScripts s'))) as H.
  { intros s' Hd. rewrite <- Hd. apply scan_necessary. }
  destruct Ho as [-> | [-> | [-> | ->]]]; cbn [step].
  - apply H. reflexivity.
  - apply H, saved_document.
  - apply H, saved_document.
  - apply H, saved_document.
Qed.

Lemma necessary_scripts_always_run_witness :
  let p := Script [("type", "text/plain");
                   ("data-cookie-category", "necessary")] "session()" in
  let s := with_consent [("necessary", JBool false)]
             (page (Markup (Some true) (Some true) true (Some false)
                           (Some false) [p]) ∅ ∅ false false) in
  isAllowed s CONSENT_ANALYTICS = false
  /\ get (currentConsent s) CONSENT_NECESSARY = Some (JBool false)
  /\ document (step Scan s) !! 0%nat = Some (activate p)
  /\ activate p ∈ inserted (step Scan s).
Proof.
  intros p s. split; [reflexivity|]. split; [reflexivity|].
  exact (proj2 (necessary_scripts_always_run Scan s (or_introl eq_refl))
           0%nat p eq_refl eq_refl).
Defined.

(** *** What a choice grants *)

Lemma isAllowed_after_choice a m s s' cat :
  currentConsent s' = spread (currentConsent s) (own_props (consent_of a m)) ->
  isAllowed s' cat = granted_by a m s cat.
Proof.
  intros Hc. unfold isAllowed, granted_by. rewrite Hc.
  destruct (String.eqb_spec cat CONSENT_NECESSARY) as [->|Hn]; [reflexivity|].
  unfold spread, consent_of, own_props. cbn [fold_left fst snd].
  destruct (String.eqb_spec cat CONSENT_MARKETING) as [->|Hm].
  - rewrite get_set_eq. destruct m; reflexivity.
  - rewrite get_set_ne by congruence.
    destruct (String.eqb_spec cat CONSENT_ANALYTICS) as [->|Ha].
    + rewrite get_set_eq. destruct a; reflexivity.
    + rewrite !get_set_ne by congruence. reflexivity.
Qed.

Lemma choice_resolves a m s i p :
  document s !! i = Some p -> is_gated p = true ->
  document
    (processGatedScripts
       (hideModal (hideBanner (saveConsent (consent_of a m) s)))) !! i
  = Some (if granted_by a m s (category p) then activate p else p).
Proof.
  intros Hi Hg.
  set (s' := hideModal (hideBanner (saveConsent (consent_of a m) s))).
  assert (document s' !! i = Some p) as Hi'
    by (unfold s'; rewrite saved_document; exact Hi).
  rewrite (scan_lookup s' i p Hi'). unfold resolve. rewrite Hg. simpl.
  rewrite (isAllowed_after_choice a m s s'); [reflexivity|].
  unfold s'. apply saveConsent_consent.
Qed.

(** X4. What each choice does to a placeholder: accept-all activates it
    when its category is one of the three, reject-non-essential only when
    it is [necessary], save-preferences according to the boxes, an absent
    box counting as unticked. A placeholder of any other category is
    activated only when the record already holds [true] under that
    category. *)
Theorem choice_decides_placeholders :
  forall (s : state) (i : nat) (p : script),
    document s !! i = Some p ->
    is_gated p = true ->
    let after a m :=
      if granted_by a m s (category p) then activate p else p in
    document (acceptAll s) !! i = Some (after true true)
    /\ document (rejectNonEssential s) !! i = Some (after false false)
    /\ document (savePreferences s) !! i
       = Some (after (default false (analyticsCheckbox s))
                     (default false (marketingCheckbox s))).
Proof.
  intros s i p Hi Hg after. unfold after.
  repeat split; apply choice_resolves; assumption.
Qed.

Lemma choice_decides_placeholders_witness :
  let p := Script [("type", "text/plain");
                   ("data-cookie-category", "preferences")] "theme()" in
  let s := page (Markup (Some true) (Some true) true (Some false) None [p])
                ∅ ∅ false false in
  document s !! 0%nat = Some p
  /\ is_gated p = true
  /\ document (acceptAll s) !! 0%nat
     = Some (if granted_by true true s (category p) then activate p else p).
Proof.
  intros p s.
  assert (document s !! 0%nat = Some p) as Hi by reflexivity.
  assert (is_gated p = true) as Hg by reflexivity.
  split; [exact Hi|]. split; [exact Hg|].
  exact (proj1 (choice_decides_placeholders s 0%nat p Hi Hg)).
Defined.

(** *** Pushing a record *)

Lemma get_None b k : k ∉ map fst b -> get b k = None.
Proof.
  induction b as [|[k' v] b IH]; intros H; [reflexivity|]. simpl in *.
  apply not_elem_of_cons in H as [H1 H2].
  destruct (String.eqb_spec k' k); [congruence | auto].
Qed.

Lemma get_spread a b k :
  NoDup (map fst b) ->
  get (spread a b) k
  = match get b k with
    | Some v => Some v
    | None => get a k
    end.
Proof.
  revert a. induction b as [|[k0 v0] b IH]; intros a Hnd; [reflexivity|].
  simpl in Hnd. apply NoDup_cons in Hnd as [Hk Hnd].
  change (spread a ((k0, v0) :: b)) with (spread (JS.set a k0 v0) b).
  rewrite (IH _ Hnd). cbn [get].
  destruct (String.eqb_spec k0 k) as [->|Hne].
  - rewrite (get_None b k Hk). apply get_set_eq.
  - destruct (get b k); [reflexivity|]. apply get_set_ne, Hne.
Qed.

Lemma saveConsent_page c s :
  document (saveConsent c s) = document s
  /\ inserted (saveConsent c s) = inserted s
  /\ cookieBanner (saveConsent c s) = cookieBanner s
  /\ cookieModal (saveConsent c s) = cookieModal s.
Proof. unfold saveConsent. destruct (setItem_throws s); auto. Qed.

(** X5. A record pushed through [ACTAConsent.update], in which as in
    any object no key repeats, is merged key by key: a key of the pushed
    record reads its new value, every other key keeps the value it had.
    The update by itself activates no script and leaves the banner as it
    is. *)
Theorem update_merges :
  forall (consent : json) (s : state) (k : string),
    NoDup (map fst (own_props consent)) ->
    get (currentConsent (saveConsent consent s)) k
    = match get (own_props consent) k with
      | Some v => Some v
      | None => get (currentConsent s) k
      end
    /\ document (saveConsent consent s) = document s
    /\ inserted (saveConsent consent s) = inserted s
    /\ cookieBanner (saveConsent consent s) = cookieBanner s.
Proof.
  intros consent s k Hnd. split.
  - rewrite saveConsent_consent. apply get_spread, Hnd.
  - destruct (saveConsent_page consent s) as (H1 & H2 & H3 & _). auto.
Qed.

Lemma update_merges_witness :
  let s := with_consent [("necessary", JBool true); ("analytics", JBool false);
                         ("marketing", JBool true)]
             (page (Markup (Some false) (Some true) true (Some false)
                           (Some true) []) ∅ ∅ false false) in
  let consent := JObj [("analytics", JBool true)] in
  NoDup (map fst (own_props consent))
  /\ get (currentConsent (saveConsent consent s)) "marketing"
     = match get (own_props consent) "marketing" with
       | Some v => Some v
       | None => get (currentConsent s) "marketing"
       end.
Proof.
  intros s consent.
  assert (NoDup (map fst (own_props consent))) as H
    by (apply (bool_decide_unpack _); reflexivity).
  split; [exact H|].
  exact (proj1 (update_merges consent s "marketing" H)).
Defined.


(** *** The next page *)

Lemma saved_record_reloads c s next :
  getItem_throws s = false -> setItem_throws s = false ->
  headed (currentConsent s) -> canonical (JObj (currentConsent s)) ->
  Forall (fun kv => canonical (snd kv)) (own_props c) ->
  currentConsent (loadConsent (reload (saveConsent c s) next))
  = spread (currentConsent s) (own_props c).
Proof.
  intros Hg Hs Hh Hc Hv.
  set (r := spread (currentConsent s) (own_props c)).
  assert (canonical (JObj r)) as Hcr by (apply spread_canonical; assumption).
  assert (headed r) as Hhr by (apply spread_headed, Hh).
  assert (localStorage (saveConsent c s) !! STORAGE_KEY
          = Some (stringify (JObj r))) as Hst.
  { rewrite saveConsent_storage by exact Hs. apply lookup_insert_eq. }
  assert (getItem_throws (saveConsent c s) = false) as Hg'.
  { unfold saveConsent. rewrite Hs. exact Hg. }
  assert (String.eqb (stringify (JObj r)) "" = false) as Hne by reflexivity.
  pose proof (parse_stringify (JObj r) Hcr) as Hp.
  pose proof (proj1 (proj1 (canonical_obj r) Hcr)) as Hnd.
  unfold loadConsent, reload, page. cbn [getItem_throws localStorage].
  rewrite Hg', Hst, Hne, Hp. apply spread_default; assumption.
Qed.

(** X6. With a working storage, and a record in memory that is headed
    by the three categories and holds no fractional number and no
    repeated key, a pushed record whose values are of that kind survives
    a reload, a partial record and one with further keys included: the
    record the next page loads is the record in memory after the
    update. *)
Theorem update_survives_reload :
  forall (consent : json) (s : state) (next : markup),
    getItem_throws s = false ->
    setItem_throws s = false ->
    headed (currentConsent s) ->
    canonical (JObj (currentConsent s)) ->
    Forall (fun kv => canonical (snd kv)) (own_props consent) ->
    currentConsent (loadConsent (reload (saveConsent consent s) next))
    = currentConsent (saveConsent consent s).
Proof.
  intros consent s next Hg Hs Hh Hc Hv.
  rewrite saveConsent_consent. apply saved_record_reloads; assumption.
Qed.

Lemma update_survives_reload_witness :
  let s := page (Markup (Some true) (Some true) true (Some false) (Some false)
                        []) ∅ ∅ false false in
  let consent := JObj [("analytics", JBool true);
                       ("region", JStr "EU"); ("version", JNum 2)] in
  currentConsent
    (loadConsent
       (reload (saveConsent consent s) (Markup None None false None None [])))
  = currentConsent (saveConsent consent s).
Proof.
  intros s consent.
  assert (headed (currentConsent s)) as Hh
    by (do 4 eexists; reflexivity).
  assert (canonical (JObj (currentConsent s))) as Hc.
  { apply canonical_obj. split; [|repeat constructor].
    apply (bool_decide_unpack _). reflexivity. }
  assert (Forall (fun kv => canonical (snd kv)) (own_props consent)) as Hv
    by (repeat constructor).
  exact (update_survives_reload consent s (Markup None None false None None [])
           eq_refl eq_refl Hh Hc Hv).
Defined.

Lemma loadConsent_page s :
  cookieBanner (loadConsent s) = cookieBanner s
  /\ cookieModal (loadConsent s) = cookieModal s
  /\ cookieSettingsButton (loadConsent s) = cookieSettingsButton s
  /\ localStorage (loadConsent s) = localStorage s
  /\ cookies (loadConsent s) = cookies s
  /\ getItem_throws (loadConsent s) = getItem_throws s
  /\ setItem_throws (loadConsent s) = setItem_throws s
  /\ inserted (loadConsent s) = inserted s.
Proof.
  unfold loadConsent. destruct (getItem_throws s) eqn:Hg;
    [cbn; rewrite Hg; auto 10|].
  destruct (localStorage s !! STORAGE_KEY) as [stored|];
    [|cbn; rewrite Hg; auto 10].
  destruct (String.eqb stored ""); [cbn; rewrite Hg; auto 10|].
  destruct (parse stored); cbn; rewrite Hg; auto 10.
Qed.

Lemma loadConsent_boxes s :
  analyticsCheckbox (loadConsent s)
  = (fun _ => truthy (get (currentConsent (loadConsent s)) CONSENT_ANALYTICS))
      <$> analyticsCheckbox s
  /\ marketingCheckbox (loadConsent s)
     = (fun _ =>
          truthy (get (currentConsent (loadConsent s)) CONSENT_MARKETING))
         <$> marketingCheckbox s.
Proof.
  unfold loadConsent. destruct (getItem_throws s); [split; reflexivity|].
  destruct (localStorage s !! STORAGE_KEY) as [stored|];
    [|split; reflexivity].
  destruct (String.eqb stored ""); [split; reflexivity|].
  destruct (parse stored); split; reflexivity.
Qed.

Lemma gated_count (d : list script) :
  (0 <? Z.of_nat (length (filter (fun x => is_gated x = true) d)))
  = existsb is_gated d.
Proof.
  induction d as [|x d IH]; [reflexivity|].
  rewrite filter_cons. simpl. destruct (is_gated x) eqn:Hx.
  - rewrite decide_True by reflexivity. reflexivity.
  - rewrite decide_False by discriminate. exact IH.
Qed.

Lemma init_present s b md :
  cookieBanner s = Some b -> cookieModal s = Some md ->
  cookieSettingsButton s = true ->
  let l := loadConsent s in
  let shown :=
    if truthy (get (currentConsent l) CONSENT_ANALYTICS)
       || truthy (get (currentConsent l) CONSENT_MARKETING)
    then false else existsb is_gated (document s) in
  currentConsent (init s) = currentConsent l
  /\ cookieBanner (init s) = Some (if shown then false else b)
  /\ cookieModal (init s) = Some md
  /\ document (init s) = resolve l <$> document s
  /\ analyticsCheckbox (init s) = analyticsCheckbox l
  /\ marketingCheckbox (init s) = marketingCheckbox l.
Proof.
  intros Hb Hm Hbtn l shown. unfold init. rewrite Hb, Hm, Hbtn.
  fold l.
  destruct (loadConsent_page s) as (Hlb & Hlm & _).
  pose proof (loaded_document s) as Hld.
  fold l in Hlb, Hlm, Hld.
  assert (shouldShowBanner l = shown) as Hshow.
  { unfold shouldShowBanner, shown.
    destruct (truthy (get (currentConsent l) CONSENT_ANALYTICS)
              || truthy (get (currentConsent l) CONSENT_MARKETING));
      [reflexivity|].
    rewrite Hld. apply gated_count. }
  rewrite Hshow. clearbody shown. clearbody l.
  destruct shown.
  - cbn [processGatedScripts showBanner with_banner with_document
           currentConsent cookieBanner cookieModal document
           analyticsCheckbox marketingCheckbox].
    rewrite Hlb, Hb, Hlm, Hm, Hld. repeat split.
  - cbn [processGatedScripts with_document
           currentConsent cookieBanner cookieModal document
           analyticsCheckbox marketingCheckbox].
    rewrite Hlb, Hb, Hlm, Hm, Hld. repeat split.
Qed.

(** X7. [init] does nothing on a page that lacks the banner, the dialog
    or the settings button. On any other page it leaves the dialog alone
    and shows the banner exactly when the loaded record holds no truthy
    [analytics] or [marketing] and the page has a placeholder; it never
    hides a banner the markup shows. *)
Theorem banner_shown_only_when_needed :
  forall (m : markup) (storage jar : gmap string string)
         (get_throws set_throws : bool),
    let p := page m storage jar get_throws set_throws in
    let r := currentConsent (loadConsent p) in
    (banner m = None \/ modal m = None \/ settings_button m = false ->
     init p = p)
    /\ (forall b md,
          banner m = Some b -> modal m = Some md ->
          settings_button m = true ->
          currentConsent (init p) = r
          /\ cookieModal (init p) = Some md
          /\ cookieBanner (init p)
             = Some (if truthy (get r CONSENT_ANALYTICS)
                        || truthy (get r CONSENT_MARKETING)
                     then b
                     else if existsb is_gated (scripts m) then false else b)).
Proof.
  intros m storage jar gt st p r. split.
  - intros H. unfold init, p, page.
    cbn [cookieBanner cookieModal cookieSettingsButton].
    destruct H as [-> | [-> | ->]]; [reflexivity| |].
    + destruct (banner m); reflexivity.
    + destruct (banner m), (modal m); reflexivity.
  - intros b md Hb Hm Hbtn.
    destruct (init_present p b md Hb Hm Hbtn) as (H1 & H2 & H3 & _).
    repeat split; [exact H1 | exact H3|].
    rewrite H2. fold r.
    destruct (truthy (get r CONSENT_ANALYTICS)
              || truthy (get r CONSENT_MARKETING)); reflexivity.
Qed.

(** A stored record whose numerals are read as zero holds no truthy
    value: the banner is shown. *)
Lemma banner_shown_only_when_needed_witness :
  let gated := Script [("type", "text/plain");
                       ("data-cookie-category", "analytics")] "count()" in
  let m := Markup (Some true) (Some true) true (Some true) (Some true)
                  [gated] in
  let text := stringify (JObj [ ("analytics", JReal "1e-400");
                                ("marketing", JReal "0.0") ]) in
  let p := page m {[ STORAGE_KEY := text ]} ∅ false false in
  get (currentConsent (loadConsent p)) CONSENT_ANALYTICS
  = Some (JReal "1e-400")
  /\ get (currentConsent (loadConsent p)) CONSENT_MARKETING
     = Some (JReal "0.0")
  /\ cookieBanner (init p) = Some false.
Proof.
  intros gated m text p.
  split; [vm_compute; reflexivity|]. split; [vm_compute; reflexivity|].
  destruct (proj2 (banner_shown_only_when_needed
                     m {[ STORAGE_KEY := text ]} ∅ false false)
              true true eq_refl eq_refl eq_refl) as (_ & _ & H).
  fold p in H. rewrite H. vm_compute. reflexivity.
Defined.

Lemma choice_replayed a m s next b md :
  getItem_throws s = false -> setItem_throws s = false ->
  headed (currentConsent s) -> canonical (JObj (currentConsent s)) ->
  banner next = Some b -> modal next = Some md ->
  settings_button next = true ->
  let s' := init (reload (saveConsent (consent_of a m) s) next) in
  currentConsent s' = currentConsent (saveConsent (consent_of a m) s)
  /\ cookieBanner s'
     = Some (if a || m then b
             else if existsb is_gated (scripts next) then false else b)
  /\ (forall i p,
        scripts next !! i = Some p -> is_gated p = true ->
        document s' !! i
        = Some (if granted_by a m s (category p) then activate p else p))
  /\ analyticsCheckbox s' = (fun _ => a) <$> analytics_box next
  /\ marketingCheckbox s' = (fun _ => m) <$> marketing_box next.
Proof.
  intros Hg Hs Hh Hc Hb Hm Hbtn s'. subst s'.
  set (saved := saveConsent (consent_of a m) s).
  set (p := reload saved next).
  assert (currentConsent (loadConsent p) = currentConsent saved) as Hr.
  { unfold p, saved. rewrite saveConsent_consent.
    apply saved_record_reloads; try assumption. repeat constructor. }
  assert (currentConsent saved
          = spread (currentConsent s) (own_props (consent_of a m))) as Hsp
    by apply saveConsent_consent.
  assert (get (currentConsent saved) CONSENT_ANALYTICS = Some (JBool a)) as Ha.
  { rewrite Hsp. unfold spread, consent_of, own_props. cbn [fold_left fst snd].
    rewrite get_set_ne by discriminate. apply get_set_eq. }
  assert (get (currentConsent saved) CONSENT_MARKETING = Some (JBool m)) as Hk.
  { rewrite Hsp. unfold spread, consent_of, own_props. cbn [fold_left fst snd].
    apply get_set_eq. }
  destruct (init_present p b md Hb Hm Hbtn)
    as (H1 & H2 & _ & H4 & H5 & H6).
  destruct (loadConsent_boxes p) as [Hba Hbm].
  rewrite Hr in *. rewrite Ha, Hk in *. cbn [truthy] in *.
  repeat split.
  - exact H1.
  - rewrite H2. destruct (a || m); reflexivity.
  - intros i x Hi Hx. rewrite H4. rewrite list_lookup_fmap.
    change (document p) with (scripts next). rewrite Hi.
    cbn [fmap option_fmap option_map].
    unfold resolve. rewrite Hx. cbn [andb].
    rewrite (isAllowed_after_choice a m s (loadConsent p));
      [reflexivity|]. rewrite Hr. exact Hsp.
  - rewrite H5. exact Hba.
  - rewrite H6. exact Hbm.
Qed.

(** X8. After accept-all, with a working storage and a record in
    memory that is headed by the three categories and holds no fractional
    number and no repeated key, the next page loads the same record, does
    not show the banner, activates every placeholder of the three
    categories and ticks both boxes. *)
Theorem accepted_choice_replayed :
  forall (s : state) (next : markup) (b md : bool),
    getItem_throws s = false ->
    setItem_throws s = false ->
    headed (currentConsent s) ->
    canonical (JObj (currentConsent s)) ->
    banner next = Some b ->
    modal next = Some md ->
    settings_button next = true ->
    let s' := init (reload (acceptAll s) next) in
    currentConsent s' = currentConsent (acceptAll s)
    /\ cookieBanner s' = Some b
    /\ (forall i p,
          scripts next !! i = Some p -> is_gated p = true ->
          category p = CONSENT_NECESSARY \/ category p = CONSENT_ANALYTICS
          \/ category p = CONSENT_MARKETING ->
          document s' !! i = Some (activate p))
    /\ analyticsCheckbox s' = (fun _ => true) <$> analytics_box next
    /\ marketingCheckbox s' = (fun _ => true) <$> marketing_box next.
Proof.
  intros s next b md Hg Hs Hh Hc Hb Hm Hbtn s'.
  destruct (choice_replayed true true s next b md Hg Hs Hh Hc Hb Hm Hbtn)
    as (H1 & H2 & H3 & H4 & H5).
  repeat split; [exact H1 | exact H2 | | exact H4 | exact H5].
  intros i p Hi Hp Hcat.
  change (document s' !! i) with
    (document (init (reload (saveConsent (consent_of true true) s) next))
       !! i).
  rewrite (H3 i p Hi Hp). unfold granted_by.
  destruct Hcat as [-> | [-> | ->]]; reflexivity.
Qed.

Lemma accepted_choice_replayed_witness :
  let p := Script [("type", "text/plain");
                   ("data-cookie-category", "marketing")] "track()" in
  let s := page (Markup (Some false) (Some true) true (Some false)
                        (Some false) [p]) ∅ ∅ false false in
  let next := Markup (Some true) (Some true) true (Some false) (Some false)
                     [p] in
  cookieBanner (init (reload (acceptAll s) next)) = Some true.
Proof.
  intros p s next.
  assert (headed (currentConsent s)) as Hh
    by (do 4 eexists; reflexivity).
  assert (canonical (JObj (currentConsent s))) as Hc.
  { apply canonical_obj. split; [|repeat constructor].
    apply (bool_decide_unpack _). reflexivity. }
  exact (proj1 (proj2 (accepted_choice_replayed s next true true
                         eq_refl eq_refl Hh Hc eq_refl eq_refl eq_refl))).
Defined.

(** X9. After reject-non-essential, under the same conditions, the
    next page loads the same record and shows the banner again whenever
    it has a placeholder; its analytics and marketing placeholders stay
    inert. *)
Theorem rejection_asked_again :
  forall (s : state) (next : markup) (b md : bool),
    getItem_throws s = false ->
    setItem_throws s = false ->
    headed (currentConsent s) ->
    canonical (JObj (currentConsent s)) ->
    banner next = Some b ->
    modal next = Some md ->
    settings_button next = true ->
    let s' := init (reload (rejectNonEssential s) next) in
    currentConsent s' = currentConsent (rejectNonEssential s)
    /\ cookieBanner s'
       = Some (if existsb is_gated (scripts next) then false else b)
    /\ (forall i p,
          scripts next !! i = Some p -> is_gated p = true ->
          category p = CONSENT_ANALYTICS \/ category p = CONSENT_MARKETING ->
          document s' !! i = Some p).
Proof.
  intros s next b md Hg Hs Hh Hc Hb Hm Hbtn s'.
  destruct (choice_replayed false false s next b md Hg Hs Hh Hc Hb Hm Hbtn)
    as (H1 & H2 & H3 & _).
  repeat split; [exact H1 | exact H2 |].
  intros i p Hi Hp Hcat.
  change (document s' !! i) with
    (document (init (reload (saveConsent (consent_of false false) s) next))
       !! i).
  rewrite (H3 i p Hi Hp). unfold granted_by.
  destruct Hcat as [-> | ->]; reflexivity.
Qed.

Lemma rejection_asked_again_witness :
  let p := Script [("type", "text/plain");
                   ("data-cookie-category", "marketing")] "track()" in
  let s := page (Markup (Some false) (Some true) true (Some false)
                        (Some false) [p]) ∅ ∅ false false in
  let next := Markup (Some true) (Some true) true (Some false) (Some false)
                     [p] in
  cookieBanner (init (reload (rejectNonEssential s) next))
  = Some (if existsb is_gated (scripts next) then false else true).
Proof.
  intros p s next.
  assert (headed (currentConsent s)) as Hh
    by (do 4 eexists; reflexivity).
  assert (canonical (JObj (currentConsent s))) as Hc.
  { apply canonical_obj. split; [|repeat constructor].
    apply (bool_decide_unpack _). reflexivity. }
  exact (proj1 (proj2 (rejection_asked_again s next true true
                         eq_refl eq_refl Hh Hc eq_refl eq_refl eq_refl))).
Defined.


(** *** The cookie and the storage *)









(** *** A storage that cannot be written *)

Lemma saveConsent_unwritable c s :
  setItem_throws s = true ->
  localStorage (saveConsent c s) = localStorage s
  /\ cookies (saveConsent c s) = cookies s
  /\ setItem_throws (saveConsent c s) = true
  /\ getItem_throws (saveConsent c s) = getItem_throws s.
Proof.
  unfold saveConsent. intros H. rewrite H.
  cbn [with_consent localStorage cookies setItem_throws getItem_throws].
  auto.
Qed.

Lemma step_unwritable o s :
  own_write o = true -> setItem_throws s = true ->
  localStorage (step o s) = localStorage s
  /\ cookies (step o s) = cookies s
  /\ setItem_throws (step o s) = true
  /\ getItem_throws (step o s) = getItem_throws s.
Proof.
  intros Ho H. destruct o; try discriminate; cbn [step].
  - destruct (loadConsent_page s) as (_ & _ & _ & -> & -> & -> & -> & _).
    auto.
  - apply (saveConsent_unwritable (consent_of true true) s H).
  - apply (saveConsent_unwritable (consent_of false false) s H).
  - apply (saveConsent_unwritable
             (consent_of (default false (analyticsCheckbox s))
                         (default false (marketingCheckbox s))) s H).
  - auto.
  - apply saveConsent_unwritable, H.
  - auto.
Qed.

Lemma run_unwritable ops s :
  Forall (fun o => own_write o = true) ops -> setItem_throws s = true ->
  localStorage (run ops s) = localStorage s
  /\ cookies (run ops s) = cookies s
  /\ setItem_throws (run ops s) = true
  /\ getItem_throws (run ops s) = getItem_throws s.
Proof.
  revert s. induction ops as [|o ops IH]; intros s Hops H; [auto|].
  apply Forall_cons in Hops as [Ho Hops]. rewrite run_cons.
  destruct (step_unwritable o s Ho H) as (H1 & H2 & H3 & H4).
  destruct (IH (step o s) Hops H3) as (I1 & I2 & I3 & I4).
  rewrite I1, I2, I3, I4. auto.
Qed.

(** X11. When [setItem] throws, no operation of the manager changes the
    storage or the cookie, so the next page starts as if nothing had been
    chosen. In memory the record is merged all the same, and accept-all
    still activates the analytics and marketing placeholders of the
    current page. *)
Theorem unsaved_choice_lasts_one_page :
  forall (ops : list op) (s : state) (next : markup),
    setItem_throws s = true ->
    Forall (fun o => own_write o = true) ops ->
    localStorage (run ops s) = localStorage s
    /\ cookies (run ops s) = cookies s
    /\ reload (run ops s) next = reload s next
    /\ (forall consent,
          currentConsent (saveConsent consent (run ops s))
          = spread (currentConsent (run ops s)) (own_props consent))
    /\ (forall i p,
          document (run ops s) !! i = Some p -> is_gated p = true ->
          category p = CONSENT_ANALYTICS \/ category p = CONSENT_MARKETING ->
          document (acceptAll (run ops s)) !! i = Some (activate p)).
Proof.
  intros ops s next H Hops.
  destruct (run_unwritable ops s Hops H) as (H1 & H2 & H3 & H4).
  repeat split; [exact H1 | exact H2 | | |].
  - unfold reload. rewrite H1, H2, H3, H4, H. reflexivity.
  - intros consent. apply saveConsent_consent.
  - intros i p Hi Hp Hcat. unfold acceptAll.
    rewrite (choice_resolves true true _ i p Hi Hp). unfold granted_by.
    destruct Hcat as [-> | ->]; reflexivity.
Qed.

Lemma unsaved_choice_lasts_one_page_witness :
  let p := Script [("type", "text/plain");
                   ("data-cookie-category", "analytics")] "count()" in
  let m := Markup (Some false) (Some true) true (Some false) (Some false)
                  [p] in
  let s := page m ∅ ∅ false true in
  reload (run [Load; AcceptAll] s) m = reload s m.
Proof.
  intros p m s.
  assert (Forall (fun o => own_write o = true) [Load; AcceptAll]) as Hops
    by (repeat constructor).
  exact (proj1 (proj2 (proj2
    (unsaved_choice_lasts_one_page [Load; AcceptAll] s m eq_refl Hops)))).
Defined.

(** *** The boxes of the preferences dialog *)

Lemma choice_record a m s :
  let r := currentConsent
             (processGatedScripts
                (hideModal (hideBanner (saveConsent (consent_of a m) s)))) in
  get r CONSENT_NECESSARY = Some (JBool true)
  /\ get r CONSENT_ANALYTICS = Some (JBool a)
  /\ get r CONSENT_MARKETING = Some (JBool m).
Proof.
  intros r. unfold r. rewrite button_consent.
  unfold spread, consent_of, own_props. cbn [fold_left fst snd].
  repeat split.
  - rewrite !get_set_ne by discriminate. apply get_set_eq.
  - rewrite get_set_ne by discriminate. apply get_set_eq.
  - apply get_set_eq.
Qed.

(** X12. [loadConsent] sets each box of the dialog to the truthiness of
    the loaded value. [savePreferences] stores [necessary: true] and, for
    each optional category, what its box shows, [false] when the box is
    absent; saving the dialog as the load filled it in stores the
    truthiness of the loaded value as a boolean. *)
Theorem preferences_follow_the_boxes :
  forall (s : state) (a m : bool),
    let loaded := loadConsent s in
    let saved := savePreferences (step (Tick a m) s) in
    analyticsCheckbox loaded
    = (fun _ => truthy (get (currentConsent loaded) CONSENT_ANALYTICS))
        <$> analyticsCheckbox s
    /\ marketingCheckbox loaded
       = (fun _ => truthy (get (currentConsent loaded) CONSENT_MARKETING))
           <$> marketingCheckbox s
    /\ get (currentConsent saved) CONSENT_NECESSARY = Some (JBool true)
    /\ get (currentConsent saved) CONSENT_ANALYTICS
       = Some (JBool (match analyticsCheckbox s with
                      | Some _ => a
                      | None => false
                      end))
    /\ get (currentConsent saved) CONSENT_MARKETING
       = Some (JBool (match marketingCheckbox s with
                      | Some _ => m
                      | None => false
                      end))
    /\ get (currentConsent (savePreferences loaded)) CONSENT_ANALYTICS
       = Some (JBool (match analyticsCheckbox s with
                      | Some _ =>
                          truthy (get (currentConsent loaded)
                                      CONSENT_ANALYTICS)
                      | None => false
                      end)).
Proof.
  intros s a m loaded saved.
  destruct (loadConsent_boxes s) as [Ha Hm]. fold loaded in Ha, Hm.
  split; [exact Ha|]. split; [exact Hm|].
  unfold saved, savePreferences.
  destruct (choice_record
              (default false (analyticsCheckbox (step (Tick a m) s)))
              (default false (marketingCheckbox (step (Tick a m) s)))
              (step (Tick a m) s)) as (H1 & H2 & H3).
  split; [exact H1|]. split; [|split].
  - rewrite H2. cbn [step with_checkboxes analyticsCheckbox].
    destruct (analyticsCheckbox s); reflexivity.
  - rewrite H3. cbn [step with_checkboxes marketingCheckbox].
    destruct (marketingCheckbox s); reflexivity.
  - destruct (choice_record
                (default false (analyticsCheckbox loaded))
                (default false (marketingCheckbox loaded)) loaded)
      as (_ & H2' & _).
    rewrite H2', Ha. destruct (analyticsCheckbox s); reflexivity.
Qed.

(** A stored numeral that is read as zero unticks its box, and one that
    is not ticks it. *)
Lemma preferences_follow_the_boxes_witness :
  let m := Markup (Some true) (Some true) true (Some true) (Some false)
                  [] in
  let text := stringify (JObj [ ("analytics", JReal "1e-400");
                                ("marketing", JReal "5e-324") ]) in
  let p := page m {[ STORAGE_KEY := text ]} ∅ false false in
  analyticsCheckbox (loadConsent p) = Some false
  /\ marketingCheckbox (loadConsent p) = Some true.
Proof.
  intros m text p.
  destruct (preferences_follow_the_boxes p false false)
    as (Ha & Hm & _).
  rewrite Ha, Hm. split; vm_compute; reflexivity.
Defined.

(** *** What a load can grant *)

Lemma get_spread_in a b k v :
  get (spread a b) k = Some v -> (k, v) ∈ b \/ get a k = Some v.
Proof.
  revert a. induction b as [|[k0 v0] b IH]; intros a H; [right; exact H|].
  change (spread a ((k0, v0) :: b)) with (spread (JS.set a k0 v0) b) in H.
  destruct (IH _ H) as [Hin|Hg].
  - left. right. exact Hin.
  - destruct (String.eqb_spec k0 k) as [->|Hne].
    + rewrite get_set_eq in Hg. injection Hg as ->. left. left.
    + rewrite get_set_ne in Hg by exact Hne. right. exact Hg.
Qed.

Lemma is_true_get r cat :
  is_true (get r cat) = true -> get r cat = Some (JBool true).
Proof.
  destruct (get r cat) as [[| [|] | | | | |]|]; try discriminate.
  reflexivity.
Qed.

Lemma default_grants_nothing cat :
  cat <> CONSENT_NECESSARY -> is_true (get default_consent cat) = false.
Proof.
  intros Hn. unfold default_consent. cbn [get].
  destruct (String.eqb_spec CONSENT_NECESSARY cat) as [E|_];
    [symmetry in E; contradiction|].
  destruct (String.eqb CONSENT_ANALYTICS cat); [reflexivity|].
  destruct (String.eqb CONSENT_MARKETING cat); reflexivity.
Qed.

(** X13. On a fresh page a load allows a category other than
    [necessary] only when the stored item parses to a value that holds
    [true] under that category: a missing, unreadable or tampered item
    that does not say so grants nothing. *)
Theorem load_grants_only_what_is_stored :
  forall (m : markup) (storage jar : gmap string string)
         (get_throws set_throws : bool) (cat : string),
    isAllowed (loadConsent (page m storage jar get_throws set_throws)) cat
    = true ->
    cat = CONSENT_NECESSARY
    \/ exists text v,
         get_throws = false
         /\ storage !! STORAGE_KEY = Some text
         /\ parse text = Some v
         /\ (cat, JBool true) ∈ own_props v.
Proof.
  intros m storage jar gt st cat H. unfold isAllowed in H.
  destruct (String.eqb_spec cat CONSENT_NECESSARY) as [E|Hn];
    [left; exact E|]. right.
  pose proof (default_grants_nothing cat Hn) as Hd.
  revert H. unfold loadConsent, page.
  cbn [getItem_throws localStorage currentConsent].
  destruct gt;
    [cbn [updateConsentUI with_checkboxes currentConsent]; congruence|].
  destruct (storage !! STORAGE_KEY) as [text|] eqn:Hst;
    [|cbn [updateConsentUI with_checkboxes currentConsent]; congruence].
  destruct (String.eqb text "");
    [cbn [updateConsentUI with_checkboxes currentConsent]; congruence|].
  destruct (parse text) as [v|] eqn:Hp;
    [|cbn [updateConsentUI with_checkboxes currentConsent]; congruence].
  cbn [updateConsentUI with_checkboxes with_consent currentConsent].
  intros H. apply is_true_get in H.
  destruct (get_spread_in _ _ _ _ H) as [Hin|Hg].
  - exists text, v. auto.
  - rewrite Hg in Hd. discriminate.
Qed.

Lemma load_grants_only_what_is_stored_witness :
  let text := "{" +:+ String dquote "analytics" +:+ String dquote ":true}" in
  let storage : gmap string string := {[ STORAGE_KEY := text ]} in
  let m := Markup (Some true) (Some true) true (Some false) (Some false) [] in
  isAllowed (loadConsent (page m storage ∅ false false)) CONSENT_ANALYTICS
  = true
  /\ (CONSENT_ANALYTICS = CONSENT_NECESSARY
      \/ exists text v,
           false = false
           /\ storage !! STORAGE_KEY = Some text
           /\ parse text = Some v
           /\ (CONSENT_ANALYTICS, JBool true) ∈ own_props v).
Proof.
  intros text storage m.
  assert (isAllowed (loadConsent (page m storage ∅ false false))
                    CONSENT_ANALYTICS = true) as H
    by (vm_compute; reflexivity).
  split; [exact H|].
  exact (load_grants_only_what_is_stored m storage ∅ false false
           CONSENT_ANALYTICS H).
Defined.

(** *** What runs, and how often *)

Lemma scan_counts s (d : list script) :
  (length (filter (fun x => is_gated x = true) (resolve s <$> d))
   + length (filter (fun x => is_gated x && isAllowed s (category x) = true)
                    d))%nat
  = length (filter (fun x => is_gated x = true) d).
Proof.
  induction d as [|x d IH]; [reflexivity|].
  assert (is_gated (resolve s x)
          = is_gated x && negb (isAllowed s (category x))) as Hr.
  { unfold resolve. destruct (is_gated x) eqn:Hx; cbn [andb];
      [|exact Hx].
    destruct (isAllowed s (category x));
      [apply activate_not_gated | exact Hx]. }
  rewrite fmap_cons, !filter_cons.
  destruct (is_gated x) eqn:Hx; [destruct (isAllowed s (category x)) eqn:Ha|].
  - rewrite (decide_False (P := is_gated (resolve s x) = true))
      by (rewrite Hr; discriminate).
    rewrite !decide_True by reflexivity. cbn [length]. lia.
  - rewrite (decide_True (P := is_gated (resolve s x) = true))
      by (rewrite Hr; reflexivity).
    rewrite decide_False by discriminate.
    rewrite decide_True by reflexivity. cbn [length]. lia.
  - rewrite (decide_False (P := is_gated (resolve s x) = true))
      by (rewrite Hr; discriminate).
    rewrite !decide_False by discriminate. exact IH.
Qed.

Lemma scan_balance s :
  (length (inserted (processGatedScripts s))
   + length (filter (fun x => is_gated x = true)
                    (document (processGatedScripts s))))%nat
  = (length (inserted s)
     + length (filter (fun x => is_gated x = true) (document s)))%nat.
Proof.
  cbn [processGatedScripts with_document inserted document].
  rewrite length_app, length_fmap.
  pose proof (scan_counts s (document s)). lia.
Qed.

Lemma scan_inserted s x :
  x ∈ inserted (processGatedScripts s) ->
  x ∈ inserted s
  \/ exists p, p ∈ document s /\ is_gated p = true /\ x = activate p.
Proof.
  cbn [processGatedScripts with_document inserted]. intros H.
  apply elem_of_app in H as [H|H]; [left; exact H|]. right.
  apply list_elem_of_fmap in H as (p & -> & Hp).
  apply list_elem_of_filter in Hp as [Hg Hp].
  exists p. split; [exact Hp|]. split; [|reflexivity].
  apply andb_true_iff in Hg as [Hg _]. exact Hg.
Qed.

Lemma saved_inserted c s :
  inserted (hideModal (hideBanner (saveConsent c s))) = inserted s.
Proof. unfold saveConsent. destruct (setItem_throws s); reflexivity. Qed.

Lemma loaded_inserted s : inserted (loadConsent s) = inserted s.
Proof.
  unfold loadConsent. destruct (getItem_throws s); [reflexivity|].
  destruct (localStorage s !! STORAGE_KEY) as [stored|]; [|reflexivity].
  destruct (String.eqb stored ""); [reflexivity|].
  destruct (parse stored); reflexivity.
Qed.

Lemma step_balance o s :
  (length (inserted (step o s))
   + length (filter (fun x => is_gated x = true) (document (step o s))))%nat
  = (length (inserted s)
     + length (filter (fun x => is_gated x = true) (document s)))%nat.
Proof.
  assert (forall s', document s' = document s -> inserted s' = inserted s ->
            (length (inserted (processGatedScripts s'))
             + length (filter (fun x => is_gated x = true)
                              (document (processGatedScripts s'))))%nat
            = (length (inserted s)
               + length (filter (fun x => is_gated x = true)
                                (document s)))%nat) as Hscan.
  { intros s' Hd Hi. rewrite scan_balance, Hd, Hi. reflexivity. }
  destruct o; cbn [step].
  - rewrite loaded_document, loaded_inserted. reflexivity.
  - apply Hscan; [apply saved_document | apply saved_inserted].
  - apply Hscan; [apply saved_document | apply saved_inserted].
  - apply Hscan; [apply saved_document | apply saved_inserted].
  - apply Hscan; reflexivity.
  - unfold saveConsent. destruct (setItem_throws s); reflexivity.
  - reflexivity.
  - reflexivity.
Qed.

Lemma step_inserted o s x :
  x ∈ inserted (step o s) ->
  x ∈ inserted s
  \/ exists p, p ∈ document s /\ is_gated p = true /\ x = activate p.
Proof.
  assert (forall s', document s' = document s -> inserted s' = inserted s ->
            x ∈ inserted (processGatedScripts s') ->
            x ∈ inserted s
            \/ exists p, p ∈ document s /\ is_gated p = true
                         /\ x = activate p) as Hscan.
  { intros s' Hd Hi H. apply scan_inserted in H. rewrite Hd, Hi in H.
    exact H. }
  destruct o; cbn [step].
  - rewrite loaded_inserted. auto.
  - apply Hscan; [apply saved_document | apply saved_inserted].
  - apply Hscan; [apply saved_document | apply saved_inserted].
  - apply Hscan; [apply saved_document | apply saved_inserted].
  - apply Hscan; reflexivity.
  - unfold saveConsent. destruct (setItem_throws s); auto.
  - auto.
  - auto.
Qed.

Lemma step_placeholders o s p :
  p ∈ document (step o s) -> is_gated p = true -> p ∈ document s.
Proof.
  intros Hp Hg. apply list_elem_of_lookup in Hp as [i Hi].
  assert (i < length (document s))%nat as Hlt.
  { rewrite <- (step_document_length o s). apply lookup_lt_Some in Hi.
    exact Hi. }
  apply lookup_lt_is_Some in Hlt as [y Hy].
  destruct (step_lookup o s i y Hy) as [H|[_ H]]; rewrite H in Hi;
    injection Hi as <-.
  - apply list_elem_of_lookup. exists i. exact Hy.
  - rewrite activate_not_gated in Hg. discriminate.
Qed.

(** X14. Whatever operations run, the number of nodes handed to
    [replaceChild] plus the number of placeholders left in the document
    stays the same, and every node handed over is the live script of a
    placeholder of the page: no placeholder runs twice. *)
Theorem placeholders_run_once :
  forall (ops : list op) (s : state),
    (length (inserted (run ops s))
     + length (filter (fun x => is_gated x = true) (document (run ops s))))%nat
    = (length (inserted s)
       + length (filter (fun x => is_gated x = true) (document s)))%nat
    /\ (forall x,
          x ∈ inserted (run ops s) ->
          x ∈ inserted s
          \/ exists p, p ∈ document s /\ is_gated p = true
                       /\ x = activate p).
Proof.
  intros ops. induction ops as [|o ops IH]; intros s; [auto|].
  rewrite run_cons. destruct (IH (step o s)) as [IH1 IH2]. split.
  - rewrite IH1. apply step_balance.
  - intros x Hx. destruct (IH2 x Hx) as [H|(p & Hp & Hg & ->)].
    + apply (step_inserted o s x H).
    + right. exists p. split; [|auto].
      apply (step_placeholders o s p Hp Hg).
Qed.

End ConsentFacts.

(** ** The contact form *)

Module ContactFacts.
Import JS JSFacts Contact.

(** *** The spam score *)

Lemma keyword_fold_shift keywords text a :
  fold_left
    (fun score keyword =>
       if includes text (toLowerCase keyword) then score + 20 else score)
    keywords a
  = a + keyword_points keywords text.
Proof.
  unfold keyword_points. revert a.
  induction keywords as [|k r IH]; intros a; simpl; [lia|].
  rewrite IH, (IH (if includes text (toLowerCase k) then 0 + 20 else 0)).
  destruct (includes text (toLowerCase k)); lia.
Qed.

Lemma keyword_points_cons k keywords text :
  keyword_points (k :: keywords) text
  = (if includes text (toLowerCase k) then 20 else 0)
    + keyword_points keywords text.
Proof.
  unfold keyword_points at 1. simpl. rewrite keyword_fold_shift.
  destruct (includes text (toLowerCase k)); reflexivity.
Qed.

Lemma keyword_points_nonneg keywords text : 0 <= keyword_points keywords text.
Proof.
  induction keywords as [|k r IH]; [reflexivity|].
  rewrite keyword_points_cons.
  destruct (includes text (toLowerCase k)); lia.
Qed.

Lemma heuristic_points_bounds t1 t2 s :
  0 <= heuristic_points t1 t2 s <= 115.
Proof.
  unfold heuristic_points.
  destruct (timeSpent t1 t2 s) as [t|];
    repeat match goal with
           | |- context [if ?b then _ else _] => destruct b
           end; lia.
Qed.

(** C10. For every combination of field values, start time and clock
    readings the spam score is defined and lies between 0 and 100; on an
    empty message the three ratio tests divide by a length of zero and add
    nothing. *)
Theorem spam_score_bounded :
  forall (t1 t2 : Z) (s : state),
    0 <= calculateSpamScore t1 t2 s <= 100
    /\ 0 <= calculateSpamScore t1 t2 (with_message EmptyString s) <= 100
    /\ (forall p num den,
          ratio_exceeds (count_char p (toLowerCase EmptyString))
                        (strlen (toLowerCase EmptyString)) num den = false).
Proof.
  assert (forall t1 t2 s, 0 <= calculateSpamScore t1 t2 s <= 100) as H.
  { intros t1 t2 s. unfold calculateSpamScore, raw_score.
    pose proof (keyword_points_nonneg (suspiciousKeywords FORM_CONFIG)
                  (allText s)).
    pose proof (heuristic_points_bounds t1 t2 s). lia. }
  intros t1 t2 s. repeat split; try apply H.
Qed.

(** *** The suspicious-content gate *)

Lemma allText_message_l s k :
  includes (toLowerCase (message s)) k = true -> includes (allText s) k = true.
Proof. intros H. unfold allText. apply includes_app_l. exact H. Qed.

Lemma suspicious_viagra s :
  includes (toLowerCase (message s)) "viagra" = true ->
  containsSuspiciousContent s = true.
Proof.
  intros H. unfold containsSuspiciousContent. apply existsb_exists.
  exists "viagra". split; [simpl; auto|].
  apply allText_message_l. exact H.
Qed.

Lemma checkRateLimit_fields now s :
  let s' := snd (checkRateLimit now s) in
  fullName s' = fullName s /\ email s' = email s /\ message s' = message s
  /\ honeypot s' = honeypot s /\ startTime s' = startTime s
  /\ notices s' = notices s /\ inserts s' = inserts s
  /\ isSubmitting s' = isSubmitting s /\ setItem_throws s' = setItem_throws s
  /\ consent s' = consent s /\ supabaseClient s' = supabaseClient s.
Proof.
  unfold checkRateLimit.
  destruct (_ <=? _); [simpl; tauto|].
  destruct (setItem_throws s) eqn:E; simpl; rewrite ?E; tauto.
Qed.

Lemma checkRateLimit_allText now s :
  allText (snd (checkRateLimit now s)) = allText s.
Proof.
  pose proof (checkRateLimit_fields now s) as (H1 & H2 & H3 & _).
  unfold allText. simpl in *. rewrite H1, H2, H3. reflexivity.
Qed.

Lemma checkRateLimit_suspicious now s :
  containsSuspiciousContent (snd (checkRateLimit now s))
  = containsSuspiciousContent s.
Proof.
  unfold containsSuspiciousContent. rewrite checkRateLimit_allText.
  reflexivity.
Qed.

(** Suspicious content never passes the gates, whatever the other fields
    and the clock. *)
Lemma suspicious_never_passes t_rate t_timing s :
  containsSuspiciousContent s = true ->
  fst (passAntiSpamChecks t_rate t_timing s) <> Some true.
Proof.
  intros H. unfold passAntiSpamChecks.
  destruct (match honeypot s with Some _ => _ | None => _ end);
    [simpl; discriminate|].
  pose proof (checkRateLimit_suspicious t_rate s) as Hs.
  destruct (checkRateLimit t_rate s) as [[[|]|] s1]; simpl in *;
    try discriminate.
  rewrite Hs, H. simpl. discriminate.
Qed.

Lemma passAntiSpamChecks_inserts t_rate t_timing s :
  inserts (snd (passAntiSpamChecks t_rate t_timing s)) = inserts s.
Proof.
  unfold passAntiSpamChecks.
  destruct (match honeypot s with Some _ => _ | None => _ end);
    [reflexivity|].
  pose proof (checkRateLimit_fields t_rate s) as Hf.
  destruct (checkRateLimit t_rate s) as [[[|]|] s1]; simpl in *;
    try tauto.
  destruct (containsSuspiciousContent s1); [simpl; tauto|].
  unfold checkFormTiming.
  destruct (startTime s1) as [[|c r]|]; simpl; try tauto.
  destruct (parseInt (String c r)) as [start|]; simpl; [|tauto].
  destruct (minTime <? t_timing - start); simpl; tauto.
Qed.

(** An attempt the gates do not pass sends nothing. *)
Lemma blocked_sends_nothing e s :
  fst (passAntiSpamChecks (t_rate e) (t_timing e) s) <> Some true ->
  inserts (handleSubmit e s) = inserts s.
Proof.
  intros H. unfold handleSubmit.
  destruct (isSubmitting s); [reflexivity|].
  pose proof (passAntiSpamChecks_inserts (t_rate e) (t_timing e) s) as Hi.
  destruct (passAntiSpamChecks (t_rate e) (t_timing e) s) as [[[|]|] s1];
    simpl in *; congruence.
Qed.

Lemma keywords_split :
  suspiciousKeywords FORM_CONFIG = "viagra" :: keywords_without "viagra".
Proof. reflexivity. Qed.

(** C6, as the script has it. When the message contains [viagra] in any
    mix of cases, the keyword adds 20 points to what the other keywords
    and heuristics add, so the score is that sum capped at 100 and at
    least 20; and the suspicious-content gate holds the submission back
    whatever the other fields hold: the gates never pass and nothing is
    sent. *)
Theorem viagra_scored_and_blocked :
  forall (s : state) (t1 t2 : Z),
    includes (toLowerCase (message s)) "viagra" = true ->
    raw_score (suspiciousKeywords FORM_CONFIG) t1 t2 s
    = raw_score (keywords_without "viagra") t1 t2 s + 20
    /\ calculateSpamScore t1 t2 s
       = Z.min (raw_score (keywords_without "viagra") t1 t2 s + 20) 100
    /\ 20 <= calculateSpamScore t1 t2 s
    /\ containsSuspiciousContent s = true
    /\ (forall t_rate t_timing,
          fst (passAntiSpamChecks t_rate t_timing s) <> Some true)
    /\ (forall e, inserts (handleSubmit e s) = inserts s).
Proof.
  intros s t1 t2 H.
  assert (raw_score (suspiciousKeywords FORM_CONFIG) t1 t2 s
          = raw_score (keywords_without "viagra") t1 t2 s + 20) as Hraw.
  { unfold raw_score. rewrite keywords_split, keyword_points_cons.
    change (toLowerCase "viagra") with "viagra".
    rewrite (allText_message_l s _ H). lia. }
  pose proof (suspicious_viagra s H) as Hs.
  repeat split.
  - exact Hraw.
  - unfold calculateSpamScore. rewrite Hraw. reflexivity.
  - unfold calculateSpamScore. rewrite Hraw.
    pose proof (keyword_points_nonneg (keywords_without "viagra") (allText s)).
    pose proof (heuristic_points_bounds t1 t2 s).
    unfold raw_score. lia.
  - exact Hs.
  - intros. apply suspicious_never_passes. exact Hs.
  - intros e. apply blocked_sends_nothing.
    apply suspicious_never_passes. exact Hs.
Qed.

Lemma viagra_scored_and_blocked_witness :
  let s := State false [] ∅ false (Some "1000") "Ann Lee" "ACTA"
             "ann@example.org" "" "Cheap VIAGRA for your fleet, order today"
             true (Some "") true [] [] all_errors in
  calculateSpamScore 9000 9000 s = 20
  /\ containsSuspiciousContent s = true
  /\ (forall e, inserts (handleSubmit e s) = inserts s).
Proof.
  intros s.
  destruct (viagra_scored_and_blocked s 9000 9000 eq_refl)
    as (_ & H2 & _ & H4 & _ & H6).
  split; [|split; assumption].
  rewrite H2. reflexivity.
Defined.

(** C6 as stated fails: the cap at 100 swallows the 20 points. With five
    other keywords in the message, the score is 100 with the token and 100
    with the token taken out of the message. *)
Lemma viagra_gap_capped :
  let s := State false [] ∅ false (Some "1000") "Ann Lee" "ACTA"
             "ann@example.org" ""
             "viagra cialis casino poker lottery winner" true (Some "") true
             [] [] all_errors in
  let s' := with_message (without_token 64 "viagra" (message s)) s in
  includes (toLowerCase (message s)) "viagra" = true
  /\ message s' = " cialis casino poker lottery winner"
  /\ calculateSpamScore 9000 9000 s = 100
  /\ calculateSpamScore 9000 9000 s' = 100
  /\ ~ (calculateSpamScore 9000 9000 s' + 20 <= calculateSpamScore 9000 9000 s).
Proof.
  vm_compute. repeat split; try reflexivity.
  intros H; apply H; reflexivity.
Qed.

(** *** The timing gate *)

Lemma show_uint_nonempty d : d <> Nil -> show_uint d <> EmptyString.
Proof. destruct d; simpl; congruence. Qed.

Lemma Number_toString_nonempty z : Number_toString z <> EmptyString.
Proof.
  unfold Number_toString. destruct z as [|p|p]; simpl; try discriminate.
  apply show_uint_nonempty, Unsigned.to_uint_nonnil.
Qed.

Lemma checkFormTiming_started now t s :
  startTime s = Some (Number_toString t) ->
  checkFormTiming now s = (minTime <? now - t, s).
Proof.
  intros H. unfold checkFormTiming. rewrite H.
  pose proof (Number_toString_nonempty t) as Hn.
  pose proof (parseInt_toString t) as Hp.
  destruct (Number_toString t) as [|c r]; [congruence|].
  rewrite Hp. reflexivity.
Qed.

Lemma passAntiSpamChecks_startTime t0 t_rate t_timing s :
  started t0 s ->
  startTime (snd (passAntiSpamChecks t_rate t_timing s)) = startTime s.
Proof.
  intros (t & Ht & _). unfold passAntiSpamChecks.
  destruct (match honeypot s with Some _ => _ | None => _ end);
    [reflexivity|].
  pose proof (checkRateLimit_fields t_rate s) as Hf.
  destruct (checkRateLimit t_rate s) as [[[|]|] s1]; simpl in *;
    try tauto.
  destruct (containsSuspiciousContent s1); [simpl; tauto|].
  rewrite (checkFormTiming_started t_timing t s1) by (rewrite <- Ht; tauto).
  destruct (minTime <? t_timing - t); simpl; tauto.
Qed.

Lemma reset_started t0 now s : t0 <= now -> started t0 (resetFormSafely now s).
Proof. intros H. exists now. split; [reflexivity | exact H]. Qed.

Lemma report_started t0 now m s :
  t0 <= now -> started t0 s -> started t0 (report now m s).
Proof.
  intros Hn Hs. unfold report.
  repeat match goal with
         | |- context [if ?b then _ else _] => destruct b
         end; first [ apply reset_started; exact Hn | exact Hs ].
Qed.

Lemma submit_started t0 e s :
  t0 <= t_reset e -> started t0 s -> started t0 (submit e s).
Proof.
  intros Hn Hs. unfold submit.
  destruct (answer e) as [|m|m].
  - apply reset_started; exact Hn.
  - destruct (shown_as_success _);
      [apply reset_started | apply report_started]; assumption.
  - destruct (shown_as_success _);
      [apply reset_started | apply report_started]; assumption.
Qed.

Lemma handleSubmit_started t0 e s :
  t0 <= t_reset e -> started t0 s -> started t0 (handleSubmit e s).
Proof.
  intros Hn Hs. unfold handleSubmit.
  destruct (isSubmitting s); [exact Hs|].
  pose proof (passAntiSpamChecks_startTime t0 (t_rate e) (t_timing e) s Hs)
    as Hst.
  assert (started t0 (snd (passAntiSpamChecks (t_rate e) (t_timing e) s)))
    as Hs1.
  { destruct Hs as (t & Ht & Hle). exists t. split; [congruence | exact Hle]. }
  destruct (passAntiSpamChecks (t_rate e) (t_timing e) s) as [[[|]|] s1];
    simpl in *; try exact Hs1.
  destruct (validateAllFields s1); simpl; [|exact Hs1].
  destruct (supabaseClient s1).
  - destruct (submit_started t0 e (with_submitting true s1) Hn Hs1)
      as (t & Ht & Hle).
    exists t. split; [exact Ht | exact Hle].
  - exists (t_reset e). split; [reflexivity | exact Hn].
Qed.

Lemma play_started t0 vs s :
  Forall (not_before t0) vs -> started t0 s -> started t0 (play vs s).
Proof.
  revert s. induction vs as [|v vs IH]; intros s Hv Hs; [exact Hs|].
  inversion Hv as [|? ? H1 H2]; subst. apply IH; [exact H2|].
  destruct v as [f|e]; simpl.
  - destruct Hs as (t & Ht & Hle). exists t. split; assumption.
  - apply handleSubmit_started; [apply H1 | exact Hs].
Qed.

(** C7. However the form was filled and submitted since it was rendered
    at [t0], an attempt made less than the minimum dwell time after [t0]
    is rejected by the timing gate: [checkFormTiming] answers [false], the
    gates do not pass and nothing is sent, whatever the fields hold. *)
Theorem dwell_time_gate :
  forall (s0 : state) (t0 : Z) (vs : list event) (now : Z),
    Forall (not_before t0) vs ->
    now - t0 < minTime ->
    let s := play vs (init t0 s0) in
    fst (checkFormTiming now s) = false
    /\ (forall t_rate, fst (passAntiSpamChecks t_rate now s) <> Some true)
    /\ (forall e, t_timing e = now -> inserts (handleSubmit e s) = inserts s).
Proof.
  intros s0 t0 vs now Hvs Hnow s.
  assert (started t0 s) as (t & Ht & Hle).
  { apply play_started; [exact Hvs|]. exists t0. split; [reflexivity | lia]. }
  assert (fst (checkFormTiming now s) = false) as Hgate.
  { rewrite (checkFormTiming_started now t s Ht). simpl.
    apply Z.ltb_ge. lia. }
  assert (forall t_rate, fst (passAntiSpamChecks t_rate now s) <> Some true)
    as Hpass.
  { intros t_rate. unfold passAntiSpamChecks.
    destruct (match honeypot s with Some _ => _ | None => _ end);
      [simpl; discriminate|].
    pose proof (checkRateLimit_fields t_rate s) as Hf.
    destruct (checkRateLimit t_rate s) as [[[|]|] s1]; simpl in *;
      try discriminate.
    destruct (containsSuspiciousContent s1); [simpl; discriminate|].
    rewrite (checkFormTiming_started now t s1) by (rewrite <- Ht; tauto).
    replace (minTime <? now - t) with false
      by (symmetry; apply Z.ltb_ge; lia).
    simpl. discriminate. }
  repeat split.
  - exact Hgate.
  - exact Hpass.
  - intros e He. apply blocked_sends_nothing. rewrite He. apply Hpass.
Qed.

Lemma dwell_time_gate_witness :
  let s0 := State false [] ∅ false None "Ann Lee" "ACTA" "ann@example.org"
              "" "Please send me a quote for type approval of a trailer."
              true (Some "") true [] [] all_errors in
  fst (checkFormTiming 2500 (play [] (init 1000 s0))) = false.
Proof.
  intros s0.
  apply (dwell_time_gate s0 1000 [] 2500); [constructor | reflexivity].
Defined.

(** *** The rate limiter *)

Lemma ledger_reset now s : ledger (resetFormSafely now s) = ledger s.
Proof. reflexivity. Qed.

Lemma ledger_report now m s : ledger (report now m s) = ledger s.
Proof.
  unfold report.
  repeat match goal with
         | |- context [if ?b then _ else _] => destruct b
         end; reflexivity.
Qed.

Lemma ledger_submit e s : ledger (submit e s) = ledger s.
Proof.
  unfold submit. destruct (answer e) as [|m|m]; [reflexivity| |];
    destruct (shown_as_success _);
    rewrite ?ledger_reset, ?ledger_report; reflexivity.
Qed.

Lemma ledger_checkFormTiming now s :
  ledger (snd (checkFormTiming now s)) = ledger s.
Proof.
  unfold checkFormTiming.
  destruct (startTime s) as [[|c r]|]; try reflexivity.
  destruct (parseInt (String c r)); reflexivity.
Qed.

Lemma honeypot_blank_guard s :
  honeypot_blank s = true ->
  match honeypot s with
  | Some v => negb (String.eqb (trim v) "")
  | None => false
  end = false.
Proof.
  unfold honeypot_blank. destruct (honeypot s); [|reflexivity].
  intros ->. reflexivity.
Qed.

(** Past the submitting guard and the honeypot, a run of the handler
    leaves in the ledger what [checkRateLimit] left there. *)
Lemma handleSubmit_ledger e s :
  isSubmitting s = false -> honeypot_blank s = true ->
  ledger (handleSubmit e s) = ledger (snd (checkRateLimit (t_rate e) s))
  /\ isSubmitting (handleSubmit e s) = false.
Proof.
  intros Hg Hh. unfold handleSubmit, passAntiSpamChecks.
  rewrite Hg, (honeypot_blank_guard s Hh).
  pose proof (checkRateLimit_fields (t_rate e) s) as Hf.
  destruct (checkRateLimit (t_rate e) s) as [[[|]|] s1]; simpl in *;
    [ | split; [reflexivity | rewrite <- Hg; tauto]
      | split; [reflexivity | rewrite <- Hg; tauto] ].
  assert (isSubmitting s1 = false) as Hg1 by (rewrite <- Hg; tauto).
  destruct (containsSuspiciousContent s1); [simpl; auto|].
  pose proof (ledger_checkFormTiming (t_timing e) s1) as Hl.
  assert (isSubmitting (snd (checkFormTiming (t_timing e) s1)) = false) as Hg2.
  { unfold checkFormTiming.
    destruct (startTime s1) as [[|c r]|]; try exact Hg1.
    destruct (parseInt (String c r)); exact Hg1. }
  destruct (checkFormTiming (t_timing e) s1) as [[|] s2]; simpl in *;
    [|auto].
  destruct (validateAllFields s2); simpl; [|auto].
  split; [|reflexivity].
  destruct (supabaseClient s2).
  - change (ledger (submit e (with_submitting true s2)) = ledger s1).
    rewrite ledger_submit. exact Hl.
  - exact Hl.
Qed.

Lemma handleSubmit_rate_limited e s :
  isSubmitting s = false -> honeypot_blank s = true ->
  fst (checkRateLimit (t_rate e) s) = Some false ->
  handleSubmit e s
  = showError (Some MSG_RATE) (snd (checkRateLimit (t_rate e) s)).
Proof.
  intros Hg Hh Hr. unfold handleSubmit, passAntiSpamChecks.
  rewrite Hg, (honeypot_blank_guard s Hh).
  destruct (checkRateLimit (t_rate e) s) as [[[|]|] s1]; simpl in *;
    try discriminate.
  reflexivity.
Qed.

Lemma checkRateLimit_verdict now s :
  setItem_throws s = false ->
  fst (checkRateLimit now s)
  = Some (Z.of_nat (length (prune now (submissionHistory s)))
          <? maxSubmissionsPerHour FORM_CONFIG).
Proof.
  intros Hs. unfold checkRateLimit. fold (prune now (submissionHistory s)).
  rewrite Hs, Z.ltb_antisym.
  destruct (_ <=? _); reflexivity.
Qed.

Lemma checkRateLimit_ledger now s :
  let pruned := prune now (submissionHistory s) in
  ledger (snd (checkRateLimit now s))
  = if maxSubmissionsPerHour FORM_CONFIG <=? Z.of_nat (length pruned)
    then (pruned, localStorage s, setItem_throws s)
    else if setItem_throws s
    then (pruned ++ [now], localStorage s, setItem_throws s)
    else (pruned ++ [now],
          <[HISTORY_KEY := history_text (pruned ++ [now])]> (localStorage s),
          setItem_throws s).
Proof.
  unfold checkRateLimit. fold (prune now (submissionHistory s)). simpl.
  destruct (_ <=? _); [reflexivity|].
  destruct (setItem_throws s) eqn:E; unfold ledger; simpl; rewrite E;
    reflexivity.
Qed.

Lemma prune_stale now h :
  Forall (fun t => t <= now - ONE_HOUR) h -> prune now h = [].
Proof.
  unfold prune, ONE_HOUR. induction 1 as [|t h Ht _ IH]; [reflexivity|].
  rewrite filter_cons, IH. destruct (decide _); [lia | reflexivity].
Qed.

Lemma prune_fresh now h :
  Forall (fun t => now - ONE_HOUR < t) h -> prune now h = h.
Proof.
  unfold prune, ONE_HOUR. induction 1 as [|t h Ht _ IH]; [reflexivity|].
  rewrite filter_cons, IH. destruct (decide _); [reflexivity | lia].
Qed.

(** After the gate has run, nothing in the history is an hour old. *)
Lemma pruned_window now h : Forall (fun t => now - ONE_HOUR < t) (prune now h).
Proof.
  apply Forall_forall. intros t Ht.
  apply list_elem_of_filter in Ht as [Ht _]. exact Ht.
Qed.

Lemma checkRateLimit_window now s :
  Forall (fun t => now - ONE_HOUR < t)
         (submissionHistory (snd (checkRateLimit now s))).
Proof.
  pose proof (checkRateLimit_ledger now s) as H. simpl in H.
  pose proof (pruned_window now (submissionHistory s)) as Hp.
  assert (Forall (fun t => now - ONE_HOUR < t)
                 (prune now (submissionHistory s) ++ [now])) as Hq.
  { apply Forall_app. split; [exact Hp|].
    constructor; [unfold ONE_HOUR; lia | constructor]. }
  unfold ledger in H.
  destruct (_ <=? _); [|destruct (setItem_throws s)];
    injection H as -> _ _; assumption.
Qed.

(** One filled-in attempt, seen from the ledger. *)
Lemma attempt_ledger f e s :
  isSubmitting s = false ->
  String.eqb (trim (typed_honeypot f)) "" = true ->
  ledger (play [Fill f; Submit e] s)
  = ledger (snd (checkRateLimit (t_rate e) (with_entries f s)))
  /\ isSubmitting (play [Fill f; Submit e] s) = false.
Proof.
  intros Hg Hf. apply handleSubmit_ledger; [exact Hg|].
  unfold honeypot_blank. simpl. destruct (honeypot s); simpl; auto.
Qed.

Lemma attempt_accepted f e s h :
  isSubmitting s = false -> setItem_throws s = false ->
  String.eqb (trim (typed_honeypot f)) "" = true ->
  prune (t_rate e) (submissionHistory s) = h ->
  (length h < 3)%nat ->
  fst (checkRateLimit (t_rate e) (with_entries f s)) = Some true
  /\ submissionHistory (play [Fill f; Submit e] s) = h ++ [t_rate e]
  /\ setItem_throws (play [Fill f; Submit e] s) = false
  /\ isSubmitting (play [Fill f; Submit e] s) = false
  /\ localStorage (play [Fill f; Submit e] s) !! HISTORY_KEY
     = Some (history_text (h ++ [t_rate e])).
Proof.
  intros Hg Hs Hf Hp Hlen.
  destruct (attempt_ledger f e s Hg Hf) as [Hl Hg'].
  change (play [Fill f; Submit e] s) with (handleSubmit e (with_entries f s))
    in *.
  pose proof (checkRateLimit_verdict (t_rate e) (with_entries f s) Hs) as Hv.
  pose proof (checkRateLimit_ledger (t_rate e) (with_entries f s)) as Hc.
  cbn zeta in Hc.
  change (submissionHistory (with_entries f s)) with (submissionHistory s)
    in Hv, Hc.
  change (setItem_throws (with_entries f s)) with (setItem_throws s) in Hc.
  rewrite Hp in Hv, Hc. rewrite Hs in Hc.
  change (maxSubmissionsPerHour FORM_CONFIG) with 3 in Hv, Hc.
  replace (3 <=? Z.of_nat (length h)) with false in Hc
    by (symmetry; apply Z.leb_gt; lia).
  replace (Z.of_nat (length h) <? 3) with true in Hv
    by (symmetry; apply Z.ltb_lt; lia).
  rewrite Hc in Hl. unfold ledger in Hl. injection Hl as H1 H2 H3.
  repeat split; try assumption.
  rewrite H2. apply lookup_insert_eq.
Qed.

Lemma attempt_rejected f e s h :
  isSubmitting s = false -> setItem_throws s = false ->
  String.eqb (trim (typed_honeypot f)) "" = true ->
  prune (t_rate e) (submissionHistory s) = h ->
  (3 <= length h)%nat ->
  fst (checkRateLimit (t_rate e) (with_entries f s)) = Some false
  /\ submissionHistory (play [Fill f; Submit e] s) = h
  /\ notices (play [Fill f; Submit e] s)
     = notices s ++ [Failure (Some MSG_RATE)]
  /\ inserts (play [Fill f; Submit e] s) = inserts s
  /\ localStorage (play [Fill f; Submit e] s) = localStorage s.
Proof.
  intros Hg Hs Hf Hp Hlen.
  change (play [Fill f; Submit e] s) with (handleSubmit e (with_entries f s)).
  pose proof (checkRateLimit_verdict (t_rate e) (with_entries f s) Hs) as Hv.
  pose proof (checkRateLimit_ledger (t_rate e) (with_entries f s)) as Hc.
  pose proof (checkRateLimit_fields (t_rate e) (with_entries f s)) as Hfl.
  cbn zeta in Hc, Hfl.
  change (submissionHistory (with_entries f s)) with (submissionHistory s)
    in Hv, Hc.
  rewrite Hp in Hv, Hc.
  change (maxSubmissionsPerHour FORM_CONFIG) with 3 in Hv, Hc.
  replace (3 <=? Z.of_nat (length h)) with true in Hc
    by (symmetry; apply Z.leb_le; lia).
  replace (Z.of_nat (length h) <? 3) with false in Hv
    by (symmetry; apply Z.ltb_ge; lia).
  unfold ledger in Hc. injection Hc as H1 H2 H3.
  assert (honeypot_blank (with_entries f s) = true) as Hb
    by (unfold honeypot_blank; simpl; destruct (honeypot s); simpl; auto).
  rewrite (handleSubmit_rate_limited e (with_entries f s) Hg Hb Hv).
  destruct Hfl as (_ & _ & _ & _ & _ & Hn & Hi & _).
  repeat split; simpl; try assumption.
  rewrite Hn. reflexivity.
Qed.

Lemma timestamps_nums h : timestamps (JArr (map JNum h)) = Some h.
Proof.
  simpl. induction h as [|t h IH]; [reflexivity|].
  simpl. rewrite IH. reflexivity.
Qed.

(** The history the gate wrote is the history the next page load starts
    with. *)
Lemma stored_history_written h storage :
  storage !! HISTORY_KEY = Some (history_text h) ->
  stored_history storage = Some h.
Proof.
  intros H. unfold stored_history. rewrite H.
  change (String.eqb (history_text h) "") with false. cbn iota.
  unfold history_text. rewrite parse_stringify.
  - simpl. apply timestamps_nums.
  - apply canonical_arr. apply Forall_forall. intros x Hx.
    apply list_elem_of_fmap in Hx as (t & -> & _). exact I.
Qed.

(** An attempt with a filled honeypot returns before the history is
    looked at. *)
Lemma handleSubmit_honeypot e s :
  honeypot_blank s = false ->
  submissionHistory (handleSubmit e s) = submissionHistory s.
Proof.
  intros Hb. unfold handleSubmit, passAntiSpamChecks.
  destruct (isSubmitting s); [reflexivity|].
  unfold honeypot_blank in Hb. destruct (honeypot s) as [v|];
    [|discriminate].
  rewrite Hb. reflexivity.
Qed.

(** C5, as the script has it. With three submissions allowed per hour,
    in a session with a storage that can be written and no attempt
    recorded in the hour before the first, four attempts with a blank
    honeypot made within one hour meet a rate-limit gate that accepts the
    first three and rejects the fourth with the rate-limit message,
    nothing being sent; the history then holds the three accepted
    timestamps, in memory and in the storage, from where the next page
    load reads them. In any session the gate accepts an attempt exactly
    when fewer than three timestamps of the hour before it are recorded;
    an attempt that reaches the gate ends with a history that holds no
    timestamp an hour old or older, and an attempt with a filled honeypot
    leaves the history as it was, unpruned. *)
Theorem rate_limit_three_per_hour :
  forall (s : state) (f1 f2 f3 f4 : entries) (e1 e2 e3 e4 : turn),
    isSubmitting s = false ->
    setItem_throws s = false ->
    Forall (fun t => t <= t_rate e1 - ONE_HOUR) (submissionHistory s) ->
    String.eqb (trim (typed_honeypot f1)) "" = true ->
    String.eqb (trim (typed_honeypot f2)) "" = true ->
    String.eqb (trim (typed_honeypot f3)) "" = true ->
    String.eqb (trim (typed_honeypot f4)) "" = true ->
    t_rate e1 <= t_rate e2 -> t_rate e2 <= t_rate e3 ->
    t_rate e3 <= t_rate e4 -> t_rate e4 - t_rate e1 < ONE_HOUR ->
    let s1 := play [Fill f1; Submit e1] s in
    let s2 := play [Fill f2; Submit e2] s1 in
    let s3 := play [Fill f3; Submit e3] s2 in
    let s4 := play [Fill f4; Submit e4] s3 in
    maxSubmissionsPerHour FORM_CONFIG = 3
    /\ fst (checkRateLimit (t_rate e1) (with_entries f1 s)) = Some true
    /\ fst (checkRateLimit (t_rate e2) (with_entries f2 s1)) = Some true
    /\ fst (checkRateLimit (t_rate e3) (with_entries f3 s2)) = Some true
    /\ fst (checkRateLimit (t_rate e4) (with_entries f4 s3)) = Some false
    /\ notices s4 = notices s3 ++ [Failure (Some MSG_RATE)]
    /\ inserts s4 = inserts s3
    /\ submissionHistory s1 = [t_rate e1]
    /\ submissionHistory s2 = [t_rate e1; t_rate e2]
    /\ submissionHistory s3 = [t_rate e1; t_rate e2; t_rate e3]
    /\ submissionHistory s4 = [t_rate e1; t_rate e2; t_rate e3]
    /\ stored_history (localStorage s4)
       = Some [t_rate e1; t_rate e2; t_rate e3]
    /\ (forall e s',
          isSubmitting s' = false -> honeypot_blank s' = true ->
          Forall (fun t => t_rate e - ONE_HOUR < t)
                 (submissionHistory (handleSubmit e s')))
    /\ (forall e s',
          honeypot_blank s' = false ->
          submissionHistory (handleSubmit e s') = submissionHistory s')
    /\ (forall now s',
          setItem_throws s' = false ->
          fst (checkRateLimit now s')
          = Some (Z.of_nat (length (prune now (submissionHistory s')))
                  <? 3)).
Proof.
  intros s f1 f2 f3 f4 e1 e2 e3 e4 Hg Hs Hold Hf1 Hf2 Hf3 Hf4
    H12 H23 H34 H41 s1 s2 s3 s4.
  destruct (attempt_accepted f1 e1 s [] Hg Hs Hf1
              (prune_stale _ _ Hold) ltac:(simpl; lia))
    as (A1 & Hh1 & Hs1 & Hg1 & _).
  fold s1 in Hh1, Hs1, Hg1. simpl in Hh1.
  assert (prune (t_rate e2) (submissionHistory s1) = [t_rate e1]) as P2.
  { rewrite Hh1. apply prune_fresh. repeat constructor. lia. }
  destruct (attempt_accepted f2 e2 s1 _ Hg1 Hs1 Hf2 P2 ltac:(simpl; lia))
    as (A2 & Hh2 & Hs2 & Hg2 & _).
  fold s2 in Hh2, Hs2, Hg2. simpl in Hh2.
  assert (prune (t_rate e3) (submissionHistory s2) = [t_rate e1; t_rate e2])
    as P3.
  { rewrite Hh2. apply prune_fresh. repeat constructor; lia. }
  destruct (attempt_accepted f3 e3 s2 _ Hg2 Hs2 Hf3 P3 ltac:(simpl; lia))
    as (A3 & Hh3 & Hs3 & Hg3 & Hl3).
  fold s3 in Hh3, Hs3, Hg3, Hl3. simpl in Hh3, Hl3.
  assert (prune (t_rate e4) (submissionHistory s3)
          = [t_rate e1; t_rate e2; t_rate e3]) as P4.
  { rewrite Hh3. apply prune_fresh. repeat constructor; lia. }
  destruct (attempt_rejected f4 e4 s3 _ Hg3 Hs3 Hf4 P4 ltac:(simpl; lia))
    as (A4 & Hh4 & Hn4 & Hi4 & Hl4).
  fold s4 in Hh4, Hn4, Hi4, Hl4.
  repeat split; try assumption.
  { apply stored_history_written. rewrite Hl4. exact Hl3. }
  { intros e s' Hg' Hb'.
    destruct (handleSubmit_ledger e s' Hg' Hb') as [Hl _].
    unfold ledger in Hl. injection Hl as -> _ _.
    apply checkRateLimit_window. }
  { intros e s' Hb'. apply handleSubmit_honeypot, Hb'. }
  intros now s' Hs'. apply checkRateLimit_verdict, Hs'.
Qed.

Lemma rate_limit_three_per_hour_witness :
  let f := Build_entries "Ann Lee" "ACTA" "ann@example.org" ""
             "Please send me a quote for type approval of a trailer." true ""
  in
  let e t := Build_turn t t t t t t t t Inserted in
  let s := init 0 (State false [5] ∅ false None "" "" "" "" "" false
                         (Some "") true [] [] all_errors) in
  let s1 := play [Fill f; Submit (e 3600005)] s in
  let s2 := play [Fill f; Submit (e 3600100)] s1 in
  let s3 := play [Fill f; Submit (e 3700000)] s2 in
  let s4 := play [Fill f; Submit (e 7200004)] s3 in
  fst (checkRateLimit (t_rate (e 7200004)) (with_entries f s3)) = Some false
  /\ notices s4 = notices s3 ++ [Failure (Some MSG_RATE)]
  /\ submissionHistory s4
     = [t_rate (e 3600005); t_rate (e 3600100); t_rate (e 3700000)].
Proof.
  intros f e s s1 s2 s3 s4.
  assert (Forall (fun t => t <= t_rate (e 3600005) - ONE_HOUR)
                 (submissionHistory s)) as Hold
    by (repeat constructor; vm_compute; discriminate).
  pose proof (rate_limit_three_per_hour s f f f f (e 3600005) (e 3600100)
                (e 3700000) (e 7200004) eq_refl eq_refl Hold eq_refl eq_refl
                eq_refl eq_refl) as H.
  destruct H as (_ & _ & _ & _ & H4 & Hn & _ & _ & _ & _ & Hh & _ & _);
    try (vm_compute; congruence).
  split; [exact H4 | split; [exact Hn | exact Hh]].
Defined.

(** C5 as stated fails. The gate counts the attempts recorded in the
    hour before, on whatever page they were made: on a page opened with
    one timestamp of five seconds before in the stored history, the third
    and the fourth of four attempts within one hour are rejected. And an
    attempt with a filled honeypot returns before the history is pruned:
    a timestamp more than an hour old is still recorded when it ends. *)
Lemma earlier_attempts_counted :
  let f h := Build_entries "Ann Lee" "ACTA" "ann@example.org" ""
               "Please send me a quote for type approval of a trailer." true
               h in
  let e t := Build_turn t t t t t t t t Inserted in
  let page h storage :=
    State false h storage false None "" "" "" "" "" false (Some "") true
          [] [] all_errors in
  let s := init 3005000 (page [3000000] {[ HISTORY_KEY := "[3000000]" ]}) in
  let s1 := play [Fill (f ""); Submit (e 3010000)] s in
  let s2 := play [Fill (f ""); Submit (e 3020000)] s1 in
  let s3 := play [Fill (f ""); Submit (e 3030000)] s2 in
  let s4 := play [Fill (f ""); Submit (e 3040000)] s3 in
  let stale := init 8000000 (page [5] {[ HISTORY_KEY := "[5]" ]}) in
  stored_history (localStorage s) = Some (submissionHistory s)
  /\ fst (checkRateLimit 3010000 (with_entries (f "") s)) = Some true
  /\ fst (checkRateLimit 3020000 (with_entries (f "") s1)) = Some true
  /\ fst (checkRateLimit 3030000 (with_entries (f "") s2)) = Some false
  /\ fst (checkRateLimit 3040000 (with_entries (f "") s3)) = Some false
  /\ notices s4 = [Success; Success; Failure (Some MSG_RATE);
                   Failure (Some MSG_RATE)]
  /\ length (inserts s4) = 2%nat
  /\ stored_history (localStorage stale) = Some (submissionHistory stale)
  /\ submissionHistory (play [Fill (f "bot"); Submit (e 9000000)] stale)
     = [5]
  /\ notices (play [Fill (f "bot"); Submit (e 9000000)] stale)
     = [Failure (Some MSG_HONEYPOT)]
  /\ 5 <= 9000000 - ONE_HOUR.
Proof. vm_compute. repeat split; try reflexivity; discriminate. Qed.

(** *** What a rejection leaves behind *)

Lemma passed_quietly t_rate t_timing s s1 :
  passAntiSpamChecks t_rate t_timing s = (Some true, s1) ->
  notices s1 = notices s /\ inserts s1 = inserts s
  /\ message s1 = message s.
Proof.
  unfold passAntiSpamChecks.
  destruct (match honeypot s with Some _ => _ | None => _ end);
    [discriminate|].
  pose proof (checkRateLimit_fields t_rate s) as Hf.
  destruct (checkRateLimit t_rate s) as [[[|]|] s0]; simpl in *;
    try discriminate.
  destruct (containsSuspiciousContent s0); [discriminate|].
  unfold checkFormTiming.
  destruct (startTime s0) as [[|c r]|]; try discriminate.
  destruct (parseInt (String c r)) as [start|]; [|discriminate].
  destruct (minTime <? t_timing - start); [|discriminate].
  intros [= <-]. tauto.
Qed.

(** What [passAntiSpamChecks] returns, gate by gate. *)
Lemma passAntiSpamChecks_gates t_rate t_timing s :
  let pruned := prune t_rate (submissionHistory s) in
  let recorded := pruned ++ [t_rate] in
  let written :=
    <[HISTORY_KEY := history_text recorded]> (localStorage s) in
  passAntiSpamChecks t_rate t_timing s
  = if negb (honeypot_blank s) then
      (Some false, showError (Some MSG_HONEYPOT) s)
    else if maxSubmissionsPerHour FORM_CONFIG <=? Z.of_nat (length pruned)
    then (Some false, showError (Some MSG_RATE) (with_history pruned s))
    else if setItem_throws s then (None, with_history recorded s)
    else
      let s1 := with_localStorage written (with_history recorded s) in
      if containsSuspiciousContent s then
        (Some false, showError (Some MSG_CONTENT) s1)
      else if fst (checkFormTiming t_timing s) then
        (Some true, snd (checkFormTiming t_timing s1))
      else
        (Some false,
         showError (Some MSG_TIMING) (snd (checkFormTiming t_timing s1))).
Proof.
  intros pruned recorded written. unfold passAntiSpamChecks.
  replace (match honeypot s with
           | Some v => negb (String.eqb (trim v) "")
           | None => false
           end) with (negb (honeypot_blank s))
    by (unfold honeypot_blank; destruct (honeypot s); reflexivity).
  destruct (negb (honeypot_blank s)); [reflexivity|].
  unfold checkRateLimit. fold (prune t_rate (submissionHistory s)).
  fold pruned. fold recorded.
  destruct (_ <=? _); [reflexivity|].
  destruct (setItem_throws s); [reflexivity|].
  change (localStorage (with_history recorded s)) with (localStorage s).
  fold written. cbv zeta.
  set (s1 := with_localStorage written (with_history recorded s)).
  change (containsSuspiciousContent s1) with (containsSuspiciousContent s).
  destruct (containsSuspiciousContent s); [reflexivity|].
  assert (fst (checkFormTiming t_timing s1)
          = fst (checkFormTiming t_timing s)) as Hf.
  { unfold checkFormTiming.
    change (startTime s1) with (startTime s).
    destruct (startTime s) as [[|c r]|]; try reflexivity.
    destruct (parseInt (String c r)); reflexivity. }
  rewrite <- Hf.
  destruct (checkFormTiming t_timing s1) as [[|] s2]; reflexivity.
Qed.

Lemma checkFormTiming_notices now s :
  notices (snd (checkFormTiming now s)) = notices s.
Proof.
  unfold checkFormTiming.
  destruct (startTime s) as [[|c r]|]; try reflexivity.
  destruct (parseInt (String c r)); reflexivity.
Qed.

(** C2, as the script has it. Which gate rejects an attempt decides what
    the attempt leaves behind. A filled honeypot is rejected with the
    history as it was, in memory and in the storage. With a blank
    honeypot and the limit reached, the attempt is rejected with the
    history pruned in memory and the stored one as it was. Under the
    limit, with a storage that can be written, a suspicious content or a
    short dwell time is rejected after the rate-limit step has run: the
    pruned history with the timestamp of the attempt appended is left in
    memory and in the storage. Each rejection shows the message of its
    gate, and every rejected attempt is one of these four, sends nothing
    and ends the handler where the gates left the state. *)
Theorem rejection_effects :
  forall (e : turn) (s : state),
    let pruned := prune (t_rate e) (submissionHistory s) in
    let recorded := pruned ++ [t_rate e] in
    let written :=
      <[HISTORY_KEY := history_text recorded]> (localStorage s) in
    let verdict := fst (passAntiSpamChecks (t_rate e) (t_timing e) s) in
    let s' := snd (passAntiSpamChecks (t_rate e) (t_timing e) s) in
    let full :=
      maxSubmissionsPerHour FORM_CONFIG <=? Z.of_nat (length pruned) in
    (honeypot_blank s = false ->
     verdict = Some false
     /\ notices s' = notices s ++ [Failure (Some MSG_HONEYPOT)]
     /\ submissionHistory s' = submissionHistory s
     /\ localStorage s' = localStorage s)
    /\ (honeypot_blank s = true -> full = true ->
        verdict = Some false
        /\ notices s' = notices s ++ [Failure (Some MSG_RATE)]
        /\ submissionHistory s' = pruned
        /\ localStorage s' = localStorage s)
    /\ (honeypot_blank s = true -> full = false ->
        setItem_throws s = false ->
        containsSuspiciousContent s = true ->
        verdict = Some false
        /\ notices s' = notices s ++ [Failure (Some MSG_CONTENT)]
        /\ submissionHistory s' = recorded
        /\ localStorage s' = written)
    /\ (honeypot_blank s = true -> full = false ->
        setItem_throws s = false ->
        containsSuspiciousContent s = false ->
        fst (checkFormTiming (t_timing e) s) = false ->
        verdict = Some false
        /\ notices s' = notices s ++ [Failure (Some MSG_TIMING)]
        /\ submissionHistory s' = recorded
        /\ localStorage s' = written)
    /\ (verdict = Some false ->
        inserts s' = inserts s
        /\ (isSubmitting s = false -> handleSubmit e s = s')
        /\ (honeypot_blank s = false
            \/ (honeypot_blank s = true /\ full = true)
            \/ (honeypot_blank s = true /\ full = false
                /\ setItem_throws s = false
                /\ (containsSuspiciousContent s = true
                    \/ (containsSuspiciousContent s = false
                        /\ fst (checkFormTiming (t_timing e) s)
                           = false))))).
Proof.
  intros e s pruned recorded written verdict s' full.
  pose proof (passAntiSpamChecks_gates (t_rate e) (t_timing e) s) as G.
  cbv zeta in G. fold pruned in G. fold recorded in G. fold written in G.
  fold full in G.
  set (s1 := with_localStorage written (with_history recorded s)) in G.
  pose proof (ledger_checkFormTiming (t_timing e) s1) as Hl.
  pose proof (checkFormTiming_notices (t_timing e) s1) as Hn.
  unfold ledger in Hl. injection Hl as Hh Hst _.
  change (submissionHistory s1) with recorded in Hh.
  change (localStorage s1) with written in Hst.
  change (notices s1) with (notices s) in Hn.
  split; [|split; [|split; [|split]]].
  - intros Hb. unfold verdict, s'. rewrite G, Hb. cbn. auto.
  - intros Hb Hf. unfold verdict, s'. rewrite G, Hb, Hf. cbn. auto.
  - intros Hb Hf Hw Hc. unfold verdict, s'. rewrite G, Hb, Hf, Hw, Hc.
    cbn. auto.
  - intros Hb Hf Hw Hc Ht. unfold verdict, s'.
    rewrite G, Hb, Hf, Hw, Hc, Ht. cbn [negb fst snd showError with_notice
      notices submissionHistory localStorage].
    rewrite Hn, Hh, Hst. auto.
  - intros Hv. split; [apply passAntiSpamChecks_inserts|].
    split.
    + intros Hg. unfold handleSubmit. rewrite Hg. unfold verdict in Hv.
      unfold s'.
      destruct (passAntiSpamChecks (t_rate e) (t_timing e) s)
        as [[[|]|] s0]; cbn [fst snd] in *; try discriminate.
      reflexivity.
    + unfold verdict in Hv. rewrite G in Hv.
      destruct (honeypot_blank s); [|left; reflexivity].
      right. cbn [negb] in Hv.
      destruct full; [left; split; reflexivity|].
      right. destruct (setItem_throws s); [discriminate|].
      repeat split.
      destruct (containsSuspiciousContent s); [left; reflexivity|].
      right. split; [reflexivity|].
      destruct (fst (checkFormTiming (t_timing e) s));
        [discriminate | reflexivity].
Qed.

Lemma rejection_effects_witness :
  let s := init 1000 (State false [] ∅ false None "Ann Lee" "ACTA"
                        "ann@example.org" ""
                        "Please send me a quote for type approval." true
                        (Some "bot") true [] [] all_errors) in
  let e := Build_turn 5000 5000 5000 5000 5000 5000 5000 5000 Inserted in
  honeypot_blank s = false
  /\ notices (handleSubmit e s) = [Failure (Some MSG_HONEYPOT)]
  /\ submissionHistory (handleSubmit e s) = submissionHistory s
  /\ localStorage (handleSubmit e s) = localStorage s
  /\ inserts (handleSubmit e s) = inserts s.
Proof.
  intros s e.
  destruct (rejection_effects e s) as (H1 & _ & _ & _ & H5).
  destruct (H1 eq_refl) as (Hv & Hn & Hh & Hl).
  destruct (H5 Hv) as (Hi & Hs & _).
  rewrite (Hs eq_refl).
  split; [reflexivity|]. split; [exact Hn|]. split; [exact Hh|].
  split; [exact Hl | exact Hi].
Defined.

(** C2 as stated fails: an attempt the content gate rejects has already
    been recorded by the rate-limit step. The stored history was absent
    before the attempt and holds its timestamp after it. *)
Lemma rejected_attempt_recorded :
  let s := init 1000 (State false [] ∅ false None "Ann Lee" "ACTA"
                        "ann@example.org" ""
                        "Win big at our casino, type approval included."
                        true (Some "") true [] [] all_errors) in
  let e := Build_turn 5000 5000 5000 5000 5000 5000 5000 5000 Inserted in
  let s' := handleSubmit e s in
  fst (passAntiSpamChecks (t_rate e) (t_timing e) s) = Some false
  /\ notices s' = [Failure (Some MSG_CONTENT)]
  /\ inserts s' = []
  /\ localStorage s !! HISTORY_KEY = None
  /\ localStorage s' !! HISTORY_KEY = Some "[5000]"
  /\ prune (t_rate e) (submissionHistory s) = []
  /\ submissionHistory s' = [5000].
Proof. vm_compute. repeat split; reflexivity. Qed.

(** *** Failures of the outbound write *)

Lemma includes_prefix (a b : string) : includes (a +:+ b) a = true.
Proof.
  assert (forall a b, String.prefix a (a +:+ b) = true) as H.
  { clear. induction a as [|c a IH]; intros b; simpl.
    - destruct b; reflexivity.
    - destruct (ascii_dec c c); [apply IH | congruence]. }
  destruct a as [|c a]; simpl.
  - destruct b; reflexivity.
  - destruct (ascii_dec c c); [|congruence].
    rewrite (H a b). reflexivity.
Qed.

Lemma report_notice now m s :
  shown_as_success m = false ->
  notices (report now m s) = notices s ++ [failure_notice m]
  /\ message (report now m s) = message s
  /\ startTime (report now m s) = startTime s.
Proof.
  unfold shown_as_success, report, failure_notice. intros H. rewrite H.
  destruct (includes m "Database error"); [discriminate|].
  destruct (includes m "Failed to fetch"); [discriminate|].
  destruct (includes m "NetworkError"); [discriminate|].
  destruct (includes m "TypeError"); [discriminate|].
  simpl.
  destruct (includes m "Request timeout"); [repeat split|].
  destruct (includes m "CORS"); [repeat split|].
  destruct (includes m "ReferenceError"); repeat split.
Qed.

Lemma failure_notice_success m :
  failure_notice m = Success <-> shown_as_success m = true.
Proof.
  unfold failure_notice, shown_as_success.
  destruct (_ || _ || _ || _); [tauto|].
  split; [|discriminate].
  repeat match goal with
         | |- context [if ?b then _ else _] => destruct b
         end; discriminate.
Qed.

Lemma submit_notice e s :
  notices (submit e s) = notices s ++ [reply_notice (answer e)]
  /\ inserts (submit e s) = inserts s ++ [snapshot e s]
  /\ (reply_notice (answer e) = Success ->
      message (submit e s) = EmptyString
      /\ startTime (submit e s) = Some (Number_toString (t_reset e)))
  /\ (reply_notice (answer e) <> Success ->
      message (submit e s) = message s
      /\ startTime (submit e s) = startTime s).
Proof.
  unfold submit. destruct (answer e) as [|m|m].
  - simpl. repeat split; congruence.
  - assert (shown_as_success ("Database error: " +:+ m) = true) as ->.
    { unfold shown_as_success.
      change ("Database error: " +:+ m)
        with ("Database error" +:+ (": " +:+ m)).
      rewrite includes_prefix. reflexivity. }
    simpl. repeat split; congruence.
  - cbn [reply_notice]. destruct (shown_as_success m) eqn:E.
    + apply failure_notice_success in E. rewrite E. simpl.
      repeat split; congruence.
    + destruct (report_notice (t_reset e) m (with_insert (snapshot e s) s) E)
        as (Hn & Hm & Ht).
      assert (inserts (report (t_reset e) m (with_insert (snapshot e s) s))
              = inserts s ++ [snapshot e s]) as Hi.
      { unfold report.
        repeat match goal with
               | |- context [if ?b then _ else _] => destruct b
               end; reflexivity. }
      repeat split; try assumption;
        match goal with
        | H : failure_notice m = Success |- _ =>
            apply failure_notice_success in H; congruence
        end.
Qed.

(** C3, as the script has it. When the outbound write fails, the notice
    depends on the content of the error message alone. An error the data
    store returns, and an exception whose message contains
    [Database error], [Failed to fetch], [NetworkError] or [TypeError],
    end as a success: the success notice, the form reset. Any other
    exception is classified, in this order, as a timeout
    ([Request timeout]), a cross-origin error ([CORS]) or a
    browser-compatibility error ([ReferenceError]), each with its own
    text, or else shown as the error without a text of its own; the form
    stays as it is. The network-error text is never shown. *)
Theorem write_failure_classified :
  forall (e : turn) (s s1 : state),
    isSubmitting s = false ->
    passAntiSpamChecks (t_rate e) (t_timing e) s = (Some true, s1) ->
    validateAllFields s1 = true ->
    supabaseClient s1 = true ->
    let s' := handleSubmit e s in
    notices s' = notices s ++ [reply_notice (answer e)]
    /\ length (inserts s') = S (length (inserts s))
    /\ isSubmitting s' = false
    /\ (reply_notice (answer e) = Success ->
        message s' = EmptyString
        /\ startTime s' = Some (Number_toString (t_reset e)))
    /\ (reply_notice (answer e) <> Success -> message s' = message s)
    /\ (forall m, reply_notice (Refused m) = Success)
    /\ (forall m,
          reply_notice (Rejected m) = Success <-> shown_as_success m = true)
    /\ (forall m, reply_notice (Rejected m) <> Failure (Some MSG_NETWORK))
    /\ MSG_TIMEOUT <> MSG_CORS /\ MSG_TIMEOUT <> MSG_BROWSER
    /\ MSG_CORS <> MSG_BROWSER.
Proof.
  intros e s s1 Hg Hp Hv Hc s'.
  destruct (passed_quietly _ _ _ _ Hp) as (Hn & Hi & Hm).
  assert (s' = with_submitting false (submit e (with_submitting true s1)))
    as Hs'.
  { unfold s', handleSubmit. rewrite Hg, Hp, Hv. simpl. rewrite Hc.
    reflexivity. }
  destruct (submit_notice e (with_submitting true s1))
    as (Sn & Si & Sok & Sko).
  rewrite Hs'. simpl. repeat split.
  - rewrite Sn. simpl. rewrite Hn. reflexivity.
  - rewrite Si, length_app. simpl. rewrite Hi. lia.
  - apply Sok. assumption.
  - apply Sok. assumption.
  - intros Hne. rewrite (proj1 (Sko Hne)). exact Hm.
  - apply failure_notice_success.
  - apply failure_notice_success.
  - intros m. simpl. unfold failure_notice.
    repeat match goal with
           | |- context [if ?b then _ else _] => destruct b
           end; discriminate.
  - discriminate.
  - discriminate.
  - discriminate.
Qed.

Lemma write_failure_classified_witness :
  let s := init 1000 (State false [] ∅ false None "Ann Lee" "ACTA"
                        "ann@example.org" ""
                        "Please send me a quote for type approval." true
                        (Some "") true [] [] all_errors) in
  let e := Build_turn 5000 5000 5000 5000 5000 5000 5000 5000
             (Rejected "Request timeout after 30s") in
  notices (handleSubmit e s)
  = notices s ++ [reply_notice (Rejected "Request timeout after 30s")].
Proof.
  intros s e.
  exact (proj1 (write_failure_classified e s
                  (snd (passAntiSpamChecks (t_rate e) (t_timing e) s))
                  eq_refl eq_refl eq_refl eq_refl)).
Defined.

(** C3 as stated fails: a write that fails with [Failed to fetch], or
    with a message that names a [TypeError], ends as a success with the
    form reset, although the outer handler alone would have shown the
    network or the browser text. *)
Lemma network_failure_shown_as_success :
  let s := init 1000 (State false [] ∅ false None "Ann Lee" "ACTA"
                        "ann@example.org" ""
                        "Please send me a quote for type approval." true
                        (Some "") true [] [] all_errors) in
  let e m := Build_turn 5000 5000 5000 5000 5000 5000 5000 5000 (Rejected m) in
  notices (handleSubmit (e "Failed to fetch") s) = [Success]
  /\ message (handleSubmit (e "Failed to fetch") s) = EmptyString
  /\ notices (report 5000 "Failed to fetch" s) = [Failure (Some MSG_NETWORK)]
  /\ notices (handleSubmit (e "TypeError: Load failed") s) = [Success]
  /\ notices (report 5000 "TypeError: Load failed" s)
     = [Failure (Some MSG_BROWSER)].
Proof. vm_compute. repeat split; reflexivity. Qed.

(** *** What passing the gates means *)

Lemma checkFormTiming_passed now s :
  fst (checkFormTiming now s) = true -> snd (checkFormTiming now s) = s.
Proof.
  unfold checkFormTiming.
  destruct (startTime s) as [[|c r]|]; cbn [fst snd]; try discriminate.
  destruct (parseInt (String c r)); reflexivity.
Qed.

Lemma checkFormTiming_start now s s0 :
  startTime s0 = startTime s ->
  fst (checkFormTiming now s0) = fst (checkFormTiming now s).
Proof.
  unfold checkFormTiming. intros ->.
  destruct (startTime s) as [[|c r]|]; cbn [fst snd]; try reflexivity.
  destruct (parseInt (String c r)); reflexivity.
Qed.

Lemma checkRateLimit_passed now s s1 :
  checkRateLimit now s = (Some true, s1) ->
  let pruned := prune now (submissionHistory s) in
  s1 = with_localStorage
         (<[HISTORY_KEY := history_text (pruned ++ [now])]> (localStorage s))
         (with_history (pruned ++ [now]) s)
  /\ setItem_throws s = false
  /\ Z.of_nat (length pruned) < maxSubmissionsPerHour FORM_CONFIG.
Proof.
  intros H pruned. unfold checkRateLimit in H.
  fold (prune now (submissionHistory s)) in H. fold pruned in H.
  destruct (Z.leb_spec (maxSubmissionsPerHour FORM_CONFIG)
              (Z.of_nat (length pruned))) as [Hl|Hl]; [discriminate|].
  destruct (setItem_throws s) eqn:Hs; [discriminate|].
  injection H as <-. auto.
Qed.

Lemma passed_state t_rate t_timing s s1 :
  passAntiSpamChecks t_rate t_timing s = (Some true, s1) ->
  let pruned := prune t_rate (submissionHistory s) in
  s1 = with_localStorage
         (<[HISTORY_KEY := history_text (pruned ++ [t_rate])]>
            (localStorage s))
         (with_history (pruned ++ [t_rate]) s)
  /\ honeypot_blank s = true
  /\ setItem_throws s = false
  /\ Z.of_nat (length pruned) < maxSubmissionsPerHour FORM_CONFIG
  /\ containsSuspiciousContent s = false
  /\ fst (checkFormTiming t_timing s) = true.
Proof.
  intros H pruned. unfold passAntiSpamChecks in H.
  assert (honeypot_blank s = true) as Hh.
  { unfold honeypot_blank. destruct (honeypot s) as [v|]; [|reflexivity].
    destruct (String.eqb (trim v) ""); [reflexivity | discriminate]. }
  rewrite (honeypot_blank_guard s Hh) in H.
  destruct (checkRateLimit t_rate s) as [[[|]|] s0] eqn:Hr;
    try discriminate.
  destruct (checkRateLimit_passed t_rate s s0 Hr) as (Hs0 & Hs & Hl).
  assert (containsSuspiciousContent s0 = containsSuspiciousContent s) as Hc
    by (rewrite Hs0; reflexivity).
  rewrite Hc in H. destruct (containsSuspiciousContent s); [discriminate|].
  pose proof (checkFormTiming_passed t_timing s0) as Hp.
  assert (fst (checkFormTiming t_timing s0)
          = fst (checkFormTiming t_timing s)) as Hf
    by (apply checkFormTiming_start; rewrite Hs0; reflexivity).
  destruct (checkFormTiming t_timing s0) as [[|] s2]; [|discriminate].
  cbn [fst snd] in *. injection H as <-.
  rewrite (Hp eq_refl). auto 10.
Qed.


Lemma handleSubmit_inserts e s :
  inserts (handleSubmit e s) = inserts s
  \/ exists s1,
       isSubmitting s = false
       /\ passAntiSpamChecks (t_rate e) (t_timing e) s = (Some true, s1)
       /\ validateAllFields s1 = true
       /\ supabaseClient s1 = true
       /\ inserts (handleSubmit e s)
          = inserts s ++ [snapshot e (with_submitting true s1)].
Proof.
  unfold handleSubmit. cbv zeta.
  destruct (isSubmitting s) eqn:Hg; [left; reflexivity|].
  pose proof (passAntiSpamChecks_inserts (t_rate e) (t_timing e) s) as Hi.
  destruct (passAntiSpamChecks (t_rate e) (t_timing e) s) as [[[|]|] s1]
    eqn:Hp; cbn [snd] in Hi; [|left; exact Hi|left; exact Hi].
  destruct (validateAllFields s1) eqn:Hv; cbn [negb]; [|left; exact Hi].
  change (supabaseClient (with_submitting true s1)) with (supabaseClient s1).
  destruct (supabaseClient s1) eqn:Hc; [|left; exact Hi].
  right. exists s1. repeat split; try assumption; try reflexivity.
  change (inserts (submit e (with_submitting true s1))
          = inserts s ++ [snapshot e (with_submitting true s1)]).
  destruct (submit_notice e (with_submitting true s1)) as (_ & -> & _).
  cbn [with_submitting inserts]. rewrite Hi. reflexivity.
Qed.

Lemma handleSubmit_history e s :
  let pruned := prune (t_rate e) (submissionHistory s) in
  let s' := handleSubmit e s in
  (submissionHistory s' = submissionHistory s /\ inserts s' = inserts s)
  \/ (submissionHistory s' = pruned /\ inserts s' = inserts s)
  \/ (Z.of_nat (length pruned) < maxSubmissionsPerHour FORM_CONFIG
      /\ submissionHistory s' = pruned ++ [t_rate e]
      /\ (length (inserts s') <= S (length (inserts s)))%nat).
Proof.
  intros pruned s'.
  destruct (isSubmitting s) eqn:Hg.
  { left. unfold s', handleSubmit. rewrite Hg. auto. }
  destruct (honeypot_blank s) eqn:Hh.
  2:{ left. unfold s', handleSubmit, passAntiSpamChecks. rewrite Hg.
      unfold honeypot_blank in Hh. destruct (honeypot s) as [v|];
        [|discriminate]. rewrite Hh. auto. }
  destruct (handleSubmit_ledger e s Hg Hh) as [Hl _].
  fold s' in Hl. rewrite checkRateLimit_ledger in Hl. fold pruned in Hl.
  assert (length (inserts s') <= S (length (inserts s)))%nat as Hlen.
  { destruct (handleSubmit_inserts e s) as [E|(s1 & _ & _ & _ & _ & E)];
      fold s' in E; rewrite E; [lia|]. rewrite length_app. simpl. lia. }
  destruct (Z.leb_spec (maxSubmissionsPerHour FORM_CONFIG)
              (Z.of_nat (length pruned))) as [Hle|Hlt].
  - right. left. split; [unfold ledger in Hl; congruence|].
    apply blocked_sends_nothing.
    unfold passAntiSpamChecks. rewrite (honeypot_blank_guard s Hh).
    unfold checkRateLimit. fold (prune (t_rate e) (submissionHistory s)).
    fold pruned. destruct (Z.leb_spec (maxSubmissionsPerHour FORM_CONFIG)
                             (Z.of_nat (length pruned))); [|lia].
    cbn. discriminate.
  - right. right. split; [exact Hlt|]. split; [|exact Hlen].
    destruct (setItem_throws s); unfold ledger in Hl; congruence.
Qed.

(** *** No more than three records an hour *)

Lemma prune_keeps_newer a now h :
  now - ONE_HOUR <= a ->
  filter (fun t => a < t) (prune now h) = filter (fun t => a < t) h.
Proof.
  intros Ha. unfold prune. induction h as [|t h IH]; [reflexivity|].
  rewrite !filter_cons.
  destruct (decide (now - 60 * 60 * 1000 < t)) as [H1|H1].
  - rewrite filter_cons. rewrite IH. reflexivity.
  - rewrite IH. destruct (decide (a < t)) as [H2|H2]; [|reflexivity].
    unfold ONE_HOUR in Ha. lia.
Qed.

Lemma filter_length_le {A} (P : A -> Prop) `{!forall x, Decision (P x)}
    (l : list A) :
  (length (filter P l) <= length l)%nat.
Proof.
  induction l as [|x l IH]; [reflexivity|]. rewrite filter_cons.
  destruct (decide (P x)); simpl; lia.
Qed.

Lemma react_sent_in_hour a n v s :
  in_hour_after a v ->
  let newer s := length (filter (fun t => a < t) (submissionHistory s)) in
  (length (inserts s) <= n + newer s)%nat
  /\ ((length (inserts s) <= n)%nat \/ (newer s <= 3)%nat) ->
  (length (inserts (react v s)) <= n + newer (react v s))%nat
  /\ ((length (inserts (react v s)) <= n)%nat
      \/ (newer (react v s) <= 3)%nat).
Proof.
  intros Hv newer [H1 H2]. destruct v as [f|e]; cbn [react].
  - exact (conj H1 H2).
  - destruct Hv as [Ha Hb].
    unfold newer in *.
    destruct (handleSubmit_history e s) as [[-> ->]|[[-> ->]|(Hl & -> & Hi)]].
    + auto.
    + rewrite prune_keeps_newer by lia. auto.
    + rewrite filter_app, length_app, prune_keeps_newer by lia.
      rewrite filter_cons, decide_True by exact Ha. simpl.
      pose proof (filter_length_le (fun t => a < t)
                    (prune (t_rate e) (submissionHistory s))) as Hf.
      rewrite prune_keeps_newer in Hf by lia.
      change (maxSubmissionsPerHour FORM_CONFIG) with 3 in Hl.
      split; [lia|]. right. lia.
Qed.

(** X15. However a session runs, when all the readings of the rate
    limiter's clock lie within one hour, at most three records are handed
    to the data store, whatever the history held before, whatever is
    typed, and whether or not the storage can be written. *)
Theorem at_most_three_sent_per_hour :
  forall (vs : list event) (s : state) (a : Z),
    Forall (in_hour_after a) vs ->
    (length (inserts (play vs s)) <= length (inserts s) + 3)%nat.
Proof.
  intros vs s a Hvs.
  set (n := length (inserts s)).
  set (newer := fun s : state =>
                  length (filter (fun t => a < t) (submissionHistory s))).
  assert ((length (inserts (play vs s)) <= n + newer (play vs s))%nat
          /\ ((length (inserts (play vs s)) <= n)%nat
              \/ (newer (play vs s) <= 3)%nat)) as [H1 H2].
  { assert ((length (inserts s) <= n + newer s)%nat
            /\ ((length (inserts s) <= n)%nat \/ (newer s <= 3)%nat)) as H
      by (unfold n; split; [lia | left; lia]).
    clearbody n. revert s H.
    induction vs as [|v vs IH]; intros s H; [exact H|].
    apply Forall_cons in Hvs as [Hv Hvs].
    change (play (v :: vs) s) with (play vs (react v s)).
    apply (IH Hvs). apply (react_sent_in_hour a n v s Hv H). }
  lia.
Qed.


Lemma at_most_three_sent_per_hour_witness :
  let f := Build_entries "Ann Lee" "ACTA" "ann@example.org" ""
             "Please send me a quote for type approval of a trailer." true ""
  in
  let e t := Build_turn t t t t t t t t Inserted in
  let s := init 0 (State false [] ∅ false None "" "" "" "" "" false
                         (Some "") true [] [] all_errors) in
  let vs := [Fill f; Submit (e 5000); Fill f; Submit (e 10000);
             Fill f; Submit (e 15000); Fill f; Submit (e 20000)] in
  Forall (in_hour_after 0) vs
  /\ (length (inserts (play vs s)) <= length (inserts s) + 3)%nat.
Proof.
  intros f e s vs.
  assert (Forall (in_hour_after 0) vs) as H
    by (repeat constructor; cbn; unfold ONE_HOUR; lia).
  split; [exact H|].
  exact (at_most_three_sent_per_hour vs s 0 H).
Defined.

(** *** The history a reload starts from *)

Lemma prune_prune t now h :
  t <= now -> prune now (prune t h) = prune now h.
Proof.
  intros Ht. unfold prune. induction h as [|x h IH]; [reflexivity|].
  rewrite !filter_cons.
  destruct (decide (t - 60 * 60 * 1000 < x)) as [H1|H1].
  - rewrite filter_cons, IH. reflexivity.
  - rewrite IH. destruct (decide (now - 60 * 60 * 1000 < x)); [lia|].
    reflexivity.
Qed.

Lemma react_stored now v s :
  by_then now v ->
  setItem_throws s = false ->
  (exists h, stored_history (localStorage s) = Some h
             /\ prune now h = prune now (submissionHistory s)) ->
  setItem_throws (react v s) = false
  /\ exists h, stored_history (localStorage (react v s)) = Some h
               /\ prune now h = prune now (submissionHistory (react v s)).
Proof.
  intros Hv Hs (h & Hh & Hp). destruct v as [f|e]; cbn [react].
  - split; [exact Hs|]. exists h. auto.
  - cbn [by_then] in Hv.
    destruct (isSubmitting s) eqn:Hg.
    { unfold handleSubmit. rewrite Hg. split; [exact Hs|]. exists h. auto. }
    destruct (honeypot_blank s) eqn:Hb.
    2:{ unfold handleSubmit, passAntiSpamChecks. rewrite Hg.
        unfold honeypot_blank in Hb. destruct (honeypot s) as [x|];
          [|discriminate]. rewrite Hb. cbn [negb].
        split; [exact Hs|]. exists h. auto. }
    destruct (handleSubmit_ledger e s Hg Hb) as [Hl _].
    rewrite checkRateLimit_ledger, Hs in Hl.
    destruct (maxSubmissionsPerHour FORM_CONFIG
              <=? Z.of_nat (length (prune (t_rate e) (submissionHistory s))));
      unfold ledger in Hl; injection Hl as H1 H2 H3.
    + split; [exact H3|]. exists h. rewrite H2, H1. split; [exact Hh|].
      rewrite prune_prune by exact Hv. exact Hp.
    + split; [exact H3|].
      exists (prune (t_rate e) (submissionHistory s) ++ [t_rate e]).
      rewrite H1. split; [|reflexivity].
      apply stored_history_written. rewrite H2. apply lookup_insert_eq.
Qed.

(** X16. With a writable storage and a history that starts as the
    stored one, at any time not before the attempts of the session the
    stored history pruned at that time is the history in memory pruned at
    that time: a page loaded then is rate-limited exactly as the running
    page is. *)
Theorem rate_limit_survives_reload :
  forall (vs : list event) (s : state) (now : Z),
    setItem_throws s = false ->
    stored_history (localStorage s) = Some (submissionHistory s) ->
    Forall (by_then now) vs ->
    exists h,
      stored_history (localStorage (play vs s)) = Some h
      /\ prune now h = prune now (submissionHistory (play vs s))
      /\ fst (checkRateLimit now (with_history h (play vs s)))
         = fst (checkRateLimit now (play vs s)).
Proof.
  intros vs s now Hs Hh Hvs.
  assert (setItem_throws (play vs s) = false
          /\ exists h, stored_history (localStorage (play vs s)) = Some h
                       /\ prune now h
                          = prune now (submissionHistory (play vs s)))
    as (Hs' & h & H1 & H2).
  { assert (exists h, stored_history (localStorage s) = Some h
                      /\ prune now h = prune now (submissionHistory s)) as H
      by (eexists; split; [exact Hh | reflexivity]).
    clear Hh. revert s Hs H.
    induction vs as [|v vs IH]; intros s Hs H; [auto|].
    apply Forall_cons in Hvs as [Hv Hvs].
    change (play (v :: vs) s) with (play vs (react v s)).
    destruct (react_stored now v s Hv Hs H) as [Hs1 H1].
    apply (IH Hvs (react v s) Hs1 H1). }
  exists h. split; [exact H1|]. split; [exact H2|].
  rewrite !checkRateLimit_verdict by assumption.
  cbn [with_history submissionHistory]. rewrite H2. reflexivity.
Qed.


Lemma rate_limit_survives_reload_witness :
  let f := Build_entries "Ann Lee" "ACTA" "ann@example.org" ""
             "Please send me a quote for type approval of a trailer." true ""
  in
  let e t := Build_turn t t t t t t t t Inserted in
  let s := init 0 (State false [] ∅ false None "" "" "" "" "" false
                         (Some "") true [] [] all_errors) in
  let vs := [Fill f; Submit (e 5000); Submit (e 6000)] in
  exists h,
    stored_history (localStorage (play vs s)) = Some h
    /\ prune 7000 h = prune 7000 (submissionHistory (play vs s))
    /\ fst (checkRateLimit 7000 (with_history h (play vs s)))
       = fst (checkRateLimit 7000 (play vs s)).
Proof.
  intros f e s vs.
  assert (stored_history (localStorage s) = Some (submissionHistory s)) as H
    by (vm_compute; reflexivity).
  assert (Forall (by_then 7000) vs) as Hvs
    by (repeat constructor; cbn; lia).
  exact (rate_limit_survives_reload vs s 7000 eq_refl H Hvs).
Defined.

(** *** What a submission leaves in the form *)

Lemma validateAllFields_checks s :
  validateAllFields s
  = implb (error_fullName (errorElements s)) (validateRequired (fullName s))
    && implb (error_email (errorElements s)) (validateEmail (email s))
    && implb (error_message (errorElements s)) (validateMessage (message s))
    && implb (error_consent (errorElements s)) (validateConsent (consent s)).
Proof.
  unfold validateAllFields, requiredFields. cbn [fold_left fst snd].
  destruct (error_fullName _), (validateRequired _), (error_email _),
    (validateEmail _), (error_message _), (validateMessage _),
    (error_consent _), (validateConsent _); reflexivity.
Qed.

Lemma passAntiSpamChecks_fields t_rate t_timing s :
  let s' := snd (passAntiSpamChecks t_rate t_timing s) in
  fullName s' = fullName s /\ organisation_field s' = organisation_field s
  /\ email s' = email s /\ phone s' = phone s /\ message s' = message s
  /\ consent s' = consent s /\ honeypot s' = honeypot s
  /\ supabaseClient s' = supabaseClient s
  /\ isSubmitting s' = isSubmitting s
  /\ errorElements s' = errorElements s.
Proof.
  unfold passAntiSpamChecks.
  destruct (match honeypot s with Some _ => _ | None => _ end);
    [cbn; tauto|].
  assert (forall x, fst (checkRateLimit t_rate s) = x ->
            let s' := snd (checkRateLimit t_rate s) in
            fullName s' = fullName s
            /\ organisation_field s' = organisation_field s
            /\ email s' = email s /\ phone s' = phone s
            /\ message s' = message s /\ consent s' = consent s
            /\ honeypot s' = honeypot s
            /\ supabaseClient s' = supabaseClient s
            /\ isSubmitting s' = isSubmitting s
            /\ errorElements s' = errorElements s) as Hf.
  { intros x _. unfold checkRateLimit. destruct (_ <=? _); [cbn; tauto|].
    destruct (setItem_throws s); cbn; tauto. }
  specialize (Hf _ eq_refl).
  destruct (checkRateLimit t_rate s) as [[[|]|] s1]; cbn [fst snd] in *;
    try (cbn; tauto).
  destruct (containsSuspiciousContent s1); [cbn; tauto|].
  unfold checkFormTiming.
  destruct (startTime s1) as [[|c r]|]; try (cbn; tauto).
  destruct (parseInt (String c r)) as [start|]; [|cbn; tauto].
  destruct (minTime <? t_timing - start); cbn; tauto.
Qed.

Lemma passAntiSpamChecks_notices t_rate t_timing s :
  match fst (passAntiSpamChecks t_rate t_timing s) with
  | Some false =>
      exists m, notices (snd (passAntiSpamChecks t_rate t_timing s))
                = notices s ++ [Failure m]
  | _ => notices (snd (passAntiSpamChecks t_rate t_timing s)) = notices s
  end.
Proof.
  unfold passAntiSpamChecks.
  destruct (match honeypot s with Some _ => _ | None => _ end);
    [cbn; eauto|].
  pose proof (checkRateLimit_fields t_rate s) as Hf.
  destruct (checkRateLimit t_rate s) as [[[|]|] s1]; cbn [fst snd] in *.
  - destruct Hf as (_ & _ & _ & _ & _ & Hn & _).
    destruct (containsSuspiciousContent s1);
      [cbn; rewrite Hn; eauto|].
    unfold checkFormTiming.
    destruct (startTime s1) as [[|c r]|]; try (cbn; rewrite Hn; eauto).
    destruct (parseInt (String c r)) as [start|]; [|cbn; rewrite Hn; eauto].
    destruct (minTime <? t_timing - start); cbn; rewrite Hn; eauto.
  - destruct Hf as (_ & _ & _ & _ & _ & Hn & _). cbn. rewrite Hn. eauto.
  - tauto.
Qed.

Lemma submit_success e s :
  reply_notice (answer e) = Success ->
  submit e s
  = resetFormSafely (t_reset e) (showSuccess (with_insert (snapshot e s) s)).
Proof.
  unfold submit. destruct (answer e) as [|m|m]; intros H.
  - reflexivity.
  - assert (shown_as_success ("Database error: " +:+ m) = true) as ->;
      [|reflexivity].
    unfold shown_as_success.
    change ("Database error: " +:+ m)
      with ("Database error" +:+ (": " +:+ m)).
    rewrite includes_prefix. reflexivity.
  - cbn [reply_notice] in H. apply failure_notice_success in H.
    rewrite H. reflexivity.
Qed.

Lemma app_one_neq {A} (l : list A) (x : A) : l <> l ++ [x].
Proof.
  intros H. apply (f_equal length) in H. rewrite length_app in H.
  simpl in H. lia.
Qed.

Lemma handleSubmit_succeeded e s :
  notices (handleSubmit e s) = notices s ++ [Success] ->
  exists s0,
    handleSubmit e s
    = with_submitting false (resetFormSafely (t_reset e) s0).
Proof.
  unfold handleSubmit. cbv zeta.
  destruct (isSubmitting s); [intros H; destruct (app_one_neq _ _ H)|].
  pose proof (passAntiSpamChecks_notices (t_rate e) (t_timing e) s) as Hn.
  destruct (passAntiSpamChecks (t_rate e) (t_timing e) s) as [[[|]|] s1];
    cbn [fst snd] in Hn.
  - destruct (validateAllFields s1); cbn [negb].
    + change (supabaseClient (with_submitting true s1))
        with (supabaseClient s1).
      destruct (supabaseClient s1); [|eauto].
      intros H.
      change (notices (submit e (with_submitting true s1))
              = notices s ++ [Success]) in H.
      destruct (submit_notice e (with_submitting true s1)) as (Hs & _).
      rewrite Hs in H. cbn [with_submitting notices] in H. rewrite Hn in H.
      apply app_inj_tail in H as [_ H].
      rewrite (submit_success _ _ H). eauto.
    + rewrite Hn. intros H. destruct (app_one_neq _ _ H).
  - destruct Hn as (m & ->). intros H.
    apply app_inj_tail in H as [_ H]. discriminate.
  - rewrite Hn. intros H. destruct (app_one_neq _ _ H).
Qed.

Lemma report_errorElements now m s :
  errorElements (report now m s) = errorElements s.
Proof.
  unfold report.
  repeat match goal with
         | |- context [if ?b then _ else _] => destruct b
         end; reflexivity.
Qed.

Lemma submit_errorElements e s :
  errorElements (submit e s) = errorElements s.
Proof.
  unfold submit. destruct (answer e) as [|m|m]; [reflexivity| |];
    destruct (shown_as_success _); rewrite ?report_errorElements;
    reflexivity.
Qed.

(** The handler never touches [errorElements]. *)
Lemma handleSubmit_errorElements e s :
  errorElements (handleSubmit e s) = errorElements s.
Proof.
  unfold handleSubmit. cbv zeta.
  destruct (isSubmitting s); [reflexivity|].
  pose proof (passAntiSpamChecks_fields (t_rate e) (t_timing e) s) as Hf.
  destruct (passAntiSpamChecks (t_rate e) (t_timing e) s) as [[[|]|] s1];
    cbn [fst snd] in Hf;
    destruct Hf as (_ & _ & _ & _ & _ & _ & _ & _ & _ & He); try exact He.
  destruct (validateAllFields s1); cbn [negb]; [|exact He].
  change (supabaseClient (with_submitting true s1))
    with (supabaseClient s1).
  destruct (supabaseClient s1); [|exact He].
  change (errorElements (submit e (with_submitting true s1))
          = errorElements s).
  rewrite submit_errorElements. exact He.
Qed.

Lemma play_errorElements vs s : errorElements (play vs s) = errorElements s.
Proof.
  revert s. induction vs as [|v vs IH]; intros s; [reflexivity|].
  change (play (v :: vs) s) with (play vs (react v s)). rewrite IH.
  destruct v as [f|e]; [reflexivity | apply handleSubmit_errorElements].
Qed.

(** The verdict depends on the four required fields and on the error
    elements alone. *)
Lemma validateAllFields_same s s' :
  fullName s' = fullName s -> email s' = email s ->
  message s' = message s -> consent s' = consent s ->
  errorElements s' = errorElements s ->
  validateAllFields s' = validateAllFields s.
Proof.
  intros H1 H2 H3 H4 H5. rewrite !validateAllFields_checks.
  rewrite H1, H2, H3, H4, H5. reflexivity.
Qed.

Lemma invalid_form_stays e s :
  validateAllFields s = false ->
  inserts (handleSubmit e s) = inserts s
  /\ validateAllFields (handleSubmit e s) = false.
Proof.
  intros Hv. unfold handleSubmit. cbv zeta.
  destruct (isSubmitting s); [auto|].
  pose proof (passAntiSpamChecks_fields (t_rate e) (t_timing e) s) as Hf.
  pose proof (passAntiSpamChecks_inserts (t_rate e) (t_timing e) s) as Hi.
  assert (validateAllFields
            (snd (passAntiSpamChecks (t_rate e) (t_timing e) s)) = false)
    as Hv1.
  { rewrite <- Hv. cbv zeta in Hf.
    destruct Hf as (H1 & _ & H2 & _ & H3 & H4 & _ & _ & _ & H5).
    apply validateAllFields_same; assumption. }
  destruct (passAntiSpamChecks (t_rate e) (t_timing e) s) as [[[|]|] s1];
    cbn [fst snd] in *; try (split; assumption).
  rewrite Hv1. cbn [negb]. split; assumption.
Qed.

(** A form with every field empty and the consent box unticked fails
    each check that is made. *)
Lemma empty_form_verdict s :
  fullName s = EmptyString -> email s = EmptyString ->
  message s = EmptyString -> consent s = false ->
  validateAllFields s = negb (checks_a_field s).
Proof.
  intros H1 H2 H3 H4. rewrite validateAllFields_checks.
  unfold checks_a_field, requiredFields. cbn [existsb fst].
  rewrite H1, H2, H3, H4.
  destruct (error_fullName _), (error_email _), (error_message _),
    (error_consent _); reflexivity.
Qed.

(** X17. Whenever [handleSubmit] ends with the success notice, every
    field is empty, the consent box is unticked, the start time is the
    reading taken at the reset and the guard is cleared. The emptied form
    fails validation exactly when some required field has its error
    element in the markup, and then further submissions without new
    input send nothing. *)
Theorem success_resets_the_form :
  forall (e : turn) (s : state),
    notices (handleSubmit e s) = notices s ++ [Success] ->
    let s' := handleSubmit e s in
    fullName s' = EmptyString /\ organisation_field s' = EmptyString
    /\ email s' = EmptyString /\ phone s' = EmptyString
    /\ message s' = EmptyString /\ consent s' = false
    /\ startTime s' = Some (Number_toString (t_reset e))
    /\ isSubmitting s' = false
    /\ validateAllFields s' = negb (checks_a_field s)
    /\ (checks_a_field s = true ->
        forall es, inserts (play (Submit <$> es) s') = inserts s').
Proof.
  intros e s H s'.
  assert (validateAllFields s' = negb (checks_a_field s)) as Hv.
  { pose proof (handleSubmit_errorElements e s) as He. fold s' in He.
    destruct (handleSubmit_succeeded e s H) as (s0 & Hs').
    fold s' in Hs'.
    replace (checks_a_field s) with (checks_a_field s')
      by (unfold checks_a_field; rewrite He; reflexivity).
    apply empty_form_verdict; rewrite Hs'; reflexivity. }
  destruct (handleSubmit_succeeded e s H) as (s0 & Hs').
  fold s' in Hs'.
  split; [rewrite Hs'; reflexivity|]. split; [rewrite Hs'; reflexivity|].
  split; [rewrite Hs'; reflexivity|]. split; [rewrite Hs'; reflexivity|].
  split; [rewrite Hs'; reflexivity|]. split; [rewrite Hs'; reflexivity|].
  split; [rewrite Hs'; reflexivity|]. split; [rewrite Hs'; reflexivity|].
  split; [exact Hv|].
  intros Hc es. rewrite Hc in Hv. cbn [negb] in Hv.
  clear Hs' H. generalize dependent s'. intros x Hx.
  induction es as [|e' es IH] in x, Hx |- *; [reflexivity|].
  change (play (Submit <$> e' :: es) x)
    with (play (Submit <$> es) (handleSubmit e' x)).
  destruct (invalid_form_stays e' x Hx) as (Hi & Hf).
  rewrite (IH _ Hf). exact Hi.
Qed.


Lemma success_resets_the_form_witness :
  let s := init 1000 (State false [] ∅ false None "Ann Lee" "ACTA"
                        "ann@example.org" ""
                        "Please send me a quote for type approval." true
                        (Some "") true [] [] all_errors) in
  let e := Build_turn 5000 5000 5000 5000 5000 5000 5000 5000 Inserted in
  notices (handleSubmit e s) = notices s ++ [Success]
  /\ fullName (handleSubmit e s) = EmptyString
  /\ checks_a_field s = true
  /\ forall es,
       inserts (play (Submit <$> es) (handleSubmit e s))
       = inserts (handleSubmit e s).
Proof.
  intros s e.
  assert (notices (handleSubmit e s) = notices s ++ [Success]) as H
    by (vm_compute; reflexivity).
  split; [exact H|].
  pose proof (success_resets_the_form e s H) as T.
  split; [exact (proj1 T)|]. split; [reflexivity|].
  exact (proj2 (proj2 (proj2 (proj2 (proj2 (proj2 (proj2 (proj2 (proj2 T))))))))
           eq_refl).
Defined.

(** *** A form without a client *)

Lemma report_client now m s :
  supabaseClient (report now m s) = supabaseClient s.
Proof.
  unfold report.
  repeat match goal with
         | |- context [if ?b then _ else _] => destruct b
         end; reflexivity.
Qed.

Lemma submit_client e s : supabaseClient (submit e s) = supabaseClient s.
Proof.
  unfold submit. destruct (answer e) as [|m|m]; [reflexivity| |];
    destruct (shown_as_success _); rewrite ?report_client; reflexivity.
Qed.

Lemma handleSubmit_client e s :
  supabaseClient (handleSubmit e s) = supabaseClient s.
Proof.
  unfold handleSubmit. cbv zeta. destruct (isSubmitting s); [reflexivity|].
  pose proof (passAntiSpamChecks_fields (t_rate e) (t_timing e) s) as Hf.
  destruct (passAntiSpamChecks (t_rate e) (t_timing e) s) as [[[|]|] s1];
    cbn [fst snd] in *; try tauto.
  destruct Hf as (_ & _ & _ & _ & _ & _ & _ & Hc & _).
  destruct (validateAllFields s1); cbn [negb]; [|exact Hc].
  change (supabaseClient (with_submitting true s1)) with (supabaseClient s1).
  destruct (supabaseClient s1) eqn:E.
  - change (supabaseClient (submit e (with_submitting true s1))
            = supabaseClient s).
    rewrite submit_client. cbn. congruence.
  - cbn. congruence.
Qed.

Lemma no_client_sends_nothing vs s :
  supabaseClient s = false ->
  inserts (play vs s) = inserts s /\ supabaseClient (play vs s) = false.
Proof.
  revert s. induction vs as [|v vs IH]; intros s Hc; [auto|].
  change (play (v :: vs) s) with (play vs (react v s)).
  destruct v as [f|e]; cbn [react].
  - apply (IH (with_entries f s)). exact Hc.
  - assert (supabaseClient (handleSubmit e s) = false) as Hc'
      by (rewrite handleSubmit_client; exact Hc).
    destruct (IH _ Hc') as [-> ->]. split; [|reflexivity].
    destruct (handleSubmit_inserts e s) as [E|(s1 & _ & Hp & _ & Hs1 & _)];
      [exact E|].
    pose proof (passAntiSpamChecks_fields (t_rate e) (t_timing e) s) as Hf.
    rewrite Hp in Hf. cbn [snd] in Hf.
    destruct Hf as (_ & _ & _ & _ & _ & _ & _ & H & _).
    congruence.
Qed.

(** X18. When the configuration element is missing or incomplete (an
    attribute absent or empty, or one of the placeholders
    [YOUR_SUPABASE_URL] and [YOUR_SUPABASE_ANON_KEY]), [initSupabase]
    creates no client and asks for no retry. Without a client no session
    hands a record to the data store, and a valid submission that passes
    the gates is still answered with the success notice and a reset
    form. *)
Theorem unconfigured_form_sends_nothing :
  forall (env : environment) (s : state) (vs : list event),
    supabaseClient s = false ->
    (supabaseScript env = None
     \/ exists supabaseUrl supabaseKey,
          supabaseScript env = Some (supabaseUrl, supabaseKey)
          /\ incomplete supabaseUrl supabaseKey = true) ->
    initSupabase env s = (s, false)
    /\ inserts (play vs s) = inserts s
    /\ supabaseClient (play vs s) = false
    /\ (forall e s1,
          isSubmitting s = false ->
          passAntiSpamChecks (t_rate e) (t_timing e) s = (Some true, s1) ->
          validateAllFields s1 = true ->
          notices (handleSubmit e s) = notices s ++ [Success]
          /\ message (handleSubmit e s) = EmptyString).
Proof.
  intros env s vs Hc Henv.
  destruct (no_client_sends_nothing vs s Hc) as [Hi Hc'].
  split; [|split; [exact Hi | split; [exact Hc'|]]].
  - unfold initSupabase.
    destruct Henv as [-> | (u & k & -> & ->)]; reflexivity.
  - intros e s1 Hg Hp Hv.
    pose proof (passAntiSpamChecks_fields (t_rate e) (t_timing e) s) as Hf.
    pose proof (passAntiSpamChecks_notices (t_rate e) (t_timing e) s) as Hn.
    rewrite Hp in Hf, Hn. cbn [fst snd] in Hf, Hn.
    destruct Hf as (_ & _ & _ & _ & _ & _ & _ & Hc1 & _).
    unfold handleSubmit. cbv zeta. rewrite Hg, Hp, Hv. cbn [negb].
    change (supabaseClient (with_submitting true s1)) with (supabaseClient s1).
    rewrite Hc1, Hc. split; [cbn; rewrite Hn; reflexivity | reflexivity].
Qed.

Lemma unconfigured_form_sends_nothing_witness :
  let env := {| supabaseScript :=
                  Some (Some "YOUR_SUPABASE_URL",
                        Some "YOUR_SUPABASE_ANON_KEY");
                library_loaded := true;
                createClient_throws := false |} in
  let f := Build_entries "Ann Lee" "ACTA" "ann@example.org" ""
             "Please send me a quote for type approval of a trailer." true ""
  in
  let e := Build_turn 5000 5000 5000 5000 5000 5000 5000 5000 Inserted in
  let s := init 1000 (State false [] ∅ false None "" "" "" "" "" false
                            (Some "") false [] [] all_errors) in
  initSupabase env s = (s, false)
  /\ inserts (play [Fill f; Submit e] s) = inserts s.
Proof.
  intros env f e s.
  assert (supabaseScript env = None
          \/ exists supabaseUrl supabaseKey,
               supabaseScript env = Some (supabaseUrl, supabaseKey)
               /\ incomplete supabaseUrl supabaseKey = true) as H.
  { right. do 2 eexists. split; reflexivity. }
  pose proof (unconfigured_form_sends_nothing env s [Fill f; Submit e]
                eq_refl H) as T.
  exact (conj (proj1 T) (proj1 (proj2 T))).
Defined.


(** *** Trimmed and lower-cased text *)

Lemma includes_cons c s k :
  includes s k = true -> includes (String c s) k = true.
Proof. intros H. cbn [includes]. rewrite H. apply orb_true_r. Qed.

Lemma includes_app_r (a b k : string) :
  includes b k = true -> includes (a +:+ b) k = true.
Proof.
  intros H. induction a as [|c a IH]; [exact H|].
  cbn [String.append]. apply includes_cons, IH.
Qed.

Lemma trimStart_suffix s : exists a, s = a +:+ trimStart s.
Proof.
  induction s as [|c s [a IH]]; [exists EmptyString; reflexivity|].
  cbn [trimStart]. destruct (is_space c).
  - exists (String c a). cbn [String.append]. rewrite <- IH. reflexivity.
  - exists EmptyString. reflexivity.
Qed.

Lemma rev_string_acc s acc : rev_string s acc = rev_string s "" +:+ acc.
Proof.
  revert acc. induction s as [|c s IH]; intros acc; [reflexivity|].
  cbn [rev_string]. rewrite (IH (String c acc)), (IH (String c "")).
  rewrite append_assoc. reflexivity.
Qed.

Lemma rev_string_app a b :
  rev_string (a +:+ b) "" = rev_string b "" +:+ rev_string a "".
Proof.
  induction a as [|c a IH]; cbn [String.append rev_string].
  - rewrite append_nil_r. reflexivity.
  - rewrite (rev_string_acc (a +:+ b)), (rev_string_acc a), IH.
    rewrite append_assoc. reflexivity.
Qed.

Lemma rev_string_involutive s : rev_string (rev_string s "") "" = s.
Proof.
  induction s as [|c s IH]; [reflexivity|].
  cbn [rev_string]. rewrite (rev_string_acc s), rev_string_app, IH.
  reflexivity.
Qed.

Lemma trim_inside s : exists a b, s = a +:+ trim s +:+ b.
Proof.
  destruct (trimStart_suffix s) as [a Ha].
  destruct (trimStart_suffix (rev_string (trimStart s) "")) as [c Hc].
  exists a, (rev_string c "").
  rewrite Ha at 1. f_equal. unfold trim.
  rewrite <- rev_string_app, <- Hc, rev_string_involutive. reflexivity.
Qed.

Lemma toLowerCase_app a b :
  toLowerCase (a +:+ b) = toLowerCase a +:+ toLowerCase b.
Proof.
  induction a as [|c a IH]; [reflexivity|].
  cbn [String.append toLowerCase]. rewrite IH. reflexivity.
Qed.

Lemma includes_lower_trim s k :
  includes (toLowerCase (trim s)) k = true ->
  includes (toLowerCase s) k = true.
Proof.
  intros H. destruct (trim_inside s) as (a & b & Hs).
  rewrite Hs, !toLowerCase_app.
  apply includes_app_r, includes_app_l, H.
Qed.

Lemma allText_parts s k :
  includes (allText s) k = false ->
  includes (toLowerCase (message s)) k = false
  /\ includes (toLowerCase (fullName s)) k = false
  /\ includes (toLowerCase (email s)) k = false.
Proof.
  intros H. unfold allText in H. repeat split.
  - destruct (includes (toLowerCase (message s)) k) eqn:E; [|reflexivity].
    rewrite includes_app_l in H by exact E. discriminate.
  - destruct (includes (toLowerCase (fullName s)) k) eqn:E; [|reflexivity].
    rewrite includes_app_r in H; [discriminate|].
    apply includes_app_r, includes_app_l, E.
  - destruct (includes (toLowerCase (email s)) k) eqn:E; [|reflexivity].
    rewrite includes_app_r in H; [discriminate|].
    do 3 apply includes_app_r. exact E.
Qed.

(** *** The score of what passes the content gate *)

Lemma lower_not_upper c : is_upper (lower_char c) = false.
Proof. destruct c as [[] [] [] [] [] [] [] []]; reflexivity. Qed.

Lemma no_capitals_left m : count_char is_upper (toLowerCase m) = 0.
Proof.
  induction m as [|c m IH]; [reflexivity|].
  cbn [toLowerCase count_char]. rewrite lower_not_upper, IH. reflexivity.
Qed.

Lemma no_capitals_ratio m :
  ratio_exceeds (count_char is_upper (toLowerCase m))
                (strlen (toLowerCase m)) 3 10 = false.
Proof.
  rewrite no_capitals_left. unfold ratio_exceeds.
  destruct (_ =? 0); [reflexivity|].
  destruct (Z.ltb_spec (3 * strlen (toLowerCase m)) (10 * 0));
    [|reflexivity].
  unfold strlen in *. lia.
Qed.

Lemma heuristic_points_tight t1 t2 s : 0 <= heuristic_points t1 t2 s <= 80.
Proof.
  unfold heuristic_points. rewrite no_capitals_ratio.
  cbv zeta.
  destruct (ratio_exceeds (count_char is_digit _) _ 2 10),
    (ratio_exceeds (count_char is_special _) _ 1 10),
    (Z.ltb_spec (strlen (toLowerCase (message s))) 30),
    (Z.ltb_spec 1000 (strlen (toLowerCase (message s)))),
    (has_run (toLowerCase (message s)));
    destruct (timeSpent t1 t2 s) as [t|];
    try (destruct (Z.ltb_spec t 3000), (Z.ltb_spec 300000 t)); lia.
Qed.

Lemma quiet_text (keywords : list string) text :
  existsb (fun keyword => includes text (toLowerCase keyword)) keywords
  = false ->
  Forall (fun keyword => includes text (toLowerCase keyword) = false)
         keywords
  /\ keyword_points keywords text = 0.
Proof.
  induction keywords as [|k keywords IH]; intros H;
    [split; [constructor | reflexivity]|].
  cbn [existsb] in H. apply orb_false_iff in H as [Hk H].
  destruct (IH H) as [IH1 IH2]. split; [constructor; assumption|].
  rewrite keyword_points_cons, Hk, IH2. reflexivity.
Qed.

Lemma snapshot_well_formed e s :
  honeypot_blank s = true ->
  containsSuspiciousContent s = false ->
  validateAllFields s = true ->
  well_formed (errorElements s) (snapshot e s).
Proof.
  intros Hh Hc Hv. rewrite validateAllFields_checks in Hv.
  apply andb_true_iff in Hv as [Hv Hv4].
  apply andb_true_iff in Hv as [Hv Hv3].
  apply andb_true_iff in Hv as [Hv1 Hv2].
  destruct (quiet_text _ _ Hc) as [Hq Hk].
  unfold well_formed, snapshot.
  cbn [full_name email_address message_text consent_given honeypot_filled
       spam_score].
  split; [|split; [|split; [|split; [|split; [|split]]]]].
  - intros E. rewrite E in Hv1. cbn [implb] in Hv1.
    unfold validateRequired in Hv1. lia.
  - intros E. rewrite E in Hv2. cbn [implb] in Hv2.
    unfold validateEmail in Hv2. apply andb_true_iff in Hv2 as [_ Hv2].
    exact Hv2.
  - intros E. rewrite E in Hv3. cbn [implb] in Hv3.
    unfold validateMessage in Hv3. lia.
  - intros E. rewrite E in Hv4. exact Hv4.
  - rewrite (honeypot_blank_guard s Hh). reflexivity.
  - unfold calculateSpamScore, raw_score. rewrite Hk.
    pose proof (heuristic_points_tight (t_score1 e) (t_score2 e) s). lia.
  - eapply Forall_impl; [exact Hq|]. cbn beta. intros k Hn.
    destruct (allText_parts s _ Hn) as (H1 & H2 & H3).
    repeat split.
    + destruct (includes (toLowerCase (trim (message s))) _) eqn:E;
        [|reflexivity].
      apply includes_lower_trim in E. congruence.
    + destruct (includes (toLowerCase (trim (fullName s))) _) eqn:E;
        [|reflexivity].
      apply includes_lower_trim in E. congruence.
    + destruct (includes (toLowerCase (trim (email s))) _) eqn:E;
        [|reflexivity].
      apply includes_lower_trim in E. congruence.
Qed.

Lemma react_well_formed v s :
  Forall (well_formed (errorElements s)) (inserts s) ->
  Forall (well_formed (errorElements s)) (inserts (react v s)).
Proof.
  intros H. destruct v as [f|e]; cbn [react]; [exact H|].
  destruct (handleSubmit_inserts e s) as [->|(s1 & _ & Hp & Hv & _ & ->)];
    [exact H|].
  apply Forall_app. split; [exact H|]. constructor; [|constructor].
  destruct (passed_state _ _ _ _ Hp) as (Hs1 & Hh & _ & _ & Hc & _).
  replace (errorElements s)
    with (errorElements (with_submitting true s1))
    by (rewrite Hs1; reflexivity).
  apply snapshot_well_formed.
  - rewrite Hs1. exact Hh.
  - rewrite Hs1. exact Hc.
  - rewrite <- Hv. rewrite Hs1. reflexivity.
Qed.

(** X19. Every record handed to the data store has passed the check of
    each required field whose error element is in the markup (a non-empty
    name, an e-mail address of the accepted shape, a message of at least
    20 characters, the consent given), and has the honeypot not filled, a
    spam score between 0 and 80, and no keyword of the denylist in its
    message, its name or its e-mail address. On a page with the four
    error elements every record sent is valid in all four respects. *)
Theorem only_valid_records_sent :
  forall (vs : list event) (s : state),
    Forall (well_formed (errorElements s)) (inserts s) ->
    Forall (well_formed (errorElements s)) (inserts (play vs s))
    /\ (errorElements s = all_errors ->
        Forall
          (fun d =>
             0 < strlen (full_name d)
             /\ emailRegex_test (email_address d) = true
             /\ minMessageLength FORM_CONFIG <= strlen (message_text d)
             /\ consent_given d = true)
          (inserts (play vs s))).
Proof.
  assert (forall vs s,
            Forall (well_formed (errorElements s)) (inserts s) ->
            Forall (well_formed (errorElements s)) (inserts (play vs s)))
    as Hall.
  { intros vs. induction vs as [|v vs IH]; intros s H; [exact H|].
    change (play (v :: vs) s) with (play vs (react v s)).
    replace (errorElements s) with (errorElements (react v s))
      by (destruct v; [reflexivity | apply handleSubmit_errorElements]).
    apply IH.
    replace (errorElements (react v s)) with (errorElements s)
      by (destruct v; [reflexivity
                      | symmetry; apply handleSubmit_errorElements]).
    apply react_well_formed, H. }
  intros vs s H. split; [apply Hall, H|].
  intros He. specialize (Hall vs s H). rewrite He in Hall.
  eapply Forall_impl; [exact Hall|]. cbn beta.
  intros d (H1 & H2 & H3 & H4 & _).
  repeat split; [apply H1 | apply H2 | apply H3 | apply H4]; reflexivity.
Qed.

(** The same entries on a page with the four error elements, and with
    the consent box left unticked on a page without [consent-error]. *)
Lemma only_valid_records_sent_witness :
  let f c := Build_entries "Ann Lee" "ACTA" "ann@example.org" ""
               "Please send me a quote for type approval of a trailer." c ""
  in
  let e := Build_turn 5000 5000 5000 5000 5000 5000 5000 5000 Inserted in
  let s errors := init 1000 (State false [] ∅ false None "" "" "" "" "" false
                                   (Some "") true [] [] errors) in
  let s' := s (Build_error_elements true true true false) in
  consent_given <$> inserts (play [Fill (f true); Submit e] (s all_errors))
  = [true]
  /\ Forall (well_formed all_errors)
            (inserts (play [Fill (f true); Submit e] (s all_errors)))
  /\ inserts (play [Fill (f false); Submit e] (s all_errors)) = []
  /\ consent_given <$> inserts (play [Fill (f false); Submit e] s')
     = [false]
  /\ Forall (well_formed (errorElements s'))
            (inserts (play [Fill (f false); Submit e] s')).
Proof.
  intros f e s s'.
  split; [vm_compute; reflexivity|].
  split; [exact (proj1 (only_valid_records_sent [Fill (f true); Submit e]
                          (s all_errors)
                          (List.Forall_nil (well_formed all_errors))))|].
  split; [vm_compute; reflexivity|].
  split; [vm_compute; reflexivity|].
  exact (proj1 (only_valid_records_sent [Fill (f false); Submit e] s'
                  (List.Forall_nil (well_formed (errorElements s'))))).
Defined.

(** X20. The score never counts capital letters: the message is put in
    lower case before its capitals are counted, so the count is zero and
    the 15 points for excessive capitals are never added. The heuristic
    points are at most 80, and two messages that differ only in case
    score the same. *)
Theorem capitals_never_scored :
  forall (s : state) (t1 t2 : Z) (m' : string),
    count_char is_upper (toLowerCase (message s)) = 0
    /\ ratio_exceeds (count_char is_upper (toLowerCase (message s)))
                     (strlen (toLowerCase (message s))) 3 10 = false
    /\ 0 <= heuristic_points t1 t2 s <= 80
    /\ (toLowerCase m' = toLowerCase (message s) ->
        calculateSpamScore t1 t2 (with_message m' s)
        = calculateSpamScore t1 t2 s).
Proof.
  intros s t1 t2 m'. split; [apply no_capitals_left|]. split.
  - apply no_capitals_ratio.
  - split; [apply heuristic_points_tight|].
    intros H. unfold calculateSpamScore, raw_score, allText, heuristic_points,
      timeSpent.
    cbn [with_message message fullName email startTime]. rewrite H.
    reflexivity.
Qed.


(** *** The timing gate over a session *)

(** X21. Throughout a session the timing gate compares with one reading
    [t] of the clock, taken when the form was rendered or last reset: it
    passes exactly when more than 2000 ms have passed since [t], so 2000
    ms sharp is rejected, and it leaves the state as it is. *)
Theorem timing_gate_is_a_threshold :
  forall (s0 : state) (t0 : Z) (vs : list event),
    Forall (not_before t0) vs ->
    let s := play vs (init t0 s0) in
    exists t,
      t0 <= t
      /\ startTime s = Some (Number_toString t)
      /\ (forall now, checkFormTiming now s = (minTime <? now - t, s))
      /\ fst (checkFormTiming (t + 2000) s) = false
      /\ fst (checkFormTiming (t + 2001) s) = true.
Proof.
  intros s0 t0 vs Hvs s.
  assert (started t0 (init t0 s0)) as H0
    by (exists t0; split; [reflexivity | lia]).
  destruct (play_started t0 vs (init t0 s0) Hvs H0) as (t & Ht & Hle).
  fold s in Ht. exists t. split; [exact Hle|]. split; [exact Ht|].
  split; [intros now; apply checkFormTiming_started, Ht|].
  rewrite !(checkFormTiming_started _ t s Ht). cbn [fst]. unfold minTime.
  split; [apply Z.ltb_ge | apply Z.ltb_lt]; lia.
Qed.

Lemma timing_gate_is_a_threshold_witness :
  let f := Build_entries "Ann Lee" "ACTA" "ann@example.org" ""
             "Please send me a quote for type approval of a trailer." true ""
  in
  let e := Build_turn 5000 5000 5000 5000 5000 5000 5000 9000 Inserted in
  let s0 := State false [] ∅ false None "" "" "" "" "" false (Some "") true
              [] [] all_errors in
  exists t,
    1000 <= t
    /\ startTime (play [Fill f; Submit e] (init 1000 s0))
       = Some (Number_toString t)
    /\ (forall now,
          checkFormTiming now (play [Fill f; Submit e] (init 1000 s0))
          = (minTime <? now - t, play [Fill f; Submit e] (init 1000 s0)))
    /\ fst (checkFormTiming (t + 2000)
              (play [Fill f; Submit e] (init 1000 s0))) = false
    /\ fst (checkFormTiming (t + 2001)
              (play [Fill f; Submit e] (init 1000 s0))) = true.
Proof.
  intros f e s0.
  assert (Forall (not_before 1000) [Fill f; Submit e]) as H
    by (repeat constructor; cbn; lia).
  exact (timing_gate_is_a_threshold s0 1000 [Fill f; Submit e] H).
Defined.

(** *** The shape of an e-mail address *)

Lemma count_char_nonneg p s : 0 <= count_char p s.
Proof.
  induction s as [|c s IH]; [reflexivity|]. cbn [count_char].
  destruct (p c); lia.
Qed.

Lemma count_char_app p a b :
  count_char p (a +:+ b) = count_char p a + count_char p b.
Proof.
  induction a as [|c a IH]; [reflexivity|].
  cbn [String.append count_char]. rewrite IH. lia.
Qed.

Lemma count_none p s :
  count_char p s = 0
  <-> forallb (fun c => negb (p c)) (list_ascii_of_string s) = true.
Proof.
  induction s as [|c s IH]; [split; reflexivity|].
  cbn [count_char list_ascii_of_string forallb].
  pose proof (count_char_nonneg p s) as Hn.
  destruct (p c); cbn [negb andb].
  - split; [lia | discriminate].
  - rewrite <- IH. split; lia.
Qed.

Lemma local_counts s :
  forallb local_char (list_ascii_of_string s) = true
  <-> count_char is_space s = 0 /\ count_char (Ascii.eqb "@") s = 0.
Proof.
  rewrite !count_none. induction s as [|c s IH]; [tauto|].
  cbn [list_ascii_of_string forallb]. rewrite !andb_true_iff, IH.
  unfold local_char. rewrite andb_true_iff. tauto.
Qed.

Lemma split_at s :
  count_char (Ascii.eqb "@") s = 1 ->
  exists l r,
    s = l +:+ "@" +:+ r
    /\ count_char (Ascii.eqb "@") l = 0
    /\ count_char (Ascii.eqb "@") r = 0
    /\ after_at s = r.
Proof.
  induction s as [|c s IH]; [discriminate|].
  cbn [count_char after_at].
  pose proof (count_char_nonneg (Ascii.eqb "@") s) as Hn.
  rewrite (Ascii.eqb_sym c "@").
  destruct (Ascii.eqb_spec "@" c) as [<-|Hc]; intros H.
  - exists EmptyString, s. repeat split. lia.
  - destruct IH as (l & r & -> & Hl & Hr & Ha); [lia|].
    exists (String c l), r. cbn [String.append count_char].
    destruct (Ascii.eqb_spec "@" c); [contradiction|].
    repeat split; assumption.
Qed.

Lemma after_at_app l r :
  count_char (Ascii.eqb "@") l = 0 -> after_at (l +:+ "@" +:+ r) = r.
Proof.
  induction l as [|c l IH]; intros H; [reflexivity|].
  cbn [count_char] in H. cbn [String.append after_at].
  pose proof (count_char_nonneg (Ascii.eqb "@") l) as Hn.
  rewrite (Ascii.eqb_sym c "@").
  destruct (Ascii.eqb "@" c); [lia|]. apply IH. lia.
Qed.

Lemma inner_dot_split r :
  inner_dot r = true <->
  exists d t, r = d +:+ "." +:+ t /\ d <> EmptyString /\ t <> EmptyString.
Proof.
  induction r as [|c0 r IH].
  - split; [discriminate|]. intros (d & t & H & Hd & _).
    destruct d; [contradiction | discriminate].
  - destruct r as [|c r]; [|destruct r as [|c2 r]].
    + split; [discriminate|]. intros (d & t & H & Hd & Ht).
      destruct d as [|x d]; [contradiction|]. injection H as _ H.
      destruct d; discriminate.
    + split; [discriminate|]. intros (d & t & H & Hd & Ht).
      destruct d as [|x d]; [contradiction|]. injection H as _ H.
      destruct d as [|y d].
      * cbn in H. injection H as _ H. symmetry in H. contradiction.
      * injection H as _ H. destruct d; discriminate.
    + change (inner_dot (String c0 (String c (String c2 r))))
        with (Ascii.eqb c "." || inner_dot (String c (String c2 r))).
      rewrite orb_true_iff, IH. split.
      * intros [H|(d & t & H & Hd & Ht)].
        -- apply Ascii.eqb_eq in H as ->.
           exists (String c0 ""), (String c2 r). repeat split; discriminate.
        -- exists (String c0 d), t. cbn [String.append]. rewrite H.
           repeat split; [discriminate | exact Ht].
      * intros (d & t & H & Hd & Ht).
        destruct d as [|x d]; [contradiction|]. injection H as -> H.
        destruct d as [|y d].
        -- left. cbn in H. injection H as -> _. reflexivity.
        -- right. exists (String y d), t. repeat split;
             [exact H | discriminate | exact Ht].
Qed.

(** X22. [FORM_CONFIG.emailRegex] accepts exactly the texts made of a
    non-empty part, an [@], a non-empty part, a dot and a non-empty part,
    where no part holds white space or an [@]. *)
Theorem emailRegex_shape :
  forall (s : string), emailRegex_test s = true <-> matches_emailRegex s.
Proof.
  intros s. unfold emailRegex_test, matches_emailRegex, local_part. split.
  - intros H. apply andb_true_iff in H as [H Hd].
    apply andb_true_iff in H as [H Hp].
    apply andb_true_iff in H as [Hs Ha].
    apply Z.eqb_eq in Hs, Ha. apply negb_true_iff in Hp.
    destruct (split_at s Ha) as (l & r & -> & Hl & Hr & Hr').
    rewrite Hr' in Hd. apply inner_dot_split in Hd as (d & t & -> & Hd & Ht).
    rewrite !count_char_app in Hs. rewrite !count_char_app in Hr.
    pose proof (count_char_nonneg is_space l).
    pose proof (count_char_nonneg is_space d).
    pose proof (count_char_nonneg is_space t).
    pose proof (count_char_nonneg (Ascii.eqb "@") d).
    pose proof (count_char_nonneg (Ascii.eqb "@") t).
    change (count_char is_space "@") with 0 in Hs.
    change (count_char is_space ".") with 0 in Hs.
    change (count_char (Ascii.eqb "@") ".") with 0 in Hr.
    exists l, d, t. split; [reflexivity|].
    repeat split; try assumption; try (apply local_counts; split; lia).
    intros ->. cbn in Hp. destruct d; [contradiction | discriminate].
  - intros (l & d & t & -> & [Hl Hl'] & [Hd Hd'] & [Ht Ht']).
    apply local_counts in Hl' as [Hl1 Hl2].
    apply local_counts in Hd' as [Hd1 Hd2].
    apply local_counts in Ht' as [Ht1 Ht2].
    rewrite !count_char_app, Hl1, Hl2, Hd1, Hd2, Ht1, Ht2.
    rewrite (after_at_app l _ Hl2).
    assert (String.prefix "@" (l +:+ "@" +:+ d +:+ "." +:+ t) = false) as ->.
    { destruct l as [|c l]; [contradiction|].
      cbn [count_char] in Hl2.
      pose proof (count_char_nonneg (Ascii.eqb "@") l).
      cbn [String.append String.prefix].
      destruct (ascii_dec "@" c) as [<-|]; [|reflexivity].
      cbn in Hl2. lia. }
    assert (inner_dot (d +:+ "." +:+ t) = true) as ->.
    { apply inner_dot_split. exists d, t. auto. }
    reflexivity.
Qed.

(** *** A storage that cannot be written *)

Lemma handleSubmit_unwritable e s :
  setItem_throws s = true ->
  setItem_throws (handleSubmit e s) = true
  /\ inserts (handleSubmit e s) = inserts s
  /\ (notices (handleSubmit e s) = notices s
      \/ exists n, early_rejection n
                   /\ notices (handleSubmit e s) = notices s ++ [n]).
Proof.
  intros Hs. unfold handleSubmit. cbv zeta.
  destruct (isSubmitting s); [auto|].
  unfold passAntiSpamChecks.
  destruct (match honeypot s with Some _ => _ | None => _ end).
  { cbn. split; [exact Hs|]. split; [reflexivity|]. right.
    eexists. split; [left; reflexivity | reflexivity]. }
  unfold checkRateLimit. rewrite Hs.
  destruct (_ <=? _).
  - cbn. split; [exact Hs|]. split; [reflexivity|]. right.
    eexists. split; [right; reflexivity | reflexivity].
  - cbn. auto.
Qed.

(** X23. When [setItem] throws, no session hands a record to the data
    store: an attempt stops at the honeypot or at the rate limiter, or
    ends in the exception of the write without a notice. The only notices
    are those of the honeypot and of the rate limiter; success is never
    shown. *)
Theorem unwritable_storage_blocks_the_form :
  forall (vs : list event) (s : state),
    setItem_throws s = true ->
    inserts (play vs s) = inserts s
    /\ exists more,
         notices (play vs s) = notices s ++ more
         /\ Forall early_rejection more.
Proof.
  intros vs. induction vs as [|v vs IH]; intros s Hs.
  - split; [reflexivity|]. exists []. rewrite app_nil_r. auto.
  - change (play (v :: vs) s) with (play vs (react v s)).
    destruct v as [f|e]; cbn [react].
    + apply (IH (with_entries f s) Hs).
    + destruct (handleSubmit_unwritable e s Hs) as (Hs' & Hi & Hn).
      destruct (IH _ Hs') as (IH1 & more & IH2 & IH3).
      split; [congruence|].
      destruct Hn as [Hn|(n & Hn1 & Hn2)].
      * exists more. rewrite IH2, Hn. auto.
      * exists (n :: more). rewrite IH2, Hn2, <- app_assoc. auto.
Qed.

Lemma unwritable_storage_blocks_the_form_witness :
  let f := Build_entries "Ann Lee" "ACTA" "ann@example.org" ""
             "Please send me a quote for type approval of a trailer." true ""
  in
  let e t := Build_turn t t t t t t t t Inserted in
  let s := init 1000 (State false [] ∅ true None "" "" "" "" "" false
                            (Some "") true [] [] all_errors) in
  let vs := [Fill f; Submit (e 5000); Submit (e 9000)] in
  inserts (play vs s) = inserts s
  /\ exists more,
       notices (play vs s) = notices s ++ more
       /\ Forall early_rejection more.
Proof.
  intros f e s vs.
  exact (unwritable_storage_blocks_the_form vs s eq_refl).
Defined.

End ContactFacts.

(** ** The fields of the contact form *)

Module FormFieldsFacts.
Import JS FormFields.

Lemma same_controls_refl d : same_controls d d.
Proof. split; reflexivity. Qed.

Lemma same_controls_trans form1 form2 form3 :
  same_controls form1 form2 -> same_controls form2 form3 ->
  same_controls form1 form3.
Proof.
  intros [H1 H2] [H3 H4]. split; intros k; [rewrite H3, H1 | rewrite H4, H2];
    reflexivity.
Qed.

Lemma same_controls_field d d' k f :
  same_controls d d' -> formFields d k = Some f ->
  exists f', formFields d' k = Some f' /\ control f' = control f.
Proof.
  intros [H _] Hf. specialize (H k). rewrite Hf in H.
  destruct (formFields d' k) as [f'|]; [|discriminate].
  exists f'. split; [reflexivity|]. cbn in H. congruence.
Qed.

Lemma control_fieldName f f' :
  control f' = control f -> fieldName f' = fieldName f.
Proof.
  unfold control, fieldName. intros [= -> -> _ _]. reflexivity.
Qed.

Lemma setFieldError_controls k errorMessage d d' :
  setFieldError k errorMessage d = Some d' -> same_controls d d'.
Proof.
  unfold setFieldError. destruct (formFields d k) as [f|] eqn:Hf;
    [|discriminate]. cbn [mbind option_bind].
  destruct (own_key (fieldName f)) as [ek|].
  - destruct (errorElements d ek) as [e|] eqn:He;
      [|intros [= <-]; apply same_controls_refl].
    destruct (negb (String.eqb errorMessage "")); intros [= <-]; split.
    + intros k'. destruct k, k'; cbn in *; rewrite ?Hf; reflexivity.
    + intros ek'. destruct ek, ek'; cbn in *; rewrite ?He; reflexivity.
    + intros k'. destruct k, k'; cbn in *; rewrite ?Hf; reflexivity.
    + intros ek'. destruct ek, ek'; cbn in *; rewrite ?He; reflexivity.
  - destruct (inherited (fieldName f)); [discriminate|].
    intros [= <-]. apply same_controls_refl.
Qed.

Lemma setFieldError_runs k errorMessage d f :
  formFields d k = Some f -> inherited (fieldName f) = false ->
  exists d', setFieldError k errorMessage d = Some d'.
Proof.
  intros Hf Hi. unfold setFieldError. rewrite Hf. cbn [mbind option_bind].
  destruct (own_key (fieldName f)) as [ek|]; [|rewrite Hi; eauto].
  destruct (errorElements d ek); [|eauto].
  destruct (negb (String.eqb errorMessage "")); eauto.
Qed.

Lemma validator_runs k ek validator d f :
  (k, ek, validator) ∈ requiredFields ->
  formFields d k = Some f -> inherited (fieldName f) = false ->
  exists d', validator k d = Some (verdict k f, d') /\ same_controls d d'.
Proof.
  intros Hin Hf Hi. unfold requiredFields in Hin.
  repeat (apply elem_of_cons in Hin as [Hin|Hin];
          [injection Hin as -> -> ->|]);
    [| | | |apply elem_of_nil in Hin; contradiction].
  - unfold validateRequired. rewrite Hf. cbn [mbind option_bind].
    destruct (setFieldError_runs fullName
                (if Contact.validateRequired (value f) then ""
                 else "This field is required") d f Hf Hi) as [d' Hd].
    rewrite Hd. exists d'. split; [reflexivity|].
    apply (setFieldError_controls _ _ _ _ Hd).
  - unfold validateEmail. rewrite Hf. cbn [mbind option_bind].
    match goal with
    | |- context [setFieldError email ?m d] =>
        destruct (setFieldError_runs email m d f Hf Hi) as [d' Hd];
        rewrite Hd
    end.
    exists d'. split; [reflexivity|].
    apply (setFieldError_controls _ _ _ _ Hd).
  - unfold validateMessage. rewrite Hf. cbn [mbind option_bind].
    match goal with
    | |- context [setFieldError message ?m d] =>
        destruct (setFieldError_runs message m d f Hf Hi) as [d' Hd];
        rewrite Hd
    end.
    exists d'. split; [reflexivity|].
    apply (setFieldError_controls _ _ _ _ Hd).
  - unfold validateConsent. rewrite Hf. cbn [mbind option_bind].
    match goal with
    | |- context [setFieldError consent ?m d] =>
        destruct (setFieldError_runs consent m d f Hf Hi) as [d' Hd];
        rewrite Hd
    end.
    exists d'. split; [reflexivity|].
    apply (setFieldError_controls _ _ _ _ Hd).
Qed.


Lemma control_verdict k f f' :
  control f' = control f -> verdict k f' = verdict k f.
Proof.
  unfold control, verdict. intros [= _ _ -> ->]. reflexivity.
Qed.

Lemma requiredFields_run d entries acc form1 :
  plainly_named d -> same_controls d form1 ->
  (forall x, x ∈ entries -> x ∈ requiredFields) ->
  exists d',
    fold_left
      (fun acc entry =>
         '(isValid, form1) ← acc;
         let '(k, ek, validator) := entry in
         match formFields d k, errorElements d ek with
         | Some _, Some _ =>
             '(fieldValid, form2) ← validator k form1;
             Some (if negb fieldValid then false else isValid, form2)
         | _, _ => Some (isValid, form1)
         end)
      entries (Some (acc, form1))
    = Some (acc && forallb (fun '(k, ek, _) => counted k ek d) entries, d')
    /\ same_controls d d'.
Proof.
  intros Hn. revert acc form1.
  induction entries as [|[[k ek] validator] entries IH];
    intros acc form1 Hs Hin.
  - exists form1. cbn. rewrite andb_true_r. auto.
  - cbn [fold_left forallb mbind option_bind]. unfold counted at 1.
    assert (forall x, x ∈ entries -> x ∈ requiredFields) as Hin'
      by (intros x Hx; apply Hin; right; exact Hx).
    destruct (formFields d k) as [f|] eqn:Hf.
    2:{ destruct (IH acc form1 Hs Hin') as (d' & -> & Hd'). exists d'.
        split; [reflexivity | exact Hd']. }
    destruct (errorElements d ek) as [e|] eqn:He.
    2:{ destruct (IH acc form1 Hs Hin') as (d' & -> & Hd'). exists d'.
        split; [reflexivity | exact Hd']. }
    destruct (same_controls_field d form1 k f Hs Hf) as (f1 & Hf1 & Hc).
    assert (inherited (fieldName f1) = false) as Hi.
    { rewrite (control_fieldName _ _ Hc). apply (Hn k f Hf). }
    destruct (validator_runs k ek validator form1 f1
                (Hin _ (list_elem_of_here _ _)) Hf1 Hi) as (form2 & -> & Hs2).
    cbn [mbind option_bind].
    rewrite (control_verdict k f f1 Hc).
    destruct (IH (if negb (verdict k f) then false else acc) form2
                (same_controls_trans _ _ _ Hs Hs2) Hin') as (d' & -> & Hd').
    exists d'. split; [|exact Hd'].
    destruct (verdict k f), acc; reflexivity.
Qed.

Lemma validateAllFields_runs d :
  plainly_named d ->
  exists d',
    validateAllFields d
    = Some (counted fullName fullName_error d
            && counted email email_error d
            && counted message message_error d
            && counted consent consent_error d, d')
    /\ same_controls d d'.
Proof.
  intros Hn.
  destruct (requiredFields_run d requiredFields true d Hn
              (same_controls_refl d) (fun x H => H)) as (d' & H & Hd').
  exists d'. split; [|exact Hd']. unfold validateAllFields. rewrite H.
  cbn [forallb requiredFields andb]. rewrite andb_true_r, !andb_assoc.
  reflexivity.
Qed.

Lemma same_controls_shows d d' s :
  same_controls d d' -> shows d s -> shows d' s.
Proof.
  intros [H _] (H1 & H2 & H3 & H4).
  pose proof (H fullName) as C1. pose proof (H email) as C2.
  pose proof (H message) as C3. pose proof (H consent) as C4.
  cbn [formFields] in *. unfold shows.
  destruct (f_fullName d) as [a|], (f_email d) as [b|],
    (f_message d) as [c|], (f_consent d) as [x|]; try discriminate.
  destruct (f_fullName d') as [a'|], (f_email d') as [b'|],
    (f_message d') as [c'|], (f_consent d') as [x'|]; try discriminate.
  cbn in *. unfold control in *.
  repeat split; congruence.
Qed.

(** X24. With the four required fields in the markup and no field named
    after a property of [Object.prototype], [validateAllFields] returns
    the verdict the controller acts on, the conjunction of the checks of
    the fields whose error element is in the markup (of all four when the
    four error elements are there), whatever the fields are named, and
    changes no name, id, value or tick. *)
Theorem validation_verdict :
  forall (d : elements) (s : Contact.state),
    shows d s ->
    finds d s ->
    plainly_named d ->
    (exists d',
       validateAllFields d = Some (Contact.validateAllFields s, d')
       /\ shows d' s
       /\ same_controls d d')
    /\ (errors_present d ->
        Contact.validateAllFields s
        = Contact.validateRequired (Contact.fullName s)
          && Contact.validateEmail (Contact.email s)
          && Contact.validateMessage (Contact.message s)
          && Contact.validateConsent (Contact.consent s)).
Proof.
  intros d s Hs He Hn. split.
  2:{ intros Hp. rewrite ContactFacts.validateAllFields_checks, He.
      destruct (Hp fullName_error) as [e1 E1], (Hp email_error) as [e2 E2],
        (Hp message_error) as [e3 E3], (Hp consent_error) as [e4 E4].
      cbn [errorElements] in *. rewrite E1, E2, E3, E4. reflexivity. }
  destruct (validateAllFields_runs d Hn) as (d' & H & Hd').
  exists d'.
  split; [|split; [apply (same_controls_shows d d' s Hd' Hs) | exact Hd']].
  rewrite H. do 2 f_equal.
  rewrite ContactFacts.validateAllFields_checks, He. unfold counted.
  destruct Hs as (H1 & H2 & H3 & H4).
  cbn [formFields errorElements Contact.error_fullName Contact.error_email
       Contact.error_message Contact.error_consent] in *.
  destruct (f_fullName d) as [a|], (f_email d) as [b|],
    (f_message d) as [c|], (f_consent d) as [x|]; try discriminate.
  cbn in H1, H2, H3, H4. injection H1 as <-. injection H2 as <-.
  injection H3 as <-. injection H4 as <-.
  destruct (e_fullName d), (e_email d), (e_message d), (e_consent d);
    cbn [found implb verdict]; rewrite ?andb_true_r; reflexivity.
Qed.

Lemma validation_verdict_witness :
  let input n i v := Element n i v false "" false None None in
  let slot i := Element "" i "" false "" true None None in
  let d := Elements (Some (input "fullName" "full-name" "Ann Lee"))
             (Some (input "organisation" "organisation" "ACTA"))
             (Some (input "email" "email" "ann@example"))
             (Some (input "phone" "phone" ""))
             (Some (input "message" "message" "Please call me back."))
             (Some (input "consent" "consent" "on"))
             (Some (input "website_url" "website_url" ""))
             (Some (slot "full-name-error")) (Some (slot "email-error"))
             (Some (slot "message-error")) (Some (slot "consent-error")) in
  let s := Contact.State false [] ∅ false (Some "1000") "Ann Lee" "ACTA"
             "ann@example" "" "Please call me back." false (Some "") true
             [] [] Contact.all_errors in
  exists d',
    validateAllFields d = Some (Contact.validateAllFields s, d')
    /\ shows d' s
    /\ same_controls d d'.
Proof.
  intros input slot d s.
  assert (shows d s) as Hs by (repeat split).
  assert (finds d s) as He by reflexivity.
  assert (plainly_named d) as Hn by (intros [] f [= <-]; reflexivity).
  exact (proj1 (validation_verdict d s Hs He Hn)).
Defined.

(** X25. A required field whose error element is missing from the
    markup is not checked: without the element [consent-error],
    [validateAllFields] returns the conjunction of the other three checks,
    and an unticked consent box passes. *)
Theorem missing_error_element_skips_check :
  forall (d : elements) (s : Contact.state),
    shows d s ->
    plainly_named d ->
    e_consent d = None ->
    is_Some (e_fullName d) -> is_Some (e_email d) -> is_Some (e_message d) ->
    exists d',
      validateAllFields d
      = Some (Contact.validateRequired (Contact.fullName s)
              && Contact.validateEmail (Contact.email s)
              && Contact.validateMessage (Contact.message s), d').
Proof.
  intros d s Hs Hn Hc [e1 E1] [e2 E2] [e3 E3].
  destruct (validateAllFields_runs d Hn) as (d' & H & Hd').
  exists d'. rewrite H. do 2 f_equal. unfold counted.
  destruct Hs as (H1 & H2 & H3 & H4).
  cbn [formFields errorElements] in *. rewrite E1, E2, E3, Hc.
  destruct (f_fullName d) as [a|], (f_email d) as [b|],
    (f_message d) as [c|], (f_consent d) as [x|]; try discriminate.
  cbn in *. injection H1 as ->. injection H2 as ->. injection H3 as ->.
  apply andb_true_r.
Qed.

Lemma missing_error_element_skips_check_witness :
  let input n i v := Element n i v false "" false None None in
  let slot i := Element "" i "" false "" true None None in
  let d := Elements (Some (input "fullName" "full-name" "Ann Lee"))
             (Some (input "organisation" "organisation" "ACTA"))
             (Some (input "email" "email" "ann@example.org"))
             (Some (input "phone" "phone" ""))
             (Some (input "message" "message"
                      "Please send me a quote for a trailer."))
             (Some (input "consent" "consent" "on"))
             (Some (input "website_url" "website_url" ""))
             (Some (slot "full-name-error")) (Some (slot "email-error"))
             (Some (slot "message-error")) None in
  let s := Contact.State false [] ∅ false (Some "1000") "Ann Lee" "ACTA"
             "ann@example.org" "" "Please send me a quote for a trailer."
             false (Some "") true [] []
             (Contact.Build_error_elements true true true false) in
  Contact.consent s = false
  /\ Contact.validateAllFields s = true
  /\ exists d',
       validateAllFields d
       = Some (Contact.validateRequired (Contact.fullName s)
               && Contact.validateEmail (Contact.email s)
               && Contact.validateMessage (Contact.message s), d').
Proof.
  intros input slot d s. split; [reflexivity|].
  split; [vm_compute; reflexivity|].
  assert (shows d s) as Hs by (repeat split).
  assert (plainly_named d) as Hn by (intros [] f [= <-]; reflexivity).
  exact (missing_error_element_skips_check d s Hs Hn eq_refl
           (mk_is_Some _ _ eq_refl) (mk_is_Some _ _ eq_refl)
           (mk_is_Some _ _ eq_refl)).
Defined.


(** *** The inline errors *)

Lemma setFieldError_marks k ek errorMessage d f e :
  formFields d k = Some f ->
  own_key (fieldName f) = Some ek ->
  errorElements d ek = Some e ->
  exists d',
    setFieldError k errorMessage d = Some d'
    /\ marked (String.eqb errorMessage "") (formFields d' k)
              (errorElements d' ek)
    /\ (forall k', k' <> k -> formFields d' k' = formFields d k')
    /\ (forall ek', ek' <> ek -> errorElements d' ek' = errorElements d ek').
Proof.
  intros Hf Hk He. unfold setFieldError. rewrite Hf.
  cbn [mbind option_bind]. rewrite Hk, He.
  destruct (String.eqb_spec errorMessage "") as [->|Hm]; cbn [negb].
  - eexists. split; [reflexivity|]. split; [|split].
    + exists (with_aria None None f), (with_text "" e).
      destruct k, ek; cbn; repeat split; reflexivity.
    + intros k' Hk'. destruct k, k'; try contradiction; reflexivity.
    + intros ek' Hk'. destruct ek, ek'; try contradiction; reflexivity.
  - eexists. split; [reflexivity|]. split; [|split].
    + exists (with_aria (Some "true") (Some (id e)) f),
        (with_text errorMessage e).
      assert (String.eqb errorMessage "" = false) as Hb
        by (apply String.eqb_neq; exact Hm).
      destruct k, ek; cbn; rewrite ?Hb; repeat split;
        try reflexivity; try discriminate; try contradiction.
    + intros k' Hk'. destruct k, k'; try contradiction; reflexivity.
    + intros ek' Hk'. destruct ek, ek'; try contradiction; reflexivity.
Qed.

Lemma strlen_nonneg s : 0 <= strlen s.
Proof. unfold strlen. lia. Qed.

Lemma validator_marks k ek validator d f e :
  (k, ek, validator) ∈ requiredFields ->
  formFields d k = Some f ->
  own_key (fieldName f) = Some ek ->
  errorElements d ek = Some e ->
  exists d',
    validator k d = Some (verdict k f, d')
    /\ marked (verdict k f) (formFields d' k) (errorElements d' ek)
    /\ (forall k', k' <> k -> formFields d' k' = formFields d k')
    /\ (forall ek', ek' <> ek -> errorElements d' ek' = errorElements d ek').
Proof.
  intros Hin Hf Hk He. unfold requiredFields in Hin.
  assert (forall m,
            String.eqb m "" = verdict k f ->
            exists d',
              (d' ← setFieldError k m d; Some (verdict k f, d'))
              = Some (verdict k f, d')
              /\ marked (verdict k f) (formFields d' k) (errorElements d' ek)
              /\ (forall k', k' <> k -> formFields d' k' = formFields d k')
              /\ (forall ek', ek' <> ek ->
                            errorElements d' ek' = errorElements d ek'))
    as Hset.
  { intros m Hm.
    destruct (setFieldError_marks k ek m d f e Hf Hk He)
      as (d' & -> & H1 & H2 & H3).
    exists d'. rewrite <- Hm. auto. }
  repeat (apply elem_of_cons in Hin as [Hin|Hin];
          [injection Hin as -> -> ->|]);
    [| | | |apply elem_of_nil in Hin; contradiction].
  - unfold validateRequired. rewrite Hf. cbn [mbind option_bind].
    apply Hset. cbn [verdict].
    destruct (Contact.validateRequired (value f)); reflexivity.
  - unfold validateEmail. rewrite Hf. cbn [mbind option_bind].
    apply Hset. cbn [verdict]. unfold Contact.validateEmail.
    pose proof (strlen_nonneg (trim (value f))) as Hn.
    destruct (Z.eqb_spec (strlen (trim (value f))) 0) as [E|E].
    + rewrite E. reflexivity.
    + destruct (Z.ltb_spec 0 (strlen (trim (value f)))); [|lia].
      destruct (Contact.emailRegex_test (trim (value f))); reflexivity.
  - unfold validateMessage. rewrite Hf. cbn [mbind option_bind].
    apply Hset. cbn [verdict]. unfold Contact.validateMessage.
    pose proof (strlen_nonneg (trim (value f))) as Hn.
    change (Contact.minMessageLength Contact.FORM_CONFIG) with 20.
    destruct (Z.eqb_spec (strlen (trim (value f))) 0) as [E|E].
    + rewrite E. reflexivity.
    + destruct (Z.ltb_spec (strlen (trim (value f))) 20),
        (Z.leb_spec 20 (strlen (trim (value f)))); try lia; reflexivity.
  - unfold validateConsent. rewrite Hf. cbn [mbind option_bind].
    apply Hset. cbn [verdict].
    destruct (Contact.validateConsent (checked f)); reflexivity.
Qed.

(** X26. When each required field is named after its key,
    [validateAllFields] marks every field by its own check, not only the
    first invalid one: an invalid field has [aria-invalid] set to [true]
    and is described by its error element, which is shown with a
    non-empty text; a valid field has neither attribute and its error
    element is hidden and empty. *)
Theorem every_invalid_field_marked :
  forall (d : elements) (f1 f2 f3 f4 : element),
    f_fullName d = Some f1 ->
    f_email d = Some f2 ->
    f_message d = Some f3 ->
    f_consent d = Some f4 ->
    named_by_key d ->
    errors_present d ->
    exists d',
      validateAllFields d
      = Some (verdict fullName f1 && verdict email f2
              && verdict message f3 && verdict consent f4, d')
      /\ marked (verdict fullName f1) (f_fullName d') (e_fullName d')
      /\ marked (verdict email f2) (f_email d') (e_email d')
      /\ marked (verdict message f3) (f_message d') (e_message d')
      /\ marked (verdict consent f4) (f_consent d') (e_consent d').
Proof.
  intros d f1 f2 f3 f4 H1 H2 H3 H4 (N1 & N2 & N3 & N4) He.
  destruct (He fullName_error) as [e1 E1], (He email_error) as [e2 E2],
    (He message_error) as [e3 E3], (He consent_error) as [e4 E4].
  cbn [errorElements] in E1, E2, E3, E4.
  assert (own_key (fieldName f1) = Some fullName_error) as K1
    by (rewrite (N1 f1 H1); reflexivity).
  assert (own_key (fieldName f2) = Some email_error) as K2
    by (rewrite (N2 f2 H2); reflexivity).
  assert (own_key (fieldName f3) = Some message_error) as K3
    by (rewrite (N3 f3 H3); reflexivity).
  assert (own_key (fieldName f4) = Some consent_error) as K4
    by (rewrite (N4 f4 H4); reflexivity).
  destruct (validator_marks fullName fullName_error validateRequired d f1 e1)
    as (form1 & V1 & M1 & F1 & G1);
    [unfold requiredFields; set_solver | assumption..|].
  destruct (validator_marks email email_error validateEmail form1 f2 e2)
    as (form2 & V2 & M2 & F2 & G2);
    [unfold requiredFields; set_solver
    | rewrite F1 by discriminate; exact H2 | exact K2
    | rewrite G1 by discriminate; exact E2 |].
  destruct (validator_marks message message_error validateMessage form2 f3 e3)
    as (form3 & V3 & M3 & F3 & G3);
    [unfold requiredFields; set_solver
    | rewrite F2, F1 by discriminate; exact H3 | exact K3
    | rewrite G2, G1 by discriminate; exact E3 |].
  destruct (validator_marks consent consent_error validateConsent form3 f4 e4)
    as (form4 & V4 & M4 & F4 & G4);
    [unfold requiredFields; set_solver
    | rewrite F3, F2, F1 by discriminate; exact H4 | exact K4
    | rewrite G3, G2, G1 by discriminate; exact E4 |].
  exists form4. split.
  - unfold validateAllFields, requiredFields.
    cbn [fold_left mbind option_bind formFields errorElements].
    rewrite H1, H2, H3, H4, E1, E2, E3, E4.
    rewrite V1. cbn [mbind option_bind]. rewrite V2. cbn [mbind option_bind].
    rewrite V3. cbn [mbind option_bind]. rewrite V4. cbn [mbind option_bind].
    destruct (verdict fullName f1), (verdict email f2),
      (verdict message f3), (verdict consent f4); reflexivity.
  - cbn [formFields errorElements] in *.
    specialize (F4 fullName) as A1. specialize (F4 email) as A2.
    specialize (F4 message) as A3.
    specialize (G4 fullName_error) as B1. specialize (G4 email_error) as B2.
    specialize (G4 message_error) as B3.
    specialize (F3 fullName) as A4. specialize (F3 email) as A5.
    specialize (G3 fullName_error) as B4. specialize (G3 email_error) as B5.
    specialize (F2 fullName) as A6. specialize (G2 fullName_error) as B6.
    cbn [formFields errorElements] in *.
    rewrite A1, A2, A3, B1, B2, B3 by discriminate.
    rewrite A4, A5, B4, B5 by discriminate.
    rewrite A6, B6 by discriminate.
    auto.
Qed.

Lemma every_invalid_field_marked_witness :
  let input n i v := Element n i v false "" false None None in
  let slot i := Element "" i "" false "" true None None in
  let d := Elements (Some (input "fullName" "full-name" ""))
             (Some (input "organisation" "organisation" ""))
             (Some (input "" "email" "ann@example"))
             (Some (input "phone" "phone" ""))
             (Some (input "message" "message" "Call me."))
             (Some (input "consent" "consent" "on"))
             (Some (input "website_url" "website_url" ""))
             (Some (slot "full-name-error")) (Some (slot "email-error"))
             (Some (slot "message-error")) (Some (slot "consent-error")) in
  exists d',
    validateAllFields d = Some (false, d')
    /\ marked false (f_fullName d') (e_fullName d')
    /\ marked false (f_email d') (e_email d')
    /\ marked false (f_message d') (e_message d')
    /\ marked false (f_consent d') (e_consent d').
Proof.
  intros input slot d.
  assert (named_by_key d) as Hn
    by (repeat split; intros f [= <-]; reflexivity).
  assert (errors_present d) as He by (intros []; eexists; reflexivity).
  exact (every_invalid_field_marked d _ _ _ _ eq_refl eq_refl eq_refl eq_refl
           Hn He).
Defined.

(** X27. [setFieldError] finds the error element through the name of
    the field, or through its id when it has no name. For a field whose
    name is no key of [errorElements] (the full-name field with the id
    [full-name] and no name, for one) it changes nothing, so that
    validating the field returns the verdict and shows no error. *)
Theorem error_needs_a_matching_name :
  forall (d : elements) (k : field_key) (f : element) (errorMessage : string),
    formFields d k = Some f ->
    own_key (fieldName f) = None ->
    inherited (fieldName f) = false ->
    setFieldError k errorMessage d = Some d
    /\ validateField k d = Some (verdict k f, d).
Proof.
  intros d k f errorMessage Hf Hk Hi.
  assert (forall m, setFieldError k m d = Some d) as Hset.
  { intros m. unfold setFieldError. rewrite Hf. cbn [mbind option_bind].
    rewrite Hk, Hi. reflexivity. }
  split; [apply Hset|].
  unfold validateField. rewrite Hf.
  destruct k; try reflexivity;
    unfold validateRequired, validateEmail, validateMessage, validateConsent;
    rewrite Hf; cbn [mbind option_bind]; rewrite Hset; reflexivity.
Qed.

Lemma error_needs_a_matching_name_witness :
  let input n i v := Element n i v false "" false None None in
  let slot i := Element "" i "" false "" true None None in
  let d := Elements (Some (input "" "full-name" ""))
             None (Some (input "" "email" "")) None
             (Some (input "" "message" "")) (Some (input "" "consent" "on"))
             None
             (Some (slot "full-name-error")) (Some (slot "email-error"))
             (Some (slot "message-error")) (Some (slot "consent-error")) in
  validateField fullName d = Some (false, d).
Proof.
  intros input slot d.
  exact (proj2 (error_needs_a_matching_name d fullName
                  (input "" "full-name" "") "This field is required"
                  eq_refl eq_refl eq_refl)).
Defined.

(** *** The panels under the form *)

Lemma display_present n p :
  is_Some (successElement p) -> is_Some (errorElement p) ->
  is_Some (errorText p) ->
  is_Some (successElement (display n p))
  /\ is_Some (errorElement (display n p))
  /\ is_Some (errorText (display n p)).
Proof.
  intros [a Ha] [b Hb] [c Hc]. destruct n as [|[m|]];
    cbn [display showSuccess showError successElement errorElement errorText];
    rewrite Ha, Hb, Hc; cbn; try destruct (String.eqb m ""); cbn; eauto.
Qed.

Lemma displayed_present ns p :
  is_Some (successElement p) -> is_Some (errorElement p) ->
  is_Some (errorText p) ->
  is_Some (successElement (displayed ns p))
  /\ is_Some (errorElement (displayed ns p))
  /\ is_Some (errorText (displayed ns p)).
Proof.
  revert p. induction ns as [|n ns IH]; intros p Ha Hb Hc; [auto|].
  destruct (display_present n p Ha Hb Hc) as (H1 & H2 & H3).
  apply (IH (display n p) H1 H2 H3).
Qed.

(** X28. With both panels and the text element in the markup, after
    every notice exactly one panel is shown: the success panel after
    [showSuccess], the error panel after [showError]. A failure with a
    message writes it; a failure without one shows the text the panel held
    before, that of an earlier failure or of the markup. *)
Theorem one_panel_at_a_time :
  forall (ns : list Contact.notice) (n : Contact.notice) (p : panels),
    is_Some (successElement p) ->
    is_Some (errorElement p) ->
    is_Some (errorText p) ->
    let before := displayed ns p in
    let after := displayed (ns ++ [n]) p in
    hidden <$> successElement after
    = Some (match n with
            | Contact.Success => false
            | Contact.Failure _ => true
            end)
    /\ hidden <$> errorElement after
       = Some (match n with
               | Contact.Success => true
               | Contact.Failure _ => false
               end)
    /\ textContent <$> errorText after
       = match n with
         | Contact.Failure (Some m) =>
             if String.eqb m "" then textContent <$> errorText before
             else Some m
         | _ => textContent <$> errorText before
         end.
Proof.
  intros ns n p Ha Hb Hc before after.
  assert (after = display n before) as ->
    by (unfold after, before, displayed; apply fold_left_app).
  destruct (displayed_present ns p Ha Hb Hc) as ([a Ea] & [b Eb] & [c Ec]).
  fold before in Ea, Eb, Ec. clearbody before.
  destruct n as [|[m|]];
    cbn [display showSuccess showError successElement errorElement errorText];
    rewrite Ea, Eb, Ec; cbn; try destruct (String.eqb m ""); cbn; auto.
Qed.

Lemma one_panel_at_a_time_witness :
  let box t h := Element "" "" "" false t h None None in
  let p := Panels (Some (box "" true)) (Some (box "" true))
                  (Some (box "Something went wrong." false)) in
  let ns := [Contact.Failure (Some Contact.MSG_RATE); Contact.Success] in
  textContent <$> errorText (displayed (ns ++ [Contact.Failure None]) p)
  = Some Contact.MSG_RATE
  /\ hidden <$> errorElement (displayed (ns ++ [Contact.Failure None]) p)
     = Some false.
Proof.
  intros box p ns.
  pose proof (one_panel_at_a_time ns (Contact.Failure None) p
                (mk_is_Some _ _ eq_refl) (mk_is_Some _ _ eq_refl)
                (mk_is_Some _ _ eq_refl)) as T.
  exact (conj (proj2 (proj2 T)) (proj1 (proj2 T))).
Defined.

End FormFieldsFacts.
